(** * csv-peek: line navigation and viewport rendering

    A shallow embedding of [main.go] of csv-peek.  The source tree holds two
    listings of [main.go]: the first keeps one maximum width per column
    ([maxWidth []int], module [PerColumn] below), the second keeps a single
    width for all columns ([maxWidth int] with [maxFields], module
    [Uniform]).  The byte-scanning loops of [seekBackLine] and
    [seekForwardLine] are the same text in both listings and are embedded
    once.

    Conventions.
    - Go [int] and [int64] values are embedded in [Z].  Every quantity that
      is computed below is bounded by the size of the file or of the
      rendered table, far below [2^63], so no wrap-around is modelled.
    - A Go [string] that is only measured with [utf8.RuneCountInString],
      converted with [[]rune(-)] or built from whole glyphs is embedded as
      the list of its code points.
    - The terminal size and the records produced by [encoding/csv] are
      inputs of the model (the environment [Env]).
    - A call that panics ([fatalIfErr], a slice or index out of range,
      [strings.Repeat] with a negative count) yields [Panicked]; a call
      that ends the program through [log.Fatalln] yields [Exited].
    - The file is held in memory: the one error a [Read] of the CSV
      reader returns is the one [encoding/csv] raises itself, for a
      delimiter it does not accept. *)

From Stdlib Require Import ZArith List Bool Lia.
From Stdlib Require Import Strings.Byte.
Import ListNotations.
Local Open Scope Z_scope.

(** ** Outcomes of calls *)

Inductive outcome (A : Type) : Type :=
| Ok (a : A)
| Panicked
| NoFuel
| Exited.                          (* log.Fatalln: exit status 1 *)
Arguments Ok {A} a.
Arguments Panicked {A}.
Arguments NoFuel {A}.
Arguments Exited {A}.

Definition bind {A B : Type} (c : outcome A) (k : A -> outcome B) : outcome B :=
  match c with
  | Ok a => k a
  | Panicked => Panicked
  | NoFuel => NoFuel
  | Exited => Exited
  end.

Notation "x <- c ;; k" := (bind c (fun x => k))
  (at level 61, c at next level, right associativity).

(** ** Strings, bytes and files *)

Definition rune := Z.
Definition gostring := list rune.
Definition record := list gostring.

Definition NL : byte := x0a.

Definition isNL (b : byte) : bool := Byte.eqb b NL.

(** [utf8.RuneCountInString]. *)
Definition RuneCountInString (s : gostring) : Z := Z.of_nat (length s).

(** [len] of a slice. *)
Definition len {A : Type} (l : list A) : Z := Z.of_nat (length l).

(** An open [*os.File]: its bytes and the offset of the next sequential
    read, which [Seek] moves. *)
Record File : Type := mkFile { content : list byte; offset : Z }.

Inductive readResult : Type :=
| Got (b : byte)
| EOF
| ReadError.

(** [file.ReadAt(b, off)] with a one-byte buffer. *)
Definition ReadAt (bytes : list byte) (off : Z) : readResult :=
  if off <? 0 then ReadError
  else match nth_error bytes (Z.to_nat off) with
       | Some b => Got b
       | None => EOF
       end.

(** Environment of a run: [term.GetSize], the [-comma] flag, and the
    records [encoding/csv] yields, one per [reader.Read()], when it reads
    the given bytes up to end of file with the given delimiter. *)
Record Env : Type := mkEnv {
  width : Z;
  height : Z;
  comma : list byte;
  csvRecords : byte -> list byte -> list record
}.

(** [countLinesFitting]: [height / 2], Go's truncated division. *)
Definition countLinesFitting (env : Env) : Z := Z.quot (height env) 2.

(** ** The byte-scanning loops *)

(** The [for] loop of [seekBackLine]; [res] and the two flags are the
    loop's variables.  The result is the offset the function returns and
    seeks to. *)
Fixpoint seekBackLoop (fuel : nat) (bytes : list byte) (res : Z)
         (enteredNL enteredText : bool) : outcome Z :=
  match fuel with
  | O => NoFuel
  | S fuel' =>
      if res <=? 0 then Ok 0
      else match ReadAt bytes res with
           | Got b =>
               if isNL b && negb enteredNL then
                 seekBackLoop fuel' bytes (res - 1) true enteredText
               else if negb (isNL b) && enteredNL then
                 seekBackLoop fuel' bytes (res - 1) enteredNL true
               else if isNL b && enteredText then
                 Ok (res + 1)
               else
                 seekBackLoop fuel' bytes (res - 1) enteredNL enteredText
           | _ => Panicked
           end
  end.

(** The loop entered at [res] with enough fuel to reach offset 0. *)
Definition seekBackFrom (bytes : list byte) (res : Z)
           (enteredNL enteredText : bool) : outcome Z :=
  seekBackLoop (S (Z.to_nat res)) bytes res enteredNL enteredText.

(** [seekBackLine] as a function of the file position [pos]. *)
Definition seekBackOffset (bytes : list byte) (pos : Z) : outcome Z :=
  seekBackFrom bytes (pos - 1) false false.

(** The [for] loop of [seekForwardLine]. *)
Fixpoint seekForwardLoop (fuel : nat) (bytes : list byte) (res : Z)
         (enteredNL : bool) : outcome Z :=
  match fuel with
  | O => NoFuel
  | S fuel' =>
      match ReadAt bytes res with
      | EOF => Ok (len bytes)
      | ReadError => Panicked
      | Got b =>
          if isNL b && negb enteredNL then
            seekForwardLoop fuel' bytes (res + 1) true
          else if negb (isNL b) && enteredNL then
            Ok res
          else
            seekForwardLoop fuel' bytes (res + 1) enteredNL
      end
  end.

Definition seekForwardFrom (bytes : list byte) (res : Z)
           (enteredNL : bool) : outcome Z :=
  seekForwardLoop (S (Z.to_nat (len bytes - res))) bytes res enteredNL.

(** [seekForwardLine] as a function of the starting offset [pos]. *)
Definition seekForwardOffset (bytes : list byte) (pos : Z) : outcome Z :=
  seekForwardFrom bytes pos false.

(** A [for i := 0; i < n; i++ { body }] loop over a state, stopping at the
    first body that does not return. *)
Fixpoint forN {S : Type} (count : nat) (body : S -> outcome S) (s : S)
  : outcome S :=
  match count with
  | O => Ok s
  | Datatypes.S k => s' <- body s ;; forN k body s'
  end.

(** ** Slices *)

(** [l[lo:hi]]; the bounds check of Go with the capacity taken equal to
    the length (every use below has [hi <= len(l)] or fails). *)
Definition sliceRange {A : Type} (l : list A) (lo hi : Z) : outcome (list A) :=
  if (0 <=? lo) && (lo <=? hi) && (hi <=? len l)
  then Ok (firstn (Z.to_nat (hi - lo)) (skipn (Z.to_nat lo) l))
  else Panicked.

(** [l[i]]. *)
Definition indexAt {A : Type} (l : list A) (i : Z) : outcome A :=
  if i <? 0 then Panicked
  else match nth_error l (Z.to_nat i) with
       | Some a => Ok a
       | None => Panicked
       end.

(** [l[i] = v] for an index already known to be in range. *)
Fixpoint setAt {A : Type} (l : list A) (i : nat) (v : A) : list A :=
  match l, i with
  | [], _ => []
  | _ :: t, O => v :: t
  | h :: t, S k => h :: setAt t k v
  end.

(** [sum]. *)
Definition sum (ns : list Z) : Z := fold_left Z.add ns 0.

(** Box-drawing glyphs and the space, as code points. *)
Definition gHeaderStart : rune := 9487.  (* U+250F *)
Definition gHeaderMiddle : rune := 9523. (* U+2533 *)
Definition gHeaderEnd : rune := 9491.    (* U+2513 *)
Definition gFooterStart : rune := 9495.  (* U+2517 *)
Definition gFooterMiddle : rune := 9531. (* U+253B *)
Definition gFooterEnd : rune := 9499.    (* U+251B *)
Definition gDataStart : rune := 9507.    (* U+2523 *)
Definition gDataMiddle : rune := 9547.   (* U+254B *)
Definition gDataEnd : rune := 9515.      (* U+252B *)
Definition gFill : rune := 9473.         (* U+2501 *)
Definition gBar : rune := 9475.          (* U+2503 *)
Definition gSpace : rune := 32.

(** [padString]: [strings.Repeat] panics on a negative count. *)
Definition padString (input : gostring) (length : Z) : outcome gostring :=
  let n := RuneCountInString input in
  if n =? length then Ok input
  else if length - n <? 0 then Panicked
  else Ok (repeat gSpace (Z.to_nat (length - n)) ++ input).

(** [window[len(window)-1] = footer]. *)
Definition setLast {A : Type} (window : list A) (footer : A) : outcome (list A) :=
  match window with
  | [] => Panicked
  | _ => Ok (removelast window ++ [footer])
  end.

(** The last loop of [getPrintableLines]: each line is converted to runes
    and cut to [rpl[horizontalShift:min(len(rpl), horizontalShift+width)]]. *)
Definition clipLine (shift width : Z) (pl : gostring) : outcome gostring :=
  sliceRange pl shift (Z.min (len pl) (shift + width)).

Fixpoint clipLines (shift width : Z) (window : list gostring)
  : outcome (list gostring) :=
  match window with
  | [] => Ok []
  | pl :: rest =>
      truncated <- clipLine shift width pl ;;
      rest' <- clipLines shift width rest ;;
      Ok (truncated :: rest')
  end.

(** ** The CSV reader *)

(** The delimiters [encoding/csv] accepts, among the runes [rune(comma[0])]
    can be: every byte but NUL, the double quote, carriage return and
    line feed. *)
Definition validDelim (c : byte) : bool :=
  negb (Byte.eqb c x00 || Byte.eqb c x22 || Byte.eqb c x0d || Byte.eqb c x0a).

(** A [*csv.Reader].  [Records rs]: the successive calls of [Read] return
    the records [rs], then [io.EOF].  [Invalid]: the delimiter is not
    accepted, and every call of [Read] returns an error. *)
Inductive csvReader : Type :=
| Records (rs : list record)
| Invalid.

(** What one call of [reader.Read()] returns. *)
Inductive readCall : Type :=
| ReadRecord (r : record) (next : csvReader)
| ReadEOF
| ReadFails.

Definition Read (reader : csvReader) : readCall :=
  match reader with
  | Records (r :: rest) => ReadRecord r (Records rest)
  | Records [] => ReadEOF
  | Invalid => ReadFails
  end.

(** [getNewCSVReader]: [comma[0]] panics on the empty string.  The reader
    starts at the file's current offset. *)
Definition getNewCSVReader (env : Env) (f : File) : outcome csvReader :=
  match comma env with
  | [] => Panicked
  | c :: _ =>
      if validDelim c
      then Ok (Records (csvRecords env c
                          (skipn (Z.to_nat (offset f)) (content f))))
      else Ok Invalid
  end.

(** The loop of [countLinesAvailable]: [remaining] iterations are left,
    [i] is the loop counter.  [io.EOF] returns [i], another error ends
    the program through [log.Fatalln]. *)
Fixpoint countAvailableLoop (remaining : nat) (i : Z) (reader : csvReader)
         (fitting : Z) : outcome Z :=
  match remaining with
  | O => Ok fitting
  | S k =>
      match Read reader with
      | ReadEOF => Ok i
      | ReadFails => Exited
      | ReadRecord _ next => countAvailableLoop k (i + 1) next fitting
      end
  end.

(** ** Start of the program *)

(** What [main] writes before the keyboard loop, and how its start ends. *)
Inductive event : Type :=
| EvUsage                          (* flag.Usage() *)
| EvHideCursor
| EvShowCursor
| EvNewline                        (* the deferred fmt.Println() *)
| EvFrame (lines : list gostring)  (* the first rendered window *)
| EvFatal.                         (* the line log.Fatalln writes *)

Inductive ending (P : Type) : Type :=
| ExitUsage                        (* os.Exit(1) after the usage text *)
| ExitFatal                        (* os.Exit(1) of log.Fatalln *)
| Crashed                          (* panic *)
| Serving (p : P).                 (* keyboardHandler is reached *)
Arguments ExitUsage {P}.
Arguments ExitFatal {P}.
Arguments Crashed {P}.
Arguments Serving {P} p.

(** ** The keyboard *)

(** The keys [keyboardHandler] and [handleLineJump] tell apart; every
    other key of the keyboard package is [KeyOther]. *)
Inductive Key : Type :=
| KeyArrowUp
| KeyArrowDown
| KeyArrowLeft
| KeyArrowRight
| KeyCtrlN
| KeyCtrlP
| KeySpace
| KeyCtrlC
| KeyOther.

(** What one call of [keyboard.GetKey] returns: a character and a key,
    or an error. *)
Inductive keyPress : Type :=
| Pressed (ch : rune) (key : Key)
| GetKeyError.

(** [unicode.IsDigit] and [strconv.Atoi] (whose error [handleLineJump]
    drops), left open like the CSV parser. *)
Record Digits : Type := mkDigits {
  IsDigit : rune -> bool;
  Atoi : gostring -> Z
}.

(** How [keyboardHandler] ends on a finite list of key presses. *)
Inductive handled (P : Type) : Type :=
| Quit                             (* break outerLoop *)
| Waiting (p : P)                  (* GetKey waits for the next key *)
| Failed                           (* panic *)
| Spinning                         (* a loop that does not end *)
| FatalExit.                       (* log.Fatalln: exit status 1 *)
Arguments Quit {P}.
Arguments Waiting {P} p.
Arguments Failed {P}.
Arguments Spinning {P}.
Arguments FatalExit {P}.


Definition chJ : rune := 106. (* 'j' *)
Definition chK : rune := 107. (* 'k' *)
Definition chL : rune := 108. (* 'l' *)
Definition chH : rune := 104. (* 'h' *)
Definition chQ : rune := 113. (* 'q' *)
Definition chG : rune := 71.  (* 'G' *)
Definition chg : rune := 103. (* 'g' *)

(** A step that goes on with the loop; [None] is [break outerLoop]. *)
Definition going {P : Type} (c : outcome P) : outcome (option P) :=
  p <- c ;; Ok (Some p).

(** A render inside the loop: the frame is printed, then the loop goes
    on with [k]. *)
Definition drawn {P : Type} (render : outcome (P * list gostring))
           (k : P -> list (list gostring) * handled P)
  : list (list gostring) * handled P :=
  match render with
  | Ok (p1, frame) => let (frames, e) := k p1 in (frame :: frames, e)
  | Panicked => ([], Failed)
  | NoFuel => ([], Spinning)
  | Exited => ([], FatalExit)
  end.

(** ** First listing: one maximum width per column *)

Module PerColumn.

(** [Pager]; the mutex is left out, access is sequential here. *)
Record Pager : Type := mkPager {
  horizontalShift : Z;
  maxWidth : list Z;
  file : File;
  prevPrintableLines : option (list gostring)
}.

Definition withOffset (p : Pager) (off : Z) : Pager :=
  mkPager (horizontalShift p) (maxWidth p)
          (mkFile (content (file p)) off) (prevPrintableLines p).

Definition withShift (p : Pager) (shift : Z) : Pager :=
  mkPager shift (maxWidth p) (file p) (prevPrintableLines p).

Definition withMaxWidth (p : Pager) (mw : list Z) : Pager :=
  mkPager (horizontalShift p) mw (file p) (prevPrintableLines p).

(** [for len(record) > len(p.maxWidth) { append 0 }]. *)
Definition growTo (mw : list Z) (n : nat) : list Z :=
  mw ++ repeat 0 (n - length mw).

(** [for f, field := range record { p.maxWidth[f] = max(p.maxWidth[f], n) }],
    entered at field index [f]. *)
Fixpoint widenLoop (mw : list Z) (f : nat) (fields : record) : list Z :=
  match fields with
  | [] => mw
  | field :: rest =>
      widenLoop (setAt mw f (Z.max (nth f mw 0) (RuneCountInString field)))
                (S f) rest
  end.

(** What one iteration of [readLines] does to [p.maxWidth]. *)
Definition measure (mw : list Z) (r : record) : list Z :=
  widenLoop (growTo mw (length r)) 0 r.

(** The loop of [readLines]: [io.EOF] leaves the loop, another error
    ends the program through [log.Fatalln]. *)
Fixpoint readLoop (remaining : nat) (reader : csvReader) (mw : list Z)
         (res : list record) : outcome (list Z * list record) :=
  match remaining with
  | O => Ok (mw, res)
  | S k =>
      match Read reader with
      | ReadEOF => Ok (mw, res)
      | ReadFails => Exited
      | ReadRecord r next => readLoop k next (measure mw r) (res ++ [r])
      end
  end.

(** [readLines]: the file offset is restored by the deferred [Seek]. *)
Definition readLines (env : Env) (p : Pager) : outcome (Pager * list record) :=
  reader <- getNewCSVReader env (file p) ;;
  r <- readLoop (Z.to_nat (countLinesFitting env)) reader (maxWidth p) [] ;;
  let '(mw, res) := r in
  Ok (withMaxWidth p mw, res).

(** [countMaxJoinedLength]. *)
Definition countMaxJoinedLength (p : Pager) : Z :=
  fold_left (fun res w => res + (w + 1)) (maxWidth p) 0 + 1.

(** The loop of [getTableLine], entered at column [i] with junction
    counter [j]. *)
Fixpoint tableLineLoop (remaining : nat) (mw : list Z) (length i j : Z)
         (start middle end_ : rune) : outcome gostring :=
  match remaining with
  | O => Ok []
  | S k =>
      if i =? 0 then
        rest <- tableLineLoop k mw length (i + 1) j start middle end_ ;;
        Ok (start :: rest)
      else if i =? length - 1 then
        rest <- tableLineLoop k mw length (i + 1) j start middle end_ ;;
        Ok (end_ :: rest)
      else
        prefix <- sliceRange mw 0 (j + 1) ;;
        if sum prefix + (j + 1) =? i then
          rest <- tableLineLoop k mw length (i + 1) (j + 1) start middle end_ ;;
          Ok (middle :: rest)
        else
          rest <- tableLineLoop k mw length (i + 1) j start middle end_ ;;
          Ok (gFill :: rest)
  end.

Definition getTableLine (p : Pager) (start middle end_ : rune)
  : outcome gostring :=
  let length := countMaxJoinedLength p in
  tableLineLoop (Z.to_nat length) (maxWidth p) length 0 0 start middle end_.

Definition getTableHeaderLine (p : Pager) : outcome gostring :=
  getTableLine p gHeaderStart gHeaderMiddle gHeaderEnd.

Definition getTableFooterLine (p : Pager) : outcome gostring :=
  getTableLine p gFooterStart gFooterMiddle gFooterEnd.

Definition getDataLine (p : Pager) : outcome gostring :=
  getTableLine p gDataStart gDataMiddle gDataEnd.

(** The loop of [getDataFields], entered at field index [i]. *)
Fixpoint dataFieldsLoop (mw : list Z) (i : Z) (line : record)
  : outcome gostring :=
  match line with
  | [] => Ok []
  | field :: rest =>
      w <- indexAt mw i ;;
      padded <- padString field w ;;
      tail <- dataFieldsLoop mw (i + 1) rest ;;
      Ok (padded ++ gBar :: tail)
  end.

Definition getDataFields (p : Pager) (line : record) : outcome gostring :=
  tail <- dataFieldsLoop (maxWidth p) 0 line ;;
  Ok (gBar :: tail).

(** The record loop of [getPrintableLines]. *)
Fixpoint windowLoop (env : Env) (p : Pager) (dataFooter : gostring)
         (lines : list record) (window : list gostring)
  : outcome (list gostring) :=
  match lines with
  | [] => Ok window
  | r :: rest =>
      if len window >=? height env then Ok window
      else
        dataFields <- getDataFields p r ;;
        windowLoop env p dataFooter rest (window ++ [dataFields; dataFooter])
  end.

Definition getPrintableLines (env : Env) (p : Pager) (lines : list record)
  : outcome (list gostring) :=
  header <- getTableHeaderLine p ;;
  dataFooter <- getDataLine p ;;
  footer <- getTableFooterLine p ;;
  window <- windowLoop env p dataFooter lines [header] ;;
  window <- setLast window footer ;;
  window <- sliceRange window 0 (Z.min (height env) (len window)) ;;
  clipLines (horizontalShift p) (width env) window.

(** [renderCSVWindow], without the escape sequences it prints. *)
Definition renderCSVWindow (env : Env) (p : Pager)
  : outcome (Pager * list gostring) :=
  r <- readLines env p ;;
  let '(p1, lines) := r in
  printableLines <- getPrintableLines env p1 lines ;;
  Ok (mkPager (horizontalShift p1) (maxWidth p1) (file p1)
              (Some printableLines), printableLines).

(** The loop of [currentFieldIndex]. *)
Fixpoint fieldIndexLoop (ws : list Z) (shift i cum n : Z) : Z :=
  match ws with
  | [] => if shift =? cum then n - 1 else 0
  | w :: rest =>
      if (shift - i >=? cum) && (shift - i <? cum + w) then i
      else fieldIndexLoop rest shift (i + 1) (cum + w) n
  end.

Definition currentFieldIndex (p : Pager) : Z :=
  fieldIndexLoop (maxWidth p) (horizontalShift p) 0 0 (len (maxWidth p)).

Definition moveToLeft (p : Pager) : outcome Pager :=
  let i := currentFieldIndex p in
  if i =? 0 then Ok (withShift p 0)
  else
    w <- indexAt (maxWidth p) (i - 1) ;;
    Ok (withShift p (Z.max 0 (horizontalShift p - w - 1))).

Definition moveToRight (env : Env) (p : Pager) : outcome Pager :=
  let length := countMaxJoinedLength p in
  if length - horizontalShift p <=? width env then Ok p
  else
    let i := currentFieldIndex p in
    w <- indexAt (maxWidth p) i ;;
    Ok (withShift p (horizontalShift p + w + 1)).

Definition seekBackLine (p : Pager) : outcome Pager :=
  res <- seekBackOffset (content (file p)) (offset (file p)) ;;
  Ok (withOffset p res).

Definition seekForwardLine (p : Pager) : outcome Pager :=
  res <- seekForwardOffset (content (file p)) (offset (file p)) ;;
  Ok (withOffset p res).

(** [countLinesAvailable]: the file offset is restored on return. *)
Definition countLinesAvailable (env : Env) (p : Pager) : outcome Z :=
  reader <- getNewCSVReader env (file p) ;;
  countAvailableLoop (Z.to_nat (countLinesFitting env)) 0 reader
                     (countLinesFitting env).

(** [for p.countLinesAvailable() < lines { p.seekBackLine() }]. *)
Fixpoint seekBackWhileFewer (fuel : nat) (env : Env) (lines : Z) (p : Pager)
  : outcome Pager :=
  match fuel with
  | O => NoFuel
  | S k =>
      available <- countLinesAvailable env p ;;
      if available <? lines then
        p' <- seekBackLine p ;;
        seekBackWhileFewer k env lines p'
      else Ok p
  end.

(** [seekForwardN].  Each turn of the last loop moves the offset down by
    at least one byte until it is 0, so [offset + 2] turns decide whether
    the loop ends. *)
Definition seekForwardN (env : Env) (n : Z) (p : Pager) : outcome Pager :=
  lines <- countLinesAvailable env p ;;
  p1 <- forN (Z.to_nat n) seekForwardLine p ;;
  seekBackWhileFewer (S (S (Z.to_nat (offset (file p1))))) env lines p1.

Definition seekBackwardN (n : Z) (p : Pager) : outcome Pager :=
  forN (Z.to_nat n) seekBackLine p.

Definition seekStart (p : Pager) : outcome Pager := Ok (withOffset p 0).

Definition seekEnd (env : Env) (p : Pager) : outcome Pager :=
  forN (Z.to_nat (countLinesFitting env)) seekBackLine
       (withOffset p (len (content (file p)))).

(** [keyboardHandler] on the down-arrow key or [j], before the render. *)
Definition keyArrowDown (env : Env) (p : Pager) : outcome Pager :=
  seekForwardN env 1 p.

(** [handleLineJump] on digits that read [n] followed by the down-arrow
    key or [j]. *)
Definition jumpDown (env : Env) (n : Z) (p : Pager) : outcome Pager :=
  seekForwardN env n p.

(** [main] up to the call of [keyboardHandler]: [csvFile] and [commaFlag]
    are the values of the two flags, [opened] is what [os.Open] finds
    ([None] when it fails), [keyboardOpens] tells whether
    [keyboard.Open] succeeds.  On a panic the two deferred prints run;
    [log.Fatalln] in the first render exits without them.  The
    goroutine that handles signals is left out. *)
Definition main (w h : Z) (parser : byte -> list byte -> list record)
           (csvFile commaFlag : list byte) (opened : option (list byte))
           (keyboardOpens : bool)
  : list event * ending Pager :=
  match csvFile with
  | [] => ([EvUsage], ExitUsage)
  | _ =>
      match opened with
      | None => ([], Crashed)
      | Some bytes =>
          let p := mkPager 0 [] (mkFile bytes 0) None in
          match renderCSVWindow (mkEnv w h commaFlag parser) p with
          | Ok (p1, lines) =>
              if keyboardOpens
              then ([EvHideCursor; EvFrame lines], Serving p1)
              else ([EvHideCursor; EvFrame lines; EvNewline; EvShowCursor],
                    Crashed)
          | Exited => ([EvHideCursor; EvFatal], ExitFatal)
          | _ => ([EvHideCursor; EvNewline; EvShowCursor], Crashed)
          end
      end
  end.

(** The [switch key] of [keyboardHandler]. *)
Definition keySwitch (env : Env) (key : Key) (p : Pager)
  : outcome (option Pager) :=
  match key with
  | KeyArrowUp => going (seekBackwardN 1 p)
  | KeyArrowDown => going (seekForwardN env 1 p)
  | KeyArrowLeft => going (moveToLeft p)
  | KeyArrowRight => going (moveToRight env p)
  | KeyCtrlN => going (seekForwardN env (countLinesFitting env) p)
  | KeyCtrlP => going (seekBackwardN (countLinesFitting env) p)
  | KeySpace => going (seekForwardN env (Z.quot (countLinesFitting env) 2) p)
  | KeyCtrlC => Ok None
  | KeyOther => Ok (Some p)
  end.

(** The [switch ch] of [keyboardHandler]. *)
Definition charSwitch (env : Env) (ch : rune) (p : Pager)
  : outcome (option Pager) :=
  if ch =? chJ then going (seekForwardN env 1 p)
  else if ch =? chK then going (seekBackwardN 1 p)
  else if ch =? chL then going (moveToRight env p)
  else if ch =? chH then going (moveToLeft p)
  else if ch =? chQ then Ok None
  else if ch =? chG then going (seekEnd env p)
  else if ch =? chg then going (seekStart p)
  else Ok (Some p).

(** One turn of [keyboardHandler] on a key that is no digit, up to the
    render. *)
Definition handleKey (env : Env) (ch : rune) (key : Key) (p : Pager)
  : outcome (option Pager) :=
  r <- keySwitch env key p ;;
  match r with
  | None => Ok None
  | Some p1 => charSwitch env ch p1
  end.

(** [handleLineJump] from the first key that is no digit: [n] is what
    [Atoi] made of the digits. *)
Definition lineJump (env : Env) (n : Z) (ch : rune) (key : Key) (p : Pager)
  : outcome Pager :=
  p1 <- match key with
        | KeyArrowDown => seekForwardN env n p
        | KeyArrowUp => seekBackwardN n p
        | _ => Ok p
        end ;;
  if ch =? chJ then seekForwardN env n p1
  else if ch =? chK then seekBackwardN n p1
  else Ok p1.

(** The loop of [keyboardHandler] over the key presses to come.
    [buffer] is [Some] of the digits read so far while [handleLineJump]
    is reading, [None] otherwise.  The result is the frames printed and
    the way the loop ends; the digits [handleLineJump] echoes on the
    last screen line are left out. *)
Fixpoint keyboardLoop (env : Env) (dg : Digits) (keys : list keyPress)
         (buffer : option gostring) (p : Pager) {struct keys}
  : list (list gostring) * handled Pager :=
  match keys with
  | [] => ([], Waiting p)
  | GetKeyError :: _ => ([], Failed)
  | Pressed ch key :: rest =>
      match buffer with
      | Some digits =>
          if IsDigit dg ch then
            keyboardLoop env dg rest (Some (digits ++ [ch])) p
          else
            match lineJump env (Atoi dg digits) ch key p with
            | Ok p1 =>
                drawn (renderCSVWindow env p1) (keyboardLoop env dg rest None)
            | Panicked => ([], Failed)
            | NoFuel => ([], Spinning)
            | Exited => ([], FatalExit)
            end
      | None =>
          if IsDigit dg ch then keyboardLoop env dg rest (Some [ch]) p
          else
            match handleKey env ch key p with
            | Ok (Some p1) =>
                drawn (renderCSVWindow env p1) (keyboardLoop env dg rest None)
            | Ok None => ([], Quit)
            | Panicked => ([], Failed)
            | NoFuel => ([], Spinning)
            | Exited => ([], FatalExit)
            end
      end
  end.

Definition keyboardHandler (env : Env) (dg : Digits) (keys : list keyPress)
           (p : Pager) : list (list gostring) * handled Pager :=
  keyboardLoop env dg keys None p.

End PerColumn.

(** ** Second listing: one width for all columns *)

Module Uniform.

Record Pager : Type := mkPager {
  currentOffset : Z;
  horizontalShift : Z;
  maxFields : Z;
  maxWidth : Z;
  file : File
}.

(** [p.file.Seek(off, io.SeekStart)] followed by [p.currentOffset = off]. *)
Definition withOffset (p : Pager) (off : Z) : Pager :=
  mkPager off (horizontalShift p) (maxFields p) (maxWidth p)
          (mkFile (content (file p)) off).

Definition withShift (p : Pager) (shift : Z) : Pager :=
  mkPager (currentOffset p) shift (maxFields p) (maxWidth p) (file p).

(** [for _, field := range record { p.maxWidth = max(p.maxWidth, n) }]. *)
Fixpoint widenLoop (mw : Z) (fields : record) : Z :=
  match fields with
  | [] => mw
  | field :: rest => widenLoop (Z.max mw (RuneCountInString field)) rest
  end.

(** The loop of [readLines] over [p.maxFields], [p.maxWidth] and [res]:
    [io.EOF] leaves the loop, another error ends the program through
    [log.Fatalln]. *)
Fixpoint readLoop (remaining : nat) (reader : csvReader) (mf mw : Z)
         (res : list record) : outcome (Z * Z * list record) :=
  match remaining with
  | O => Ok (mf, mw, res)
  | S k =>
      match Read reader with
      | ReadEOF => Ok (mf, mw, res)
      | ReadFails => Exited
      | ReadRecord r next =>
          readLoop k next (Z.max mf (len r)) (widenLoop mw r) (res ++ [r])
      end
  end.

(** [readLines]: [p.currentOffset] takes the file offset, which is
    restored at the end. *)
Definition readLines (env : Env) (p : Pager) : outcome (Pager * list record) :=
  let s := offset (file p) in
  reader <- getNewCSVReader env (file p) ;;
  r <- readLoop (Z.to_nat (countLinesFitting env)) reader
                (maxFields p) (maxWidth p) [] ;;
  let '(mf, mw, res) := r in
  Ok (mkPager s (horizontalShift p) mf mw (mkFile (content (file p)) s), res).

(** [countMaxJoinedLength]. *)
Definition countMaxJoinedLength (p : Pager) : Z :=
  (maxWidth p + 1) * maxFields p + 1.

(** The loop of [getTableLine]; [%] panics on a zero divisor. *)
Fixpoint tableLineLoop (remaining : nat) (mw length i : Z)
         (start middle end_ : rune) : outcome gostring :=
  match remaining with
  | O => Ok []
  | S k =>
      if i =? 0 then
        rest <- tableLineLoop k mw length (i + 1) start middle end_ ;;
        Ok (start :: rest)
      else if i =? length - 1 then
        rest <- tableLineLoop k mw length (i + 1) start middle end_ ;;
        Ok (end_ :: rest)
      else if mw + 1 =? 0 then Panicked
      else if Z.rem i (mw + 1) =? 0 then
        rest <- tableLineLoop k mw length (i + 1) start middle end_ ;;
        Ok (middle :: rest)
      else
        rest <- tableLineLoop k mw length (i + 1) start middle end_ ;;
        Ok (gFill :: rest)
  end.

Definition getTableLine (p : Pager) (nfields : Z) (start middle end_ : rune)
  : outcome gostring :=
  let length := countMaxJoinedLength p in
  tableLineLoop (Z.to_nat length) (maxWidth p) length 0 start middle end_.

Definition getTableHeaderLine (p : Pager) : outcome gostring :=
  getTableLine p (maxFields p) gHeaderStart gHeaderMiddle gHeaderEnd.

Definition getTableFooterLine (p : Pager) : outcome gostring :=
  getTableLine p (maxFields p) gFooterStart gFooterMiddle gFooterEnd.

Definition getDataLine (p : Pager) : outcome gostring :=
  getTableLine p (maxFields p) gDataStart gDataMiddle gDataEnd.

(** The loop of [getDataFields]. *)
Fixpoint dataFieldsLoop (mw : Z) (line : record) : outcome gostring :=
  match line with
  | [] => Ok []
  | field :: rest =>
      padded <- padString field mw ;;
      tail <- dataFieldsLoop mw rest ;;
      Ok (padded ++ gBar :: tail)
  end.

Definition getDataFields (p : Pager) (line : record) : outcome gostring :=
  tail <- dataFieldsLoop (maxWidth p) line ;;
  Ok (gBar :: tail).

(** The record loop of [getPrintableLines]. *)
Fixpoint windowLoop (env : Env) (p : Pager) (dataFooter : gostring)
         (lines : list record) (window : list gostring)
  : outcome (list gostring) :=
  match lines with
  | [] => Ok window
  | r :: rest =>
      if len window >=? height env then Ok window
      else
        dataFields <- getDataFields p r ;;
        windowLoop env p dataFooter rest (window ++ [dataFields; dataFooter])
  end.

Definition getPrintableLines (env : Env) (p : Pager) (lines : list record)
  : outcome (list gostring) :=
  header <- getTableHeaderLine p ;;
  dataFooter <- getDataLine p ;;
  footer <- getTableFooterLine p ;;
  window <- windowLoop env p dataFooter lines [header] ;;
  window <- setLast window footer ;;
  window <- sliceRange window 0 (Z.min (height env) (len window)) ;;
  clipLines (horizontalShift p) (width env) window.

(** [renderCSVWindow], without the escape sequences it prints. *)
Definition renderCSVWindow (env : Env) (p : Pager)
  : outcome (Pager * list gostring) :=
  r <- readLines env p ;;
  let '(p1, lines) := r in
  printableLines <- getPrintableLines env p1 lines ;;
  Ok (p1, printableLines).

Definition moveToLeft (p : Pager) : Pager :=
  withShift p (Z.max (horizontalShift p - maxWidth p - 1) 0).

Definition moveToRight (env : Env) (p : Pager) : Pager :=
  let length := countMaxJoinedLength p in
  if length - horizontalShift p <=? width env then p
  else withShift p (horizontalShift p + maxWidth p + 1).

(** [seekBackLine] starts from the file offset. *)
Definition seekBackLine (p : Pager) : outcome Pager :=
  res <- seekBackOffset (content (file p)) (offset (file p)) ;;
  Ok (withOffset p res).

(** [seekForwardLine] starts from [p.currentOffset]; seeking to a negative
    offset fails. *)
Definition seekForwardLine (p : Pager) : outcome Pager :=
  if currentOffset p <? 0 then Panicked
  else
    res <- seekForwardOffset (content (file p)) (currentOffset p) ;;
    Ok (withOffset p res).

Definition seekForwardN (n : Z) (p : Pager) : outcome Pager :=
  forN (Z.to_nat n) seekForwardLine p.

Definition seekBackwardN (n : Z) (p : Pager) : outcome Pager :=
  forN (Z.to_nat n) seekBackLine p.

Definition seekStart (p : Pager) : outcome Pager := Ok (withOffset p 0).

(** [seekEnd]: [Seek(0, io.SeekEnd)] moves the file offset only. *)
Definition seekEnd (env : Env) (p : Pager) : outcome Pager :=
  forN (Z.to_nat (countLinesFitting env)) seekBackLine
       (mkPager (currentOffset p) (horizontalShift p) (maxFields p)
                (maxWidth p)
                (mkFile (content (file p)) (len (content (file p))))).

(** [keyboardHandler] on the down-arrow key or [j], before the render. *)
Definition keyArrowDown (p : Pager) : outcome Pager := seekForwardLine p.

(** [handleLineJump] on digits that read [n] followed by the down-arrow
    key or [j]. *)
Definition jumpDown (n : Z) (p : Pager) : outcome Pager := seekForwardN n p.

(** [main] up to the call of [keyboardHandler], as in the first listing. *)
Definition main (w h : Z) (parser : byte -> list byte -> list record)
           (csvFile commaFlag : list byte) (opened : option (list byte))
           (keyboardOpens : bool)
  : list event * ending Pager :=
  match csvFile with
  | [] => ([EvUsage], ExitUsage)
  | _ =>
      match opened with
      | None => ([], Crashed)
      | Some bytes =>
          let p := mkPager 0 0 0 0 (mkFile bytes 0) in
          match renderCSVWindow (mkEnv w h commaFlag parser) p with
          | Ok (p1, lines) =>
              if keyboardOpens
              then ([EvHideCursor; EvFrame lines], Serving p1)
              else ([EvHideCursor; EvFrame lines; EvNewline; EvShowCursor],
                    Crashed)
          | Exited => ([EvHideCursor; EvFatal], ExitFatal)
          | _ => ([EvHideCursor; EvNewline; EvShowCursor], Crashed)
          end
      end
  end.

(** The [switch key] of [keyboardHandler]. *)
Definition keySwitch (env : Env) (key : Key) (p : Pager)
  : outcome (option Pager) :=
  match key with
  | KeyArrowUp => going (seekBackLine p)
  | KeyArrowDown => going (seekForwardLine p)
  | KeyArrowLeft => Ok (Some (moveToLeft p))
  | KeyArrowRight => Ok (Some (moveToRight env p))
  | KeyCtrlN => going (seekForwardN (countLinesFitting env) p)
  | KeyCtrlP => going (seekBackwardN (countLinesFitting env) p)
  | KeySpace => going (seekForwardN (Z.quot (countLinesFitting env) 2) p)
  | KeyCtrlC => Ok None
  | KeyOther => Ok (Some p)
  end.

(** The [switch ch] of [keyboardHandler]. *)
Definition charSwitch (env : Env) (ch : rune) (p : Pager)
  : outcome (option Pager) :=
  if ch =? chJ then going (seekForwardLine p)
  else if ch =? chK then going (seekBackLine p)
  else if ch =? chL then Ok (Some (moveToRight env p))
  else if ch =? chH then Ok (Some (moveToLeft p))
  else if ch =? chQ then Ok None
  else if ch =? chG then going (seekEnd env p)
  else if ch =? chg then going (seekStart p)
  else Ok (Some p).

(** One turn of [keyboardHandler] on a key that is no digit, up to the
    render. *)
Definition handleKey (env : Env) (ch : rune) (key : Key) (p : Pager)
  : outcome (option Pager) :=
  r <- keySwitch env key p ;;
  match r with
  | None => Ok None
  | Some p1 => charSwitch env ch p1
  end.

(** [handleLineJump] from the first key that is no digit: [n] is what
    [Atoi] made of the digits. *)
Definition lineJump (n : Z) (ch : rune) (key : Key) (p : Pager)
  : outcome Pager :=
  p1 <- match key with
        | KeyArrowDown => seekForwardN n p
        | KeyArrowUp => seekBackwardN n p
        | _ => Ok p
        end ;;
  if ch =? chJ then seekForwardN n p1
  else if ch =? chK then seekBackwardN n p1
  else Ok p1.

(** The loop of [keyboardHandler] over the key presses to come.
    [buffer] is [Some] of the digits read so far while [handleLineJump]
    is reading, [None] otherwise.  The result is the frames printed and
    the way the loop ends; the digits [handleLineJump] echoes on the
    last screen line are left out. *)
Fixpoint keyboardLoop (env : Env) (dg : Digits) (keys : list keyPress)
         (buffer : option gostring) (p : Pager) {struct keys}
  : list (list gostring) * handled Pager :=
  match keys with
  | [] => ([], Waiting p)
  | GetKeyError :: _ => ([], Failed)
  | Pressed ch key :: rest =>
      match buffer with
      | Some digits =>
          if IsDigit dg ch then
            keyboardLoop env dg rest (Some (digits ++ [ch])) p
          else
            match lineJump (Atoi dg digits) ch key p with
            | Ok p1 =>
                drawn (renderCSVWindow env p1) (keyboardLoop env dg rest None)
            | Panicked => ([], Failed)
            | NoFuel => ([], Spinning)
            | Exited => ([], FatalExit)
            end
      | None =>
          if IsDigit dg ch then keyboardLoop env dg rest (Some [ch]) p
          else
            match handleKey env ch key p with
            | Ok (Some p1) =>
                drawn (renderCSVWindow env p1) (keyboardLoop env dg rest None)
            | Ok None => ([], Quit)
            | Panicked => ([], Failed)
            | NoFuel => ([], Spinning)
            | Exited => ([], FatalExit)
            end
      end
  end.

Definition keyboardHandler (env : Env) (dg : Digits) (keys : list keyPress)
           (p : Pager) : list (list gostring) * handled Pager :=
  keyboardLoop env dg keys None p.

End Uniform.

(** ** A plain reader for examples *)

(** The pieces of [line] between occurrences of [sep]. *)
Fixpoint fieldsOf (sep : byte) (line : list byte) : list (list byte) :=
  match line with
  | [] => [[]]
  | b :: rest =>
      if Byte.eqb b sep then [] :: fieldsOf sep rest
      else match fieldsOf sep rest with
           | f :: fs => (b :: f) :: fs
           | [] => [[b]]
           end
  end.

Definition runesOf (bs : list byte) : gostring :=
  map (fun b => Z.of_N (Byte.to_N b)) bs.

Definition nonEmpty (line : list byte) : bool :=
  match line with [] => false | _ => true end.

(** What [encoding/csv] (with [LazyQuotes] and [FieldsPerRecord = -1])
    returns on ASCII input that has no quote and no carriage return: one
    record per non-empty line, its fields split at the delimiter. *)
Definition plainRecords (delim : byte) (bytes : list byte) : list record :=
  map (fun line => map runesOf (fieldsOf delim line))
      (filter nonEmpty (fieldsOf NL bytes)).

(** Decimal digits for examples: [unicode.IsDigit] and [strconv.Atoi]
    on ASCII digits, below the range of [int]. *)
Definition asciiDigit (ch : rune) : bool := (48 <=? ch) && (ch <=? 57).

Definition decimal (s : gostring) : Z :=
  fold_left (fun n d => 10 * n + (d - 48)) s 0.

Definition asciiDigits : Digits := mkDigits asciiDigit decimal.

(** ** Notions used in the statements *)

(** A byte of a line's text. *)
Definition isText (b : byte) : Prop := b <> NL.

(** [s] is the first byte of a non-empty line that follows a newline. *)
Definition textAfterNewline (bytes : list byte) (s : Z) : Prop :=
  ReadAt bytes (s - 1) = Got NL /\
  exists b, ReadAt bytes s = Got b /\ b <> NL.

(** [s] is offset 0 or the start of a non-empty line. *)
Definition lineStart (bytes : list byte) (s : Z) : Prop :=
  s = 0 \/ textAfterNewline bytes s.

(** Where the cursor can rest: a line start or the end of the file. *)
Definition restPosition (bytes : list byte) (s : Z) : Prop :=
  lineStart bytes s \/ s = len bytes.

(** [s] is the start of an empty logical line: a newline that sits at
    offset 0 or right after another newline. *)
Definition emptyLineStart (bytes : list byte) (s : Z) : Prop :=
  (s = 0 \/ ReadAt bytes (s - 1) = Got NL) /\ ReadAt bytes s = Got NL.

(** The file has two adjacent newlines. *)
Definition hasEmptyLine (bytes : list byte) : Prop :=
  exists pre post, bytes = pre ++ NL :: NL :: post.


(** The backward seek as the specification words it: the largest offset
    below [n] that holds a newline ... *)
Fixpoint lastNewlineBelow (bytes : list byte) (n : nat) : option Z :=
  match n with
  | O => None
  | S k =>
      match ReadAt bytes (Z.of_nat k) with
      | Got b => if isNL b then Some (Z.of_nat k)
                 else lastNewlineBelow bytes k
      | _ => lastNewlineBelow bytes k
      end
  end.

(** ... looked for behind the one newline that precedes the cursor; the
    previous line starts just after it, or at 0 when there is none. *)
Definition specSeekPreviousLineStart (bytes : list byte) (pos : Z) : Z :=
  match lastNewlineBelow bytes (Z.to_nat (pos - 1)) with
  | Some q => q + 1
  | None => 0
  end.

(** The forward seek as the specification words it: the first newline at
    or after [q] that is followed by at least one more byte; the result is
    the offset just past it, or the end offset when there is none. *)
Fixpoint specScanForward (fuel : nat) (bytes : list byte) (q : Z) : Z :=
  match fuel with
  | O => len bytes
  | S k =>
      match ReadAt bytes q with
      | Got b =>
          if isNL b && (q + 1 <? len bytes) then q + 1
          else specScanForward k bytes (q + 1)
      | _ => len bytes
      end
  end.

Definition specSeekNextLineStart (bytes : list byte) (pos : Z) : Z :=
  specScanForward (S (length bytes)) bytes pos.

(** [n] moves in sequence, as the specification words it: the first
    [n - 1] moves, then one more from where they ended. *)
Fixpoint sequentially {S : Type} (n : nat) (step : S -> outcome S) (s : S)
  : outcome S :=
  match n with
  | O => Ok s
  | Datatypes.S k => s' <- sequentially k step s ;; step s'
  end.

(** Column metrics of one window alone. *)
Definition windowWidths (records : list record) : list Z :=
  fold_left PerColumn.measure records [].

Definition windowMaxFields (records : list record) : Z :=
  fold_left (fun m r => Z.max m (len r)) records 0.

Definition windowMaxWidth (records : list record) : Z :=
  fold_left Uniform.widenLoop records 0.

(** Pointwise maximum of two lists of widths, the longer one giving the
    length. *)
Fixpoint joinWidths (old new : list Z) : list Z :=
  match old, new with
  | [], _ => new
  | _, [] => old
  | a :: old', b :: new' => Z.max a b :: joinWidths old' new'
  end.

(** What is left of the unclipped table to the right of the shift. *)
Definition remainingPerColumn (p : PerColumn.Pager) : Z :=
  PerColumn.countMaxJoinedLength p - PerColumn.horizontalShift p.

Definition remainingUniform (p : Uniform.Pager) : Z :=
  Uniform.countMaxJoinedLength p - Uniform.horizontalShift p.

(** A record fits a list of column widths: it has no more fields than
    there are columns and no field has more code points than its column
    is wide. *)
Fixpoint fitsWidths (mw : list Z) (r : record) {struct r} : Prop :=
  match r with
  | [] => True
  | f :: r' =>
      match mw with
      | [] => False
      | w :: mw' => RuneCountInString f <= w /\ fitsWidths mw' r'
      end
  end.

(** A record fits the single width of the second listing. *)
Definition fitsWidth (mw : Z) (r : record) : Prop :=
  Forall (fun f => RuneCountInString f <= mw) r.

(** What follows the left corner in a border line over the given
    columns: for each column as many fill glyphs as it is wide, then a
    junction, the last junction being the right corner. *)
Fixpoint borderBody (mw : list Z) (middle end_ : rune) : gostring :=
  match mw with
  | [] => []
  | w :: rest =>
      repeat gFill (Z.to_nat w)
      ++ match rest with
         | [] => [end_]
         | _ :: _ => middle :: borderBody rest middle end_
         end
  end.

(** A frame that fits the terminal. *)
Definition inTerminal (env : Env) (frame : list gostring) : Prop :=
  len frame <= height env /\ Forall (fun l => len l <= width env) frame.

(** The [-comma] flag begins with a delimiter the reader accepts, or
    with one it rejects. *)
Definition acceptedComma (env : Env) : Prop :=
  exists c rest, comma env = c :: rest /\ validDelim c = true.

Definition rejectedComma (env : Env) : Prop :=
  exists c rest, comma env = c :: rest /\ validDelim c = false.

(** Wherever the cursor can rest in [bytes], the parser's records have
    [k] fields, each shorter than the terminal is wide. *)
Definition regularTable (env : Env) (bytes : list byte) (k : Z) : Prop :=
  forall (c : byte) (off : Z) (r : record),
    hd_error (comma env) = Some c ->
    restPosition bytes off ->
    In r (csvRecords env c (skipn (Z.to_nat off) bytes)) ->
    len r = k /\ Forall (fun f => RuneCountInString f < width env) r.

(** The second listing's pager on a table of [k] columns: the file
    offset is a rest position of the file [bytes], the metrics are those
    of no record or of records read so far, and the shift is inside the
    border lines. *)
Definition placed (env : Env) (bytes : list byte) (k : Z)
           (p : Uniform.Pager) : Prop :=
  content (Uniform.file p) = bytes /\
  restPosition bytes (offset (Uniform.file p)) /\
  0 <= Uniform.maxWidth p < width env /\
  (Uniform.maxFields p = 0 \/ Uniform.maxFields p = k) /\
  0 <= Uniform.horizontalShift p <= Uniform.countMaxJoinedLength p.

(** The state between two keys: [placed], and [currentOffset] is the
    file offset. *)
Definition steady (env : Env) (bytes : list byte) (k : Z)
           (p : Uniform.Pager) : Prop :=
  placed env bytes k p /\
  Uniform.currentOffset p = offset (Uniform.file p).

(** The first listing's pager with its cursor inside the file [bytes]
    and a shift and widths that are not negative. *)
Definition inFile (bytes : list byte) (p : PerColumn.Pager) : Prop :=
  content (PerColumn.file p) = bytes /\
  0 <= offset (PerColumn.file p) <= len bytes /\
  0 <= PerColumn.horizontalShift p /\
  Forall (fun w => 0 <= w) (PerColumn.maxWidth p).

(** * Properties *)

(** ** Reading bytes *)

Lemma isNL_true (b : byte) : isNL b = true <-> b = NL.
Proof.
  unfold isNL; split.
  - apply Byte.byte_dec_bl.
  - apply Byte.byte_dec_lb.
Qed.

Lemma isNL_false (b : byte) : isNL b = false <-> b <> NL.
Proof.
  rewrite <- isNL_true. destruct (isNL b); split; congruence.
Qed.

Lemma len_app {A : Type} (l1 l2 : list A) : len (l1 ++ l2) = len l1 + len l2.
Proof. unfold len. rewrite length_app. lia. Qed.

Lemma len_cons {A : Type} (a : A) (l : list A) : len (a :: l) = len l + 1.
Proof. unfold len. simpl length. lia. Qed.

Lemma len_nonneg {A : Type} (l : list A) : 0 <= len l.
Proof. unfold len. lia. Qed.

Lemma len_nil {A : Type} : len (@nil A) = 0.
Proof. reflexivity. Qed.

Lemma ReadAt_middle (pre post : list byte) (b : byte) :
  ReadAt (pre ++ b :: post) (len pre) = Got b.
Proof.
  unfold ReadAt, len.
  destruct (Z.ltb_spec (Z.of_nat (length pre)) 0); [lia|].
  rewrite Nat2Z.id, nth_error_app2 by lia.
  now rewrite Nat.sub_diag.
Qed.

Lemma ReadAt_past (bytes : list byte) (off : Z) :
  len bytes <= off -> ReadAt bytes off = EOF.
Proof.
  unfold ReadAt, len; intros H.
  destruct (Z.ltb_spec off 0); [lia|].
  assert (Hn : nth_error bytes (Z.to_nat off) = None)
    by (apply nth_error_None; lia).
  now rewrite Hn.
Qed.

Lemma ReadAt_Got_split (bytes : list byte) (off : Z) (b : byte) :
  ReadAt bytes off = Got b ->
  exists pre post, bytes = pre ++ b :: post /\ len pre = off.
Proof.
  unfold ReadAt, len.
  destruct (Z.ltb_spec off 0); [discriminate|].
  destruct (nth_error bytes (Z.to_nat off)) as [b'|] eqn:E; [|discriminate].
  intros [= ->].
  destruct (nth_error_split _ _ E) as (pre & post & -> & Hl).
  exists pre, post; split; [reflexivity | lia].
Qed.

Lemma ReadAt_inside (bytes : list byte) (off : Z) :
  0 <= off < len bytes -> exists b, ReadAt bytes off = Got b.
Proof.
  unfold ReadAt, len; intros H.
  destruct (Z.ltb_spec off 0); [lia|].
  destruct (nth_error bytes (Z.to_nat off)) as [b|] eqn:E.
  - now exists b.
  - apply nth_error_None in E. lia.
Qed.

(** ** The loops, one turn at a time *)

Lemma seekBackFrom_eq (bytes : list byte) (res : Z) (nl txt : bool) :
  seekBackFrom bytes res nl txt =
  if res <=? 0 then Ok 0
  else match ReadAt bytes res with
       | Got b =>
           if isNL b && negb nl then seekBackFrom bytes (res - 1) true txt
           else if negb (isNL b) && nl then seekBackFrom bytes (res - 1) nl true
           else if isNL b && txt then Ok (res + 1)
           else seekBackFrom bytes (res - 1) nl txt
       | _ => Panicked
       end.
Proof.
  unfold seekBackFrom.
  destruct (Z.leb_spec res 0) as [H|H].
  - simpl. destruct (Z.leb_spec res 0); [reflexivity | lia].
  - replace (Z.to_nat res) with (S (Z.to_nat (res - 1))) by lia.
    cbn [seekBackLoop].
    destruct (Z.leb_spec res 0); [lia | reflexivity].
Qed.

Lemma seekForwardFrom_eq (bytes : list byte) (res : Z) (nl : bool) :
  seekForwardFrom bytes res nl =
  match ReadAt bytes res with
  | EOF => Ok (len bytes)
  | ReadError => Panicked
  | Got b =>
      if isNL b && negb nl then seekForwardFrom bytes (res + 1) true
      else if negb (isNL b) && nl then Ok res
      else seekForwardFrom bytes (res + 1) nl
  end.
Proof.
  unfold seekForwardFrom.
  destruct (ReadAt bytes res) as [b| |] eqn:E.
  - assert (Hfuel : Z.to_nat (len bytes - res)
                    = S (Z.to_nat (len bytes - (res + 1)))).
    { apply ReadAt_Got_split in E as (pre & post & -> & Hl).
      rewrite len_app, len_cons. pose proof (len_nonneg post). lia. }
    rewrite Hfuel.
    cbn [seekForwardLoop]. rewrite E. reflexivity.
  - cbn [seekForwardLoop]. now rewrite E.
  - cbn [seekForwardLoop]. now rewrite E.
Qed.

(** ** Runs of bytes *)

(** Going back over a run of newlines. *)
Lemma seekBack_newlines (pre run post : list byte) (nl : bool) :
  Forall (eq NL) run ->
  run <> [] \/ nl = true ->
  seekBackFrom (pre ++ run ++ post) (len pre + len run - 1) nl false =
  seekBackFrom (pre ++ run ++ post) (len pre - 1) true false.
Proof.
  revert post nl.
  induction run as [|b run IH] using rev_ind; intros post nl Hall Hne.
  - destruct Hne as [Hne | ->]; [congruence|].
    rewrite len_nil. f_equal. lia.
  - apply Forall_app in Hall as [Hrun Hb].
    inversion Hb as [|? ? <- _]; subst.
    rewrite len_app, len_cons, len_nil.
    rewrite seekBackFrom_eq.
    destruct (Z.leb_spec (len pre + (len run + (0 + 1)) - 1) 0) as [H0|H0].
    + pose proof (len_nonneg pre). pose proof (len_nonneg run).
      rewrite (seekBackFrom_eq _ (len pre - 1)).
      destruct (Z.leb_spec (len pre - 1) 0); [reflexivity | lia].
    + replace (len pre + (len run + (0 + 1)) - 1) with (len (pre ++ run))
        by (rewrite len_app; lia).
      replace (pre ++ (run ++ [NL]) ++ post) with ((pre ++ run) ++ NL :: post)
        by (now rewrite <- !app_assoc).
      rewrite ReadAt_middle.
      assert (HNL : isNL NL = true) by reflexivity.
      rewrite HNL. cbn [andb negb].
      replace ((pre ++ run) ++ NL :: post) with (pre ++ run ++ (NL :: post))
        by (now rewrite <- !app_assoc).
      replace (len (pre ++ run) - 1) with (len pre + len run - 1)
        by (rewrite len_app; lia).
      destruct nl; cbn [negb]; apply IH; auto.
Qed.

(** Going back over text once a newline has been seen. *)
Lemma seekBack_text (pre run post : list byte) (txt : bool) :
  Forall isText run ->
  seekBackFrom (pre ++ run ++ post) (len pre + len run - 1) true txt =
  seekBackFrom (pre ++ run ++ post) (len pre - 1) true
               (txt || negb (Nat.eqb (length run) 0)).
Proof.
  revert post txt.
  induction run as [|b run IH] using rev_ind; intros post txt Hall.
  - rewrite len_nil.
    replace (txt || negb (Nat.eqb (length (@nil byte)) 0)) with txt
      by (cbn; now rewrite orb_false_r).
    f_equal. lia.
  - apply Forall_app in Hall as [Hrun Hb].
    inversion Hb as [|? ? Hbt _]; subst.
    rewrite len_app, len_cons, len_nil.
    rewrite seekBackFrom_eq.
    assert (Hlen : negb (Nat.eqb (length (run ++ [b])) 0) = true)
      by (rewrite length_app; simpl; destruct (length run); reflexivity).
    rewrite Hlen, orb_true_r.
    destruct (Z.leb_spec (len pre + (len run + (0 + 1)) - 1) 0) as [H0|H0].
    + pose proof (len_nonneg pre). pose proof (len_nonneg run).
      rewrite (seekBackFrom_eq _ (len pre - 1)).
      destruct (Z.leb_spec (len pre - 1) 0); [reflexivity | lia].
    + replace (len pre + (len run + (0 + 1)) - 1) with (len (pre ++ run))
        by (rewrite len_app; lia).
      replace (pre ++ (run ++ [b]) ++ post) with ((pre ++ run) ++ b :: post)
        by (now rewrite <- !app_assoc).
      rewrite ReadAt_middle.
      apply isNL_false in Hbt. rewrite Hbt. cbn [andb negb].
      replace ((pre ++ run) ++ b :: post) with (pre ++ run ++ (b :: post))
        by (now rewrite <- !app_assoc).
      replace (len (pre ++ run) - 1) with (len pre + len run - 1)
        by (rewrite len_app; lia).
      rewrite IH by assumption.
      now rewrite orb_true_l.
Qed.

(** Going back over text before any newline has been seen. *)
Lemma seekBack_tail (pre run post : list byte) :
  Forall isText run ->
  seekBackFrom (pre ++ run ++ post) (len pre + len run - 1) false false =
  seekBackFrom (pre ++ run ++ post) (len pre - 1) false false.
Proof.
  revert post.
  induction run as [|b run IH] using rev_ind; intros post Hall.
  - rewrite len_nil. f_equal. lia.
  - apply Forall_app in Hall as [Hrun Hb].
    inversion Hb as [|? ? Hbt _]; subst.
    rewrite len_app, len_cons, len_nil.
    rewrite seekBackFrom_eq.
    destruct (Z.leb_spec (len pre + (len run + (0 + 1)) - 1) 0) as [H0|H0].
    + pose proof (len_nonneg pre). pose proof (len_nonneg run).
      rewrite (seekBackFrom_eq _ (len pre - 1)).
      destruct (Z.leb_spec (len pre - 1) 0); [reflexivity | lia].
    + replace (len pre + (len run + (0 + 1)) - 1) with (len (pre ++ run))
        by (rewrite len_app; lia).
      replace (pre ++ (run ++ [b]) ++ post) with ((pre ++ run) ++ b :: post)
        by (now rewrite <- !app_assoc).
      rewrite ReadAt_middle.
      apply isNL_false in Hbt. rewrite Hbt. cbn [andb negb].
      replace ((pre ++ run) ++ b :: post) with (pre ++ run ++ (b :: post))
        by (now rewrite <- !app_assoc).
      replace (len (pre ++ run) - 1) with (len pre + len run - 1)
        by (rewrite len_app; lia).
      now apply IH.
Qed.

(** The newline that ends the backward scan. *)
Lemma seekBack_stop (pre post : list byte) :
  pre <> [] ->
  seekBackFrom (pre ++ NL :: post) (len pre) true true = Ok (len pre + 1).
Proof.
  intros Hpre. rewrite seekBackFrom_eq.
  destruct (Z.leb_spec (len pre) 0) as [H|H].
  - destruct pre; [congruence|]. rewrite len_cons in H.
    pose proof (len_nonneg pre). lia.
  - rewrite ReadAt_middle. reflexivity.
Qed.

Lemma seekBack_start (bytes : list byte) (res : Z) (nl txt : bool) :
  res <= 0 -> seekBackFrom bytes res nl txt = Ok 0.
Proof.
  intros H. rewrite seekBackFrom_eq.
  destruct (Z.leb_spec res 0); [reflexivity | lia].
Qed.

(** Going forward over text before any newline. *)
Lemma seekForward_text (pre run post : list byte) :
  Forall isText run ->
  seekForwardFrom (pre ++ run ++ post) (len pre) false =
  seekForwardFrom (pre ++ run ++ post) (len pre + len run) false.
Proof.
  revert pre.
  induction run as [|b run IH]; intros pre Hall.
  - rewrite len_nil. f_equal. lia.
  - inversion Hall as [|? ? Hb Hrun]; subst.
    rewrite seekForwardFrom_eq.
    cbn [app]. rewrite ReadAt_middle.
    apply isNL_false in Hb. rewrite Hb. cbn [andb negb].
    replace (pre ++ b :: run ++ post) with ((pre ++ [b]) ++ run ++ post)
      by (now rewrite <- app_assoc).
    replace (len pre + 1) with (len (pre ++ [b]))
      by (now rewrite len_app, len_cons, len_nil).
    rewrite IH by assumption.
    f_equal. rewrite len_app, !len_cons, len_nil. lia.
Qed.

(** Going forward over a run of newlines. *)
Lemma seekForward_newlines (pre run post : list byte) (nl : bool) :
  Forall (eq NL) run ->
  run <> [] \/ nl = true ->
  seekForwardFrom (pre ++ run ++ post) (len pre) nl =
  seekForwardFrom (pre ++ run ++ post) (len pre + len run) true.
Proof.
  revert pre nl.
  induction run as [|b run IH]; intros pre nl Hall Hne.
  - destruct Hne as [Hne| ->]; [congruence|].
    rewrite len_nil. f_equal. lia.
  - inversion Hall as [|? ? Hb Hrun]; subst.
    rewrite seekForwardFrom_eq.
    cbn [app]. rewrite ReadAt_middle.
    assert (HNL : isNL NL = true) by reflexivity.
    rewrite HNL. cbn [andb negb].
    replace (pre ++ NL :: run ++ post) with ((pre ++ [NL]) ++ run ++ post)
      by (now rewrite <- app_assoc).
    replace (len pre + 1) with (len (pre ++ [NL]))
      by (now rewrite len_app, len_cons, len_nil).
    assert (Hgoal : seekForwardFrom ((pre ++ [NL]) ++ run ++ post)
                      (len (pre ++ [NL])) true
                    = seekForwardFrom ((pre ++ [NL]) ++ run ++ post)
                      (len pre + len (NL :: run)) true).
    { rewrite IH by auto. f_equal.
      rewrite len_app, !len_cons, len_nil. lia. }
    destruct nl; cbn [negb]; exact Hgoal.
Qed.

(** The text byte that ends the forward scan. *)
Lemma seekForward_stop (pre post : list byte) (b : byte) :
  b <> NL ->
  seekForwardFrom (pre ++ b :: post) (len pre) true = Ok (len pre).
Proof.
  intros Hb. rewrite seekForwardFrom_eq, ReadAt_middle.
  apply isNL_false in Hb. now rewrite Hb.
Qed.

Lemma seekForward_end (bytes : list byte) (res : Z) (nl : bool) :
  len bytes <= res -> seekForwardFrom bytes res nl = Ok (len bytes).
Proof.
  intros H. rewrite seekForwardFrom_eq. now rewrite ReadAt_past.
Qed.

(** The forward seek on a file cut at the cursor. *)
Lemma seekForward_found (pre text nls post : list byte) (b : byte) :
  Forall isText text -> Forall (eq NL) nls -> nls <> [] -> b <> NL ->
  seekForwardOffset (pre ++ text ++ nls ++ b :: post) (len pre)
  = Ok (len pre + len text + len nls).
Proof.
  intros Ht Hn Hne Hb. unfold seekForwardOffset.
  rewrite seekForward_text by assumption.
  replace (pre ++ text ++ nls ++ b :: post)
    with ((pre ++ text) ++ nls ++ b :: post) by (now rewrite <- app_assoc).
  replace (len pre + len text) with (len (pre ++ text))
    by (now rewrite len_app).
  rewrite seekForward_newlines by auto.
  replace ((pre ++ text) ++ nls ++ b :: post)
    with (((pre ++ text) ++ nls) ++ b :: post) by (now rewrite <- !app_assoc).
  replace (len (pre ++ text) + len nls) with (len ((pre ++ text) ++ nls))
    by (now rewrite len_app).
  now apply seekForward_stop.
Qed.

Lemma seekForward_missing (pre text nls : list byte) :
  Forall isText text -> Forall (eq NL) nls ->
  seekForwardOffset (pre ++ text ++ nls) (len pre)
  = Ok (len (pre ++ text ++ nls)).
Proof.
  intros Ht Hn. unfold seekForwardOffset.
  rewrite seekForward_text by assumption.
  destruct nls as [|n nls].
  - apply seekForward_end. rewrite !len_app, len_nil. lia.
  - replace (pre ++ text ++ n :: nls)
      with ((pre ++ text) ++ (n :: nls) ++ [])
      by (now rewrite app_nil_r, <- app_assoc).
    replace (len pre + len text) with (len (pre ++ text))
      by (now rewrite len_app).
    rewrite seekForward_newlines by (auto; left; congruence).
    apply seekForward_end. rewrite !len_app, len_nil. lia.
Qed.

(** The backward seek on a file cut before the cursor. *)
Lemma seekBack_found (pre text nls post : list byte) :
  pre <> [] -> Forall isText text -> text <> [] ->
  Forall (eq NL) nls -> nls <> [] ->
  seekBackOffset (pre ++ NL :: text ++ nls ++ post)
                 (len pre + 1 + len text + len nls)
  = Ok (len pre + 1).
Proof.
  intros Hpre Ht Htne Hn Hnne. unfold seekBackOffset.
  replace (pre ++ NL :: text ++ nls ++ post)
    with ((pre ++ NL :: text) ++ nls ++ post)
    by (now rewrite <- app_assoc).
  replace (len pre + 1 + len text + len nls - 1)
    with (len (pre ++ NL :: text) + len nls - 1)
    by (rewrite len_app, len_cons; lia).
  rewrite seekBack_newlines by auto.
  replace ((pre ++ NL :: text) ++ nls ++ post)
    with ((pre ++ [NL]) ++ text ++ nls ++ post)
    by (now rewrite <- !app_assoc).
  replace (len (pre ++ NL :: text) - 1)
    with (len (pre ++ [NL]) + len text - 1)
    by (rewrite !len_app, !len_cons, len_nil; lia).
  rewrite seekBack_text by assumption.
  replace (negb (Nat.eqb (length text) 0)) with true
    by (destruct text; [congruence | reflexivity]).
  cbn [orb].
  replace ((pre ++ [NL]) ++ text ++ nls ++ post)
    with (pre ++ NL :: text ++ nls ++ post)
    by (now rewrite <- app_assoc).
  replace (len (pre ++ [NL]) - 1) with (len pre)
    by (rewrite len_app, len_cons, len_nil; lia).
  now apply seekBack_stop.
Qed.

Lemma seekBack_clamped (hd text nls post : list byte) :
  (length hd <= 1)%nat -> Forall isText text -> Forall (eq NL) nls ->
  seekBackOffset (hd ++ text ++ nls ++ post) (len hd + len text + len nls)
  = Ok 0.
Proof.
  intros Hhd Ht Hn. unfold seekBackOffset.
  destruct nls as [|n nls].
  - rewrite len_nil.
    replace (len hd + len text + 0 - 1) with (len hd + len text - 1) by lia.
    cbn [app].
    rewrite seekBack_tail by assumption.
    apply seekBack_start. unfold len. lia.
  - replace (hd ++ text ++ (n :: nls) ++ post)
      with ((hd ++ text) ++ (n :: nls) ++ post)
      by (now rewrite <- app_assoc).
    replace (len hd + len text + len (n :: nls) - 1)
      with (len (hd ++ text) + len (n :: nls) - 1)
      by (rewrite len_app; lia).
    rewrite seekBack_newlines by (auto; left; congruence).
    replace ((hd ++ text) ++ (n :: nls) ++ post)
      with (hd ++ text ++ (n :: nls) ++ post)
      by (now rewrite <- app_assoc).
    replace (len (hd ++ text) - 1) with (len hd + len text - 1)
      by (rewrite len_app; lia).
    rewrite seekBack_text by assumption.
    apply seekBack_start. unfold len. lia.
Qed.

(** ** Where the seeks land *)

(** Text first, then newlines, then whatever follows. *)
Lemma text_then_rest (l : list byte) :
  exists text l1, l = text ++ l1 /\ Forall isText text /\
                  (l1 = [] \/ exists t, l1 = NL :: t).
Proof.
  induction l as [|b l (text & l1 & -> & Ht & Hl1)].
  - exists [], []. auto.
  - destruct (isNL b) eqn:E.
    + apply isNL_true in E as ->.
      exists [], (NL :: text ++ l1). repeat split; eauto.
    + apply isNL_false in E.
      exists (b :: text), l1. repeat split; auto.
Qed.

Lemma newlines_then_rest (l : list byte) :
  exists nls l2, l = nls ++ l2 /\ Forall (eq NL) nls /\
                 (l2 = [] \/ exists b t, l2 = b :: t /\ b <> NL).
Proof.
  induction l as [|b l (nls & l2 & -> & Hn & Hl2)].
  - exists [], []. auto.
  - destruct (isNL b) eqn:E.
    + apply isNL_true in E as ->.
      exists (NL :: nls), l2. repeat split; auto.
    + apply isNL_false in E.
      exists [], (b :: nls ++ l2). repeat split; eauto.
Qed.

Lemma text_newlines_rest (l : list byte) :
  exists text nls rest,
    l = text ++ nls ++ rest /\ Forall isText text /\ Forall (eq NL) nls /\
    (rest = [] \/ (nls <> [] /\ exists b post, rest = b :: post /\ b <> NL)).
Proof.
  destruct (text_then_rest l) as (text & l1 & -> & Ht & Hl1).
  destruct Hl1 as [-> | (t & ->)].
  - exists text, [], []. auto.
  - destruct (newlines_then_rest (NL :: t)) as (nls & l2 & E & Hn & Hl2).
    exists text, nls, l2. rewrite E. repeat split; auto.
    destruct Hl2 as [-> | (b & post & -> & Hb)]; [now left | right].
    split; [| eauto].
    intros ->. cbn [app] in E. congruence.
Qed.

Lemma split_at (bytes : list byte) (pos : Z) :
  0 <= pos <= len bytes ->
  exists pre suf, bytes = pre ++ suf /\ len pre = pos.
Proof.
  intros H. exists (firstn (Z.to_nat pos) bytes), (skipn (Z.to_nat pos) bytes).
  split; [now rewrite firstn_skipn|].
  unfold len in *. rewrite length_firstn. lia.
Qed.

(** The forward seek ends at the end of the file or on the first byte of
    a non-empty line. *)
Lemma seekForward_lands (bytes : list byte) (pos : Z) :
  0 <= pos <= len bytes ->
  exists r, seekForwardOffset bytes pos = Ok r /\
            (r = len bytes \/
             (pos < r < len bytes /\ textAfterNewline bytes r)).
Proof.
  intros Hpos.
  destruct (split_at bytes pos Hpos) as (pre & suf & -> & Hlen).
  destruct (text_newlines_rest suf)
    as (text & nls & rest & -> & Ht & Hn & Hrest).
  subst pos.
  destruct Hrest as [-> | (Hne & b & post & -> & Hb)].
  - rewrite app_nil_r. rewrite seekForward_missing by assumption. eauto.
  - rewrite seekForward_found by assumption.
    eexists; split; [reflexivity | right].
    assert (Hnl : 0 < len nls)
      by (destruct nls; [congruence | rewrite len_cons;
                                    pose proof (len_nonneg nls); lia]).
    pose proof (len_nonneg text). pose proof (len_nonneg post).
    split; [rewrite !len_app, len_cons; lia|].
    split.
    + destruct (exists_last Hne) as (nls' & x & ->).
      apply Forall_app in Hn as [_ Hx]. inversion Hx as [|? ? <- _]; subst.
      replace (pre ++ text ++ (nls' ++ [NL]) ++ b :: post)
        with ((pre ++ text ++ nls') ++ NL :: b :: post)
        by (now rewrite <- !app_assoc).
      replace (len pre + len text + len (nls' ++ [NL]) - 1)
        with (len (pre ++ text ++ nls'))
        by (rewrite !len_app, len_cons, len_nil; lia).
      apply ReadAt_middle.
    + exists b; split; [|assumption].
      replace (pre ++ text ++ nls ++ b :: post)
        with ((pre ++ text ++ nls) ++ b :: post)
        by (now rewrite <- !app_assoc).
      replace (len pre + len text + len nls) with (len (pre ++ text ++ nls))
        by (rewrite !len_app; lia).
      apply ReadAt_middle.
Qed.

(** The backward loop ends at offset 0 or on the first byte of a
    non-empty line; it never fails inside the file. *)
Lemma seekBackFrom_lands (bytes : list byte) (n : nat) :
  forall (res : Z) (nl txt : bool),
    Z.to_nat res = n ->
    res < len bytes ->
    (txt = true -> nl = true /\
                   exists b, ReadAt bytes (res + 1) = Got b /\ b <> NL) ->
    exists r, seekBackFrom bytes res nl txt = Ok r /\
              (r = 0 \/ (1 < r <= res + (if txt then 1 else 0) /\
                         textAfterNewline bytes r)).
Proof.
  induction n as [|n IH]; intros res nl txt Hn Hres Hinv.
  - exists 0. split; [|now left].
    destruct (Z.leb_spec res 0) as [H0|H0].
    + now apply seekBack_start.
    + lia.
  - assert (Hpos : 0 < res) by lia.
    rewrite seekBackFrom_eq.
    destruct (Z.leb_spec res 0) as [H0|_]; [lia|].
    destruct (ReadAt_inside bytes res) as (b & Hb); [lia|].
    rewrite Hb.
    assert (Hstep : forall nl' txt',
               (txt' = true -> nl' = true /\ b <> NL) ->
               exists r, seekBackFrom bytes (res - 1) nl' txt' = Ok r /\
                         (r = 0 \/ (1 < r <= res /\
                                    textAfterNewline bytes r))).
    { intros nl' txt' Hinv'.
      destruct (IH (res - 1) nl' txt') as (r & Hr & Hcase); [lia | lia | |].
      - intros Ht. destruct (Hinv' Ht) as [Hnl' Hbt].
        split; [assumption|]. exists b.
        now replace (res - 1 + 1) with res by lia.
      - exists r. split; [assumption|].
        destruct Hcase as [-> | [Hr1 Hr2]]; [now left | right].
        split; [destruct txt'; lia | assumption]. }
    assert (Hweak : forall nl' txt',
               (txt' = true -> nl' = true /\ b <> NL) ->
               exists r, seekBackFrom bytes (res - 1) nl' txt' = Ok r /\
                         (r = 0 \/ (1 < r <= res + (if txt then 1 else 0) /\
                                    textAfterNewline bytes r))).
    { intros nl' txt' Hinv'.
      destruct (Hstep nl' txt' Hinv') as (r & Hr & Hcase).
      exists r. split; [assumption|].
      destruct Hcase as [-> | [Hr1 Hr2]]; [now left | right].
      split; [destruct txt; lia | assumption]. }
    destruct (isNL b) eqn:E; destruct nl; destruct txt; cbn [andb negb].
    + (* the newline that ends the scan *)
      destruct (Hinv eq_refl) as (_ & b' & Hb' & Hbt).
      exists (res + 1). split; [reflexivity | right].
      split; [lia|]. split.
      * replace (res + 1 - 1) with res by lia.
        apply isNL_true in E. now subst b.
      * now exists b'.
    + apply Hweak. discriminate.
    + destruct (Hinv eq_refl) as [Hnl _]. discriminate.
    + apply Hweak. discriminate.
    + apply Hweak. intros _. split; [reflexivity | now apply isNL_false].
    + apply Hweak. intros _. split; [reflexivity | now apply isNL_false].
    + destruct (Hinv eq_refl) as [Hnl _]. discriminate.
    + apply Hweak. discriminate.
Qed.

Lemma seekBack_lands (bytes : list byte) (pos : Z) :
  pos <= len bytes ->
  exists r, seekBackOffset bytes pos = Ok r /\
            (r = 0 \/ (1 < r < pos /\ textAfterNewline bytes r)).
Proof.
  intros Hpos. unfold seekBackOffset.
  destruct (seekBackFrom_lands bytes (Z.to_nat (pos - 1)) (pos - 1) false false)
    as (r & Hr & Hcase); [reflexivity | lia | discriminate |].
  exists r. split; [assumption|].
  destruct Hcase as [-> | [Hr1 Hr2]]; [now left | right].
  split; [lia | assumption].
Qed.

(** ** Sequences of seeks *)

Lemma forN_cons {S : Type} (n : nat) (f : S -> outcome S) (x : S) :
  forN (Datatypes.S n) f x = (y <- f x ;; forN n f y).
Proof. reflexivity. Qed.

Lemma forN_snoc {S : Type} (n : nat) (f : S -> outcome S) (x : S) :
  forN (Datatypes.S n) f x = (y <- forN n f x ;; f y).
Proof.
  revert x. induction n as [|n IH]; intros x.
  - cbn. destruct (f x); reflexivity.
  - change (forN (Datatypes.S (Datatypes.S n)) f x)
      with (x' <- f x ;; forN (Datatypes.S n) f x').
    change (forN (Datatypes.S n) f x) with (x' <- f x ;; forN n f x').
    destruct (f x) as [x'| | |]; cbn [bind]; [apply IH | reflexivity..].
Qed.

Lemma forN_sequentially {S : Type} (n : nat) (f : S -> outcome S) (x : S) :
  forN n f x = sequentially n f x.
Proof.
  induction n as [|n IH].
  - reflexivity.
  - rewrite forN_snoc, IH. reflexivity.
Qed.

Lemma lineStart_range (bytes : list byte) (s : Z) :
  lineStart bytes s -> 0 <= s <= len bytes.
Proof.
  intros [-> | (Hnl & b & Hb & _)].
  - pose proof (len_nonneg bytes). lia.
  - apply ReadAt_Got_split in Hb as (pre & post & -> & <-).
    rewrite len_app, len_cons.
    pose proof (len_nonneg pre). pose proof (len_nonneg post). lia.
Qed.

Lemma seekBack_at_start (bytes : list byte) : seekBackOffset bytes 0 = Ok 0.
Proof. now apply seekBack_start. Qed.

Lemma seekForward_at_end (bytes : list byte) :
  seekForwardOffset bytes (len bytes) = Ok (len bytes).
Proof. apply seekForward_end. lia. Qed.

Lemma forN_back_at_start (bytes : list byte) (n : nat) :
  forN n (seekBackOffset bytes) 0 = Ok 0.
Proof.
  induction n as [|n IH]; [reflexivity|].
  cbn [forN]. now rewrite seekBack_at_start.
Qed.

Lemma forN_forward_at_end (bytes : list byte) (n : nat) :
  forN n (seekForwardOffset bytes) (len bytes) = Ok (len bytes).
Proof.
  induction n as [|n IH]; [reflexivity|].
  cbn [forN]. now rewrite seekForward_at_end.
Qed.

Lemma forN_back_total (bytes : list byte) (n : nat) :
  forall pos, 0 <= pos <= len bytes ->
    exists r, forN n (seekBackOffset bytes) pos = Ok r /\ 0 <= r <= pos.
Proof.
  induction n as [|n IH]; intros pos Hpos.
  - exists pos. split; [reflexivity | lia].
  - destruct (seekBack_lands bytes pos) as (r1 & Hr1 & Hcase); [lia|].
    cbn [forN]. rewrite Hr1. cbn [bind].
    destruct (IH r1) as (r & Hr & Hle).
    { destruct Hcase as [-> | [? _]]; lia. }
    exists r. split; [assumption|].
    destruct Hcase as [-> | [? _]]; lia.
Qed.

Lemma forN_forward_total (bytes : list byte) (n : nat) :
  forall pos, 0 <= pos <= len bytes ->
    exists r, forN n (seekForwardOffset bytes) pos = Ok r /\
              pos <= r <= len bytes.
Proof.
  induction n as [|n IH]; intros pos Hpos.
  - exists pos. split; [reflexivity | lia].
  - destruct (seekForward_lands bytes pos Hpos) as (r1 & Hr1 & Hcase).
    cbn [forN]. rewrite Hr1. cbn [bind].
    destruct (IH r1) as (r & Hr & Hle).
    { destruct Hcase as [-> | [? _]]; lia. }
    exists r. split; [assumption|].
    destruct Hcase as [-> | [? _]]; lia.
Qed.



Lemma restPosition_range (bytes : list byte) (s : Z) :
  restPosition bytes s -> 0 <= s <= len bytes.
Proof.
  intros [Hs | ->].
  - now apply lineStart_range.
  - pose proof (len_nonneg bytes). lia.
Qed.


(** ** From offsets to pagers *)

Lemma pc_withOffset_same (p : PerColumn.Pager) :
  PerColumn.withOffset p (offset (PerColumn.file p)) = p.
Proof. destruct p as [sh mw [c o] prev]. reflexivity. Qed.

Lemma un_withOffset_same (p : Uniform.Pager) :
  Uniform.currentOffset p = offset (Uniform.file p) ->
  Uniform.withOffset p (offset (Uniform.file p)) = p.
Proof.
  destruct p as [co sh mf mw [c o]]. cbn. intros ->. reflexivity.
Qed.

Lemma pc_forward_lift (k : nat) :
  forall p : PerColumn.Pager,
    0 <= offset (PerColumn.file p) <= len (content (PerColumn.file p)) ->
    forN k PerColumn.seekForwardLine p =
    (r <- forN k (seekForwardOffset (content (PerColumn.file p)))
               (offset (PerColumn.file p)) ;;
     Ok (PerColumn.withOffset p r)).
Proof.
  induction k as [|k IH]; intros p Hp.
  - cbn. now rewrite pc_withOffset_same.
  - rewrite !forN_cons. unfold PerColumn.seekForwardLine at 1.
    destruct (seekForward_lands _ _ Hp) as (r1 & Hr1 & Hcase).
    rewrite Hr1. cbn [bind].
    rewrite IH by (cbn; destruct Hcase as [-> | [? _]]; lia).
    cbn.
    destruct (forN k _ r1); reflexivity.
Qed.

Lemma pc_back_lift (k : nat) :
  forall p : PerColumn.Pager,
    0 <= offset (PerColumn.file p) <= len (content (PerColumn.file p)) ->
    forN k PerColumn.seekBackLine p =
    (r <- forN k (seekBackOffset (content (PerColumn.file p)))
               (offset (PerColumn.file p)) ;;
     Ok (PerColumn.withOffset p r)).
Proof.
  induction k as [|k IH]; intros p Hp.
  - cbn. now rewrite pc_withOffset_same.
  - rewrite !forN_cons. unfold PerColumn.seekBackLine at 1.
    destruct (seekBack_lands (content (PerColumn.file p))
                             (offset (PerColumn.file p)))
      as (r1 & Hr1 & Hcase); [lia|].
    rewrite Hr1. cbn [bind].
    rewrite IH by (cbn; destruct Hcase as [-> | [? _]]; lia).
    cbn.
    destruct (forN k _ r1); reflexivity.
Qed.

Lemma un_forward_lift (k : nat) :
  forall p : Uniform.Pager,
    Uniform.currentOffset p = offset (Uniform.file p) ->
    0 <= offset (Uniform.file p) <= len (content (Uniform.file p)) ->
    forN k Uniform.seekForwardLine p =
    (r <- forN k (seekForwardOffset (content (Uniform.file p)))
               (offset (Uniform.file p)) ;;
     Ok (Uniform.withOffset p r)).
Proof.
  induction k as [|k IH]; intros p Hcur Hp.
  - cbn. now rewrite un_withOffset_same.
  - rewrite !forN_cons. unfold Uniform.seekForwardLine at 1.
    rewrite Hcur.
    destruct (Z.ltb_spec (offset (Uniform.file p)) 0); [lia|].
    destruct (seekForward_lands _ _ Hp) as (r1 & Hr1 & Hcase).
    rewrite Hr1. cbn [bind].
    rewrite IH; [| reflexivity | cbn; destruct Hcase as [-> | [? _]]; lia].
    cbn.
    destruct (forN k _ r1); reflexivity.
Qed.

Lemma un_back_lift (k : nat) :
  forall p : Uniform.Pager,
    Uniform.currentOffset p = offset (Uniform.file p) ->
    0 <= offset (Uniform.file p) <= len (content (Uniform.file p)) ->
    forN k Uniform.seekBackLine p =
    (r <- forN k (seekBackOffset (content (Uniform.file p)))
               (offset (Uniform.file p)) ;;
     Ok (Uniform.withOffset p r)).
Proof.
  induction k as [|k IH]; intros p Hcur Hp.
  - cbn. now rewrite un_withOffset_same.
  - rewrite !forN_cons. unfold Uniform.seekBackLine at 1.
    destruct (seekBack_lands (content (Uniform.file p))
                             (offset (Uniform.file p)))
      as (r1 & Hr1 & Hcase); [lia|].
    rewrite Hr1. cbn [bind].
    rewrite IH; [| reflexivity | cbn; destruct Hcase as [-> | [? _]]; lia].
    cbn.
    destruct (forN k _ r1); reflexivity.
Qed.

(** The last loop of [seekForwardN] only ever seeks back. *)
Lemma seekBackWhileFewer_backs (env : Env) (lines : Z) (fuel : nat) :
  forall p q : PerColumn.Pager,
    PerColumn.seekBackWhileFewer fuel env lines p = Ok q ->
    exists k, forN k PerColumn.seekBackLine p = Ok q.
Proof.
  induction fuel as [|fuel IH]; intros p q H; [discriminate|].
  cbn [PerColumn.seekBackWhileFewer] in H.
  destruct (PerColumn.countLinesAvailable env p) as [a| | |]; try discriminate.
  cbn [bind] in H.
  destruct (a <? lines).
  - destruct (PerColumn.seekBackLine p) as [p'| | |] eqn:E; try discriminate.
    cbn [bind] in H. destruct (IH p' q H) as (k & Hk).
    exists (S k). rewrite forN_cons, E. exact Hk.
  - injection H as <-. now exists O.
Qed.

Lemma countAvailableLoop_ends (fitting : Z) (remaining : nat) :
  forall i reader, countAvailableLoop remaining i reader fitting <> NoFuel.
Proof.
  induction remaining as [|k IH]; intros i reader;
    cbn [countAvailableLoop]; [discriminate|].
  destruct reader as [[|r rs]|]; cbn [Read]; try discriminate. apply IH.
Qed.

Lemma countLinesAvailable_ends (env : Env) (p : PerColumn.Pager) :
  PerColumn.countLinesAvailable env p <> NoFuel.
Proof.
  unfold PerColumn.countLinesAvailable, getNewCSVReader.
  destruct (comma env) as [|c rest]; [discriminate|].
  destruct (validDelim c); cbn [bind]; apply countAvailableLoop_ends.
Qed.

(** The last loop of [seekForwardN] runs out of fuel only when the Go
    loop does not end: the cursor is at offset 0 and the window there
    still holds fewer records than asked for. *)
Lemma seekBackWhileFewer_spins (env : Env) (lines a : Z)
      (p : PerColumn.Pager) :
  offset (PerColumn.file p) = 0 ->
  PerColumn.countLinesAvailable env p = Ok a -> a < lines ->
  forall fuel, PerColumn.seekBackWhileFewer fuel env lines p = NoFuel.
Proof.
  intros H0 Ha Hlt fuel.
  induction fuel as [|fuel IH]; [reflexivity|].
  cbn [PerColumn.seekBackWhileFewer]. rewrite Ha. cbn [bind].
  destruct (Z.ltb_spec a lines); [|lia].
  unfold PerColumn.seekBackLine. rewrite H0, seekBack_at_start.
  cbn [bind]. rewrite <- H0, pc_withOffset_same. exact IH.
Qed.

Lemma seekBackWhileFewer_fuel (env : Env) (lines : Z) (fuel : nat) :
  forall p : PerColumn.Pager,
    0 <= offset (PerColumn.file p) <= len (content (PerColumn.file p)) ->
    (Z.to_nat (offset (PerColumn.file p)) + 2 <= fuel)%nat ->
    PerColumn.seekBackWhileFewer fuel env lines p = NoFuel ->
    forall fuel', PerColumn.seekBackWhileFewer fuel' env lines p = NoFuel.
Proof.
  induction fuel as [|fuel IH]; intros p Hp Hfuel H fuel'; [lia|].
  cbn [PerColumn.seekBackWhileFewer] in H.
  destruct (PerColumn.countLinesAvailable env p) as [a| | |] eqn:Ha;
    try discriminate.
  - cbn [bind] in H.
    destruct (Z.ltb_spec a lines) as [Hlt|Hge]; [|discriminate].
    destruct (Z.eq_dec (offset (PerColumn.file p)) 0) as [H0|H0].
    + now apply (seekBackWhileFewer_spins env lines a).
    + unfold PerColumn.seekBackLine in H.
      destruct (seekBack_lands (content (PerColumn.file p))
                               (offset (PerColumn.file p)))
        as (r & Hr & Hcase); [lia|].
      rewrite Hr in H. cbn [bind] in H.
      destruct fuel' as [|fuel']; [reflexivity|].
      cbn [PerColumn.seekBackWhileFewer]. rewrite Ha. cbn [bind].
      destruct (Z.ltb_spec a lines); [|lia].
      unfold PerColumn.seekBackLine. rewrite Hr. cbn [bind].
      apply IH; [| | exact H].
      * cbn. destruct Hcase as [-> | [? _]]; lia.
      * cbn. destruct Hcase as [-> | [? _]]; lia.
  - now apply countLinesAvailable_ends in Ha.
Qed.

Lemma countAvailableLoop_records (fitting : Z) (remaining : nat) :
  forall (i : Z) (rs : list record),
    exists a, countAvailableLoop remaining i (Records rs) fitting = Ok a.
Proof.
  induction remaining as [|k IH]; intros i rs; cbn [countAvailableLoop].
  - eauto.
  - destruct rs as [|r rs]; cbn [Read]; [eauto | apply IH].
Qed.

(** Whether the count returns does not depend on the position: it
    depends on the delimiter and on the height. *)
Lemma countLinesAvailable_total (env : Env) (p q : PerColumn.Pager)
      (lines : Z) :
  PerColumn.countLinesAvailable env p = Ok lines ->
  exists a, PerColumn.countLinesAvailable env q = Ok a.
Proof.
  unfold PerColumn.countLinesAvailable, getNewCSVReader.
  destruct (comma env) as [|c rest]; [discriminate|].
  destruct (validDelim c); cbn [bind].
  - intros _. apply countAvailableLoop_records.
  - destruct (Z.to_nat (countLinesFitting env)); [eauto | discriminate].
Qed.

Lemma seekBackWhileFewer_decides (env : Env) (lines : Z) (fuel : nat) :
  forall (p : PerColumn.Pager) (a0 : Z),
    0 <= offset (PerColumn.file p) <= len (content (PerColumn.file p)) ->
    (Z.to_nat (offset (PerColumn.file p)) + 2 <= fuel)%nat ->
    PerColumn.countLinesAvailable env (PerColumn.withOffset p 0) = Ok a0 ->
    (exists r a,
        PerColumn.seekBackWhileFewer fuel env lines p
        = Ok (PerColumn.withOffset p r) /\
        0 <= r <= offset (PerColumn.file p) /\
        PerColumn.countLinesAvailable env (PerColumn.withOffset p r) = Ok a /\
        lines <= a) \/
    (PerColumn.seekBackWhileFewer fuel env lines p = NoFuel /\ a0 < lines).
Proof.
  induction fuel as [|fuel IH]; intros p a0 Hp Hfuel Ha0; [lia|].
  cbn [PerColumn.seekBackWhileFewer].
  destruct (countLinesAvailable_total env _ p a0 Ha0) as (a & Ha).
  rewrite Ha. cbn [bind].
  destruct (Z.ltb_spec a lines) as [Hlt|Hge].
  - destruct (Z.eq_dec (offset (PerColumn.file p)) 0) as [H0|H0].
    + right.
      assert (Hp0 : PerColumn.withOffset p 0 = p)
        by (rewrite <- H0; apply pc_withOffset_same).
      rewrite Hp0 in Ha0. assert (a0 = a) by congruence. subst a0.
      split; [|assumption].
      pose proof (seekBackWhileFewer_spins env lines a p H0 Ha Hlt (S fuel))
        as Hspin.
      cbn [PerColumn.seekBackWhileFewer] in Hspin.
      rewrite Ha in Hspin. cbn [bind] in Hspin.
      destruct (Z.ltb_spec a lines); [exact Hspin | lia].
    + unfold PerColumn.seekBackLine.
      destruct (seekBack_lands (content (PerColumn.file p))
                               (offset (PerColumn.file p)))
        as (r1 & Hr1 & Hcase); [lia|].
      rewrite Hr1. cbn [bind].
      assert (Hr1range : 0 <= r1 < offset (PerColumn.file p))
        by (destruct Hcase as [-> | [? _]]; lia).
      destruct (IH (PerColumn.withOffset p r1) a0)
        as [(r & a' & Hr & Hrange & Ha' & Hle) | [Hnf Hlt0]].
      * cbn. lia.
      * cbn. lia.
      * exact Ha0.
      * left. exists r, a'. cbn in Hrange.
        repeat split; auto; try lia.
      * right. auto.
  - left. exists (offset (PerColumn.file p)), a.
    rewrite pc_withOffset_same. repeat split; auto; lia.
Qed.

(** When the guard returns, it has stepped back exactly as long as the
    window held fewer records than asked for. *)
Lemma seekBackWhileFewer_first (env : Env) (lines : Z) (fuel : nat) :
  forall p q : PerColumn.Pager,
    PerColumn.seekBackWhileFewer fuel env lines p = Ok q ->
    exists k,
      forN k PerColumn.seekBackLine p = Ok q /\
      (forall j, (j < k)%nat ->
                 exists pj aj,
                   forN j PerColumn.seekBackLine p = Ok pj /\
                   PerColumn.countLinesAvailable env pj = Ok aj /\
                   aj < lines) /\
      exists a, PerColumn.countLinesAvailable env q = Ok a /\ lines <= a.
Proof.
  induction fuel as [|fuel IH]; intros p q H; [discriminate|].
  cbn [PerColumn.seekBackWhileFewer] in H.
  destruct (PerColumn.countLinesAvailable env p) as [a| | |] eqn:Ha;
    try discriminate.
  cbn [bind] in H.
  destruct (Z.ltb_spec a lines) as [Hlt|Hge].
  - destruct (PerColumn.seekBackLine p) as [p'| | |] eqn:E; try discriminate.
    cbn [bind] in H.
    destruct (IH p' q H) as (k & Hk & Hbefore & Hafter).
    exists (S k). split; [|split; [|exact Hafter]].
    + rewrite forN_cons, E. exact Hk.
    + intros [|j] Hj.
      * exists p, a. now repeat split.
      * destruct (Hbefore j) as (pj & aj & Hpj & Haj & Hltj); [lia|].
        exists pj, aj. split; [|now split].
        rewrite forN_cons, E. exact Hpj.
  - injection H as <-. exists O. split; [reflexivity|]. split.
    + intros j Hj. lia.
    + now exists a.
Qed.

(** When the guard does not return, the window holds fewer records than
    asked for after every number of backward seeks. *)
Lemma seekBackWhileFewer_never (env : Env) (lines : Z) (j : nat) :
  forall p : PerColumn.Pager,
    0 <= offset (PerColumn.file p) <= len (content (PerColumn.file p)) ->
    (forall fuel, PerColumn.seekBackWhileFewer fuel env lines p = NoFuel) ->
    exists pj aj,
      forN j PerColumn.seekBackLine p = Ok pj /\
      PerColumn.countLinesAvailable env pj = Ok aj /\
      aj < lines.
Proof.
  induction j as [|j IH]; intros p Hp Hspin.
  - pose proof (Hspin 1%nat) as H1.
    cbn [PerColumn.seekBackWhileFewer] in H1.
    destruct (PerColumn.countLinesAvailable env p) as [a| | |] eqn:Ha;
      try discriminate.
    + cbn [bind] in H1.
      destruct (Z.ltb_spec a lines) as [Hlt|Hge]; [|discriminate].
      exists p, a. now repeat split.
    + now apply countLinesAvailable_ends in Ha.
  - destruct (seekBack_lands (content (PerColumn.file p))
                             (offset (PerColumn.file p)))
      as (r1 & Hr1 & Hcase); [lia|].
    assert (Hback : PerColumn.seekBackLine p = Ok (PerColumn.withOffset p r1)).
    { unfold PerColumn.seekBackLine. now rewrite Hr1. }
    destruct (IH (PerColumn.withOffset p r1)) as (pj & aj & Hpj & Haj & Hlt).
    + cbn. destruct Hcase as [-> | [? _]]; lia.
    + intros fuel. pose proof (Hspin (S fuel)) as H1.
      cbn [PerColumn.seekBackWhileFewer] in H1.
      destruct (PerColumn.countLinesAvailable env p) as [a| | |] eqn:Ha;
        try discriminate.
      * cbn [bind] in H1.
        destruct (Z.ltb_spec a lines) as [Hlt|Hge]; [|discriminate].
        rewrite Hback in H1. exact H1.
      * now apply countLinesAvailable_ends in Ha.
    + exists pj, aj. split; [|now split].
      rewrite forN_cons, Hback. exact Hpj.
Qed.

(** When the window is as full after the move as it was before, the last
    loop of [seekForwardN] does nothing. *)
Lemma pc_seekForwardN_unguarded (env : Env) (n : Z) (p p1 : PerColumn.Pager)
      (lines a1 : Z) :
  PerColumn.countLinesAvailable env p = Ok lines ->
  forN (Z.to_nat n) PerColumn.seekForwardLine p = Ok p1 ->
  PerColumn.countLinesAvailable env p1 = Ok a1 ->
  lines <= a1 ->
  PerColumn.seekForwardN env n p = Ok p1.
Proof.
  intros Hl Hf Ha Hle. unfold PerColumn.seekForwardN.
  rewrite Hl. cbn [bind]. rewrite Hf. cbn [bind].
  cbn [PerColumn.seekBackWhileFewer]. rewrite Ha. cbn [bind].
  destruct (Z.ltb_spec a1 lines); [lia | reflexivity].
Qed.

(** ** The backward line seek *)

(** C4, as the code has it.  From a cursor that follows a run of one or
    more newlines, [seekBackLine] steps over the whole run, then over the
    text before it, and returns the offset just after the newline found
    before that text (first part); when no newline lies between offset 1
    and that text, it returns 0 without looking at the byte at offset 0
    (second part).  From offset 0 it returns 0 (third part). *)
Theorem seekBackLine_skips_newline_run
        (pre text nls post : list byte) :
  Forall isText text -> Forall (eq NL) nls -> nls <> [] ->
  (pre <> [] -> text <> [] ->
   seekBackOffset (pre ++ NL :: text ++ nls ++ post)
                  (len pre + 1 + len text + len nls)
   = Ok (len pre + 1)) /\
  ((length pre <= 1)%nat ->
   seekBackOffset (pre ++ text ++ nls ++ post)
                  (len pre + len text + len nls)
   = Ok 0) /\
  seekBackOffset post 0 = Ok 0.
Proof.
  intros Ht Hn Hne. split; [|split].
  - intros Hpre Htne. now apply seekBack_found.
  - intros Hpre. now apply seekBack_clamped.
  - apply seekBack_at_start.
Qed.

(** In "a\nbc\n\nd": from the start of "d" (offset 6) back to "bc"
    (offset 2); in "\nbc\n\nd": from offset 5 back to offset 0. *)
Lemma seekBackLine_skips_newline_run_witness :
  (Forall isText [x62; x63] /\ Forall (eq NL) [NL; NL] /\ [NL; NL] <> []) /\
  seekBackOffset [x61; NL; x62; x63; NL; NL; x64] 6 = Ok 2 /\
  seekBackOffset [NL; x62; x63; NL; NL; x64] 5 = Ok 0 /\
  seekBackOffset [x64] 0 = Ok 0.
Proof.
  assert (Ht : Forall isText [x62; x63])
    by (repeat constructor; discriminate).
  assert (Hn : Forall (eq NL) [NL; NL]) by (repeat constructor).
  assert (Hne : [NL; NL] <> @nil byte) by discriminate.
  split; [auto|]. split; [|split].
  - apply (proj1 (seekBackLine_skips_newline_run [x61] [x62; x63] [NL; NL]
                    [x64] Ht Hn Hne)); discriminate.
  - apply (proj1 (proj2 (seekBackLine_skips_newline_run [NL] [x62; x63]
                           [NL; NL] [x64] Ht Hn Hne))).
    cbn. lia.
  - apply (proj2 (proj2 (seekBackLine_skips_newline_run [NL] [x62; x63]
                           [NL; NL] [x64] Ht Hn Hne))).
Defined.

(** C4 as stated fails on "a\n\nb\n" with the cursor on "b" (offset 3, a
    line start): behind the newline at offset 2 the next newline is at
    offset 1, so the previous line would start at offset 2; the code
    returns 0. *)
Lemma seekBackLine_not_single_newline :
  lineStart [x61; NL; NL; x62; NL] 3 /\
  specSeekPreviousLineStart [x61; NL; NL; x62; NL] 3 = 2 /\
  seekBackOffset [x61; NL; NL; x62; NL] 3 = Ok 0 /\
  seekBackOffset [x61; NL; NL; x62; NL] 3
  <> Ok (specSeekPreviousLineStart [x61; NL; NL; x62; NL] 3) /\
  (forall p, PerColumn.file p = mkFile [x61; NL; NL; x62; NL] 3 ->
             exists q, PerColumn.seekBackLine p = Ok q /\
                       offset (PerColumn.file q) = 0).
Proof.
  split; [|split; [|split; [|split]]].
  - right. split; [reflexivity|]. exists x62. split; [reflexivity|discriminate].
  - reflexivity.
  - reflexivity.
  - discriminate.
  - intros p Hp. unfold PerColumn.seekBackLine. rewrite Hp.
    eexists. split; reflexivity.
Qed.

(** ** The forward line seek *)

(** C5, as the code has it.  [seekForwardLine] passes the text left on
    the current line and the whole run of newlines after it, and returns
    the offset of the first byte that is not a newline (first part); when
    the file ends before such a byte, it returns the end offset (second
    part). *)
Theorem seekForwardLine_skips_newline_run
        (pre text nls post : list byte) (b : byte) :
  Forall isText text -> Forall (eq NL) nls ->
  (nls <> [] -> b <> NL ->
   seekForwardOffset (pre ++ text ++ nls ++ b :: post) (len pre)
   = Ok (len pre + len text + len nls)) /\
  seekForwardOffset (pre ++ text ++ nls) (len pre)
  = Ok (len (pre ++ text ++ nls)).
Proof.
  intros Ht Hn. split.
  - intros Hne Hb. now apply seekForward_found.
  - now apply seekForward_missing.
Qed.

(** In "a\nbc\n\nd": from offset 2 to "d" at offset 6; in "a\nbc\n\n":
    from offset 2 to the end, offset 6. *)
Lemma seekForwardLine_skips_newline_run_witness :
  (Forall isText [x62; x63] /\ Forall (eq NL) [NL; NL]) /\
  seekForwardOffset [x61; NL; x62; x63; NL; NL; x64] 2 = Ok 6 /\
  seekForwardOffset [x61; NL; x62; x63; NL; NL] 2 = Ok 6.
Proof.
  assert (Ht : Forall isText [x62; x63])
    by (repeat constructor; discriminate).
  assert (Hn : Forall (eq NL) [NL; NL]) by (repeat constructor).
  split; [auto|]. split.
  - apply (proj1 (seekForwardLine_skips_newline_run [x61; NL] [x62; x63]
                    [NL; NL] [] x64 Ht Hn)); discriminate.
  - apply (proj2 (seekForwardLine_skips_newline_run [x61; NL] [x62; x63]
                    [NL; NL] [] x64 Ht Hn)).
Defined.

(** C5 as stated fails on "a\n\nb\n" from offset 0: the first newline
    that is followed by another byte is at offset 1, so the result would
    be 2; the code returns 3. *)
Lemma seekForwardLine_not_single_newline :
  specSeekNextLineStart [x61; NL; NL; x62; NL] 0 = 2 /\
  seekForwardOffset [x61; NL; NL; x62; NL] 0 = Ok 3 /\
  seekForwardOffset [x61; NL; NL; x62; NL] 0
  <> Ok (specSeekNextLineStart [x61; NL; NL; x62; NL] 0) /\
  (forall p, PerColumn.file p = mkFile [x61; NL; NL; x62; NL] 0 ->
             exists q, PerColumn.seekForwardLine p = Ok q /\
                       offset (PerColumn.file q) = 3).
Proof.
  split; [|split; [|split]].
  - reflexivity.
  - reflexivity.
  - discriminate.
  - intros p Hp. unfold PerColumn.seekForwardLine. rewrite Hp.
    eexists. split; reflexivity.
Qed.

(** ** Where the cursor rests *)

(** C10, as the code has it.  From any cursor inside the file, the
    forward seek ends at the end of the file or on the first byte of a
    non-empty line, never on an empty line; the backward seek ends at
    offset 0 or on the first byte of a non-empty line, so it rests on an
    empty line only when that line is at offset 0. *)
Theorem seeks_rest_on_text_or_boundary (bytes : list byte) (pos : Z) :
  0 <= pos <= len bytes ->
  (exists r, seekForwardOffset bytes pos = Ok r /\
             (r = len bytes \/ textAfterNewline bytes r) /\
             ~ emptyLineStart bytes r) /\
  (exists r, seekBackOffset bytes pos = Ok r /\
             (r = 0 \/ textAfterNewline bytes r) /\
             (r <> 0 -> ~ emptyLineStart bytes r)).
Proof.
  intros Hpos. split.
  - destruct (seekForward_lands bytes pos Hpos) as (r & Hr & Hcase).
    exists r. split; [assumption|].
    destruct Hcase as [-> | [_ Hstart]].
    + split; [now left|]. intros [_ H].
      rewrite ReadAt_past in H by lia. discriminate.
    + split; [now right|]. intros [_ H].
      destruct Hstart as (_ & b & Hb & Hbt). congruence.
  - destruct (seekBack_lands bytes pos) as (r & Hr & Hcase); [lia|].
    exists r. split; [assumption|].
    destruct Hcase as [-> | [_ Hstart]].
    + split; [now left | congruence].
    + split; [now right|]. intros _ [_ H].
      destruct Hstart as (_ & b & Hb & Hbt). congruence.
Qed.

Lemma seeks_rest_on_text_or_boundary_witness :
  0 <= 2 <= len [x61; NL; NL; x62; NL] /\
  (exists r, seekForwardOffset [x61; NL; NL; x62; NL] 2 = Ok r /\
             (r = len [x61; NL; NL; x62; NL] \/
              textAfterNewline [x61; NL; NL; x62; NL] r) /\
             ~ emptyLineStart [x61; NL; NL; x62; NL] r) /\
  (exists r, seekBackOffset [x61; NL; NL; x62; NL] 2 = Ok r /\
             (r = 0 \/ textAfterNewline [x61; NL; NL; x62; NL] r) /\
             (r <> 0 -> ~ emptyLineStart [x61; NL; NL; x62; NL] r)).
Proof.
  assert (H : 0 <= 2 <= len [x61; NL; NL; x62; NL]) by (cbn; lia).
  split; [exact H|].
  exact (seeks_rest_on_text_or_boundary [x61; NL; NL; x62; NL] 2 H).
Defined.

(** C10 as stated fails on "\n\na\nb", a file with adjacent newlines:
    the forward seek from 0 goes to "a" (offset 2) and the backward seek
    from there rests at offset 0, the start of an empty line. *)
Lemma cursor_rests_on_leading_empty_line :
  hasEmptyLine [NL; NL; x61; NL; x62] /\
  seekForwardOffset [NL; NL; x61; NL; x62] 0 = Ok 2 /\
  seekBackOffset [NL; NL; x61; NL; x62] 2 = Ok 0 /\
  emptyLineStart [NL; NL; x61; NL; x62] 0.
Proof.
  split; [|split; [|split]].
  - exists [], [x61; NL; x62]. reflexivity.
  - reflexivity.
  - reflexivity.
  - split; [now left | reflexivity].
Qed.

(** ** Forward then backward *)




(** ** Jumps *)

(** C7, as the code has it.  In the second listing [seekForwardN n] and
    [seekBackwardN n] are [n] single seeks in sequence, each from where
    the one before ended (part 1), and a jump of 4 is four of the moves
    the down-arrow key makes (part 2).  In the first listing this holds
    for [seekBackwardN] (part 3).  There [seekForwardN], when it returns,
    has made the [n] forward seeks and then [k] backward seeks, where [k]
    is the first number of backward seeks after which the window holds at
    least as many records as the window before the move: after every
    smaller number of backward seeks it holds fewer (part 4).  So it is
    the [n] forward seeks alone when the window they reach holds at least
    as many records as the window before the move (part 5).  From a
    cursor inside the file whose window can be counted, the [n] forward
    seeks succeed, and [seekForwardN] either returns or runs for ever,
    the latter when the window holds fewer records than before the move
    after every number of backward seeks (part 6). *)
Theorem jump_is_sequence_of_seeks :
  (forall (n : Z) (p : Uniform.Pager),
      Uniform.seekForwardN n p
      = sequentially (Z.to_nat n) Uniform.seekForwardLine p /\
      Uniform.seekBackwardN n p
      = sequentially (Z.to_nat n) Uniform.seekBackLine p) /\
  (forall p : Uniform.Pager,
      Uniform.jumpDown 4 p
      = (p1 <- Uniform.keyArrowDown p ;;
         p2 <- Uniform.keyArrowDown p1 ;;
         p3 <- Uniform.keyArrowDown p2 ;;
         Uniform.keyArrowDown p3)) /\
  (forall (n : Z) (p : PerColumn.Pager),
      PerColumn.seekBackwardN n p
      = sequentially (Z.to_nat n) PerColumn.seekBackLine p) /\
  (forall (env : Env) (n : Z) (p q : PerColumn.Pager),
      PerColumn.seekForwardN env n p = Ok q ->
      exists lines p1 k,
        PerColumn.countLinesAvailable env p = Ok lines /\
        sequentially (Z.to_nat n) PerColumn.seekForwardLine p = Ok p1 /\
        sequentially k PerColumn.seekBackLine p1 = Ok q /\
        (forall j, (j < k)%nat ->
                   exists pj aj,
                     sequentially j PerColumn.seekBackLine p1 = Ok pj /\
                     PerColumn.countLinesAvailable env pj = Ok aj /\
                     aj < lines) /\
        exists a, PerColumn.countLinesAvailable env q = Ok a /\
                  lines <= a) /\
  (forall (env : Env) (n : Z) (p p1 : PerColumn.Pager) (lines a1 : Z),
      PerColumn.countLinesAvailable env p = Ok lines ->
      sequentially (Z.to_nat n) PerColumn.seekForwardLine p = Ok p1 ->
      PerColumn.countLinesAvailable env p1 = Ok a1 ->
      lines <= a1 ->
      PerColumn.seekForwardN env n p = Ok p1) /\
  (forall (env : Env) (n : Z) (p : PerColumn.Pager) (lines : Z),
      0 <= offset (PerColumn.file p) <= len (content (PerColumn.file p)) ->
      PerColumn.countLinesAvailable env p = Ok lines ->
      exists p1,
        sequentially (Z.to_nat n) PerColumn.seekForwardLine p = Ok p1 /\
        ((exists q, PerColumn.seekForwardN env n p = Ok q) \/
         (PerColumn.seekForwardN env n p = NoFuel /\
          forall j,
            exists pj aj,
              sequentially j PerColumn.seekBackLine p1 = Ok pj /\
              PerColumn.countLinesAvailable env pj = Ok aj /\
              aj < lines))).
Proof.
  split; [|split; [|split; [|split; [|split]]]].
  - intros n p. unfold Uniform.seekForwardN, Uniform.seekBackwardN.
    now rewrite !forN_sequentially.
  - intros p. unfold Uniform.jumpDown, Uniform.keyArrowDown,
                Uniform.seekForwardN.
    change (Z.to_nat 4) with 4%nat. cbn [forN].
    destruct (Uniform.seekForwardLine p) as [p1| | |]; cbn [bind]; auto.
    destruct (Uniform.seekForwardLine p1) as [p2| | |]; cbn [bind]; auto.
    destruct (Uniform.seekForwardLine p2) as [p3| | |]; cbn [bind]; auto.
    destruct (Uniform.seekForwardLine p3) as [p4| | |]; cbn [bind]; auto.
  - intros n p. unfold PerColumn.seekBackwardN.
    now rewrite forN_sequentially.
  - intros env n p q H. unfold PerColumn.seekForwardN in H.
    destruct (PerColumn.countLinesAvailable env p) as [lines| | |];
      try discriminate.
    cbn [bind] in H.
    destruct (forN (Z.to_nat n) PerColumn.seekForwardLine p) as [p1| | |] eqn:E;
      try discriminate.
    cbn [bind] in H.
    apply seekBackWhileFewer_first in H as (k & Hk & Hbefore & Hafter).
    exists lines, p1, k.
    split; [reflexivity|].
    split; [rewrite <- forN_sequentially; exact E|].
    split; [rewrite <- forN_sequentially; exact Hk|].
    split; [|exact Hafter].
    intros j Hj. destruct (Hbefore j Hj) as (pj & aj & Hpj & Haj & Hlt).
    exists pj, aj. rewrite <- forN_sequentially. auto.
  - intros env n p p1 lines a1 Hl Hseq Ha Hle.
    rewrite <- forN_sequentially in Hseq.
    now apply (pc_seekForwardN_unguarded env n p p1 lines a1).
  - intros env n p lines Hp Hl.
    destruct (forN_forward_total (content (PerColumn.file p)) (Z.to_nat n)
                (offset (PerColumn.file p)) Hp) as (e & He & Hle).
    assert (Hfwd : forN (Z.to_nat n) PerColumn.seekForwardLine p
                   = Ok (PerColumn.withOffset p e)).
    { rewrite pc_forward_lift, He by assumption. reflexivity. }
    exists (PerColumn.withOffset p e).
    split; [rewrite <- forN_sequentially; exact Hfwd|].
    destruct (countLinesAvailable_total env p (PerColumn.withOffset p 0)
                lines Hl) as (a0 & Ha0).
    assert (Hrun : PerColumn.seekForwardN env n p
                   = PerColumn.seekBackWhileFewer
                       (S (S (Z.to_nat e))) env lines
                       (PerColumn.withOffset p e)).
    { unfold PerColumn.seekForwardN. rewrite Hl. cbn [bind].
      rewrite Hfwd. reflexivity. }
    rewrite Hrun.
    destruct (seekBackWhileFewer_decides env lines (S (S (Z.to_nat e)))
                (PerColumn.withOffset p e) a0)
      as [(r & a & Hr & _) | [Hnf _]];
      [cbn; lia | cbn; lia | exact Ha0 | |].
    + left. eexists. exact Hr.
    + right. split; [exact Hnf|]. intros j.
      destruct (seekBackWhileFewer_never env lines j
                  (PerColumn.withOffset p e))
        as (pj & aj & Hpj & Haj & Hlt).
      * cbn. lia.
      * intros fuel.
        apply (seekBackWhileFewer_fuel env lines (S (S (Z.to_nat e))));
          [cbn; lia | cbn; lia | exact Hnf].
      * exists pj, aj. rewrite <- forN_sequentially. auto.
Qed.

(** "a\nb\nc\n" on a terminal of height 2: one line forward from "a". *)
Lemma jump_is_sequence_of_seeks_witness :
  let bytes := [x61; NL; x62; NL; x63; NL] in
  let env := mkEnv 80 2 [x2c] plainRecords in
  let at_ (o : Z) := PerColumn.mkPager 0 [] (mkFile bytes o) None in
  (exists lines p1 k,
      PerColumn.countLinesAvailable env (at_ 0) = Ok lines /\
      sequentially 1 PerColumn.seekForwardLine (at_ 0) = Ok p1 /\
      sequentially k PerColumn.seekBackLine p1 = Ok (at_ 2) /\
      (forall j, (j < k)%nat ->
                 exists pj aj,
                   sequentially j PerColumn.seekBackLine p1 = Ok pj /\
                   PerColumn.countLinesAvailable env pj = Ok aj /\
                   aj < lines) /\
      exists a, PerColumn.countLinesAvailable env (at_ 2) = Ok a /\
                lines <= a) /\
  PerColumn.seekForwardN env 1 (at_ 0) = Ok (at_ 2) /\
  (0 <= 0 <= len bytes /\
   exists p1,
     sequentially 1 PerColumn.seekForwardLine (at_ 0) = Ok p1 /\
     ((exists q, PerColumn.seekForwardN env 1 (at_ 0) = Ok q) \/
      (PerColumn.seekForwardN env 1 (at_ 0) = NoFuel /\
       forall j,
         exists pj aj,
           sequentially j PerColumn.seekBackLine p1 = Ok pj /\
           PerColumn.countLinesAvailable env pj = Ok aj /\
           aj < 1))).
Proof.
  cbv zeta.
  assert (Hp : 0 <= 0 <= len [x61; NL; x62; NL; x63; NL]) by (cbn; lia).
  split; [|split].
  - exact (proj1 (proj2 (proj2 (proj2 jump_is_sequence_of_seeks)))
             (mkEnv 80 2 [x2c] plainRecords) 1
             (PerColumn.mkPager 0 []
                (mkFile [x61; NL; x62; NL; x63; NL] 0) None)
             (PerColumn.mkPager 0 []
                (mkFile [x61; NL; x62; NL; x63; NL] 2) None)
             eq_refl).
  - refine (proj1 (proj2 (proj2 (proj2 (proj2 jump_is_sequence_of_seeks))))
              (mkEnv 80 2 [x2c] plainRecords) 1
              (PerColumn.mkPager 0 []
                 (mkFile [x61; NL; x62; NL; x63; NL] 0) None)
              (PerColumn.mkPager 0 []
                 (mkFile [x61; NL; x62; NL; x63; NL] 2) None)
              1 1 eq_refl eq_refl eq_refl _).
    lia.
  - split; [exact Hp|].
    exact (proj2 (proj2 (proj2 (proj2 (proj2 jump_is_sequence_of_seeks))))
             (mkEnv 80 2 [x2c] plainRecords) 1
             (PerColumn.mkPager 0 []
                (mkFile [x61; NL; x62; NL; x63; NL] 0) None)
             1 Hp eq_refl).
Defined.

(** C7 as stated fails in the first listing.  File "a\nb\nc" without a
    final newline, terminal height 2, cursor at offset 0.  A jump of 4
    ends at offset 2; four single forward seeks end at offset 5, the end
    of the file; four presses of the down-arrow key, each a
    [seekForwardN 1], end at offset 4. *)
Lemma jump_differs_from_single_moves :
  let bytes := [x61; NL; x62; NL; x63] in
  let env := mkEnv 80 2 [x2c] plainRecords in
  let at_ (o : Z) := PerColumn.mkPager 0 [] (mkFile bytes o) None in
  PerColumn.jumpDown env 4 (at_ 0) = Ok (at_ 2) /\
  sequentially 4 PerColumn.seekForwardLine (at_ 0) = Ok (at_ 5) /\
  sequentially 4 (PerColumn.keyArrowDown env) (at_ 0) = Ok (at_ 4) /\
  PerColumn.seekForwardN env 4 (at_ 0)
  <> sequentially 4 PerColumn.seekForwardLine (at_ 0) /\
  PerColumn.jumpDown env 4 (at_ 0)
  <> sequentially 4 (PerColumn.keyArrowDown env) (at_ 0).
Proof.
  cbv zeta. repeat split; try reflexivity; discriminate.
Qed.

(** ** Column metrics *)

Lemma setAt_middle {A : Type} (done l : list A) (a v : A) :
  setAt (done ++ a :: l) (length done) v = done ++ v :: l.
Proof.
  induction done as [|d done IH]; [reflexivity|].
  cbn. now rewrite IH.
Qed.

Lemma joinWidths_nil_r (l : list Z) : joinWidths l [] = l.
Proof. destruct l; reflexivity. Qed.

Lemma joinWidths_assoc (a b c : list Z) :
  joinWidths (joinWidths a b) c = joinWidths a (joinWidths b c).
Proof.
  revert b c. induction a as [|x a IH]; intros b c; [reflexivity|].
  destruct b as [|y b]; [reflexivity|].
  destruct c as [|z c]; [reflexivity|].
  cbn. now rewrite IH, Z.max_assoc.
Qed.

Lemma widenLoop_joins (fields : record) :
  forall done l : list Z,
    (length fields <= length l)%nat ->
    PerColumn.widenLoop (done ++ l) (length done) fields
    = done ++ joinWidths l (map RuneCountInString fields).
Proof.
  induction fields as [|f fs IH]; intros done l Hlen.
  - cbn. now rewrite joinWidths_nil_r.
  - destruct l as [|a l]; [cbn in Hlen; lia|].
    cbn [PerColumn.widenLoop map joinWidths].
    rewrite nth_middle, setAt_middle.
    replace (done ++ Z.max a (RuneCountInString f) :: l)
      with ((done ++ [Z.max a (RuneCountInString f)]) ++ l)
      by (now rewrite <- app_assoc).
    replace (S (length done))
      with (length (done ++ [Z.max a (RuneCountInString f)]))
      by (rewrite length_app; cbn; lia).
    rewrite IH by (cbn in Hlen; lia).
    now rewrite <- app_assoc.
Qed.

Lemma joinWidths_padded (m : list Z) :
  Forall (fun w => 0 <= w) m ->
  forall mw, joinWidths (mw ++ repeat 0 (length m - length mw)) m
             = joinWidths mw m.
Proof.
  induction 1 as [|b m Hb Hm IH]; intros mw.
  - cbn. now rewrite app_nil_r, !joinWidths_nil_r.
  - destruct mw as [|a mw].
    + cbn. rewrite Z.max_r by assumption. f_equal.
      specialize (IH []). cbn in IH. now rewrite Nat.sub_0_r in IH.
    + cbn. f_equal. apply IH.
Qed.

Lemma measure_joins (mw : list Z) (r : record) :
  PerColumn.measure mw r = joinWidths mw (map RuneCountInString r).
Proof.
  unfold PerColumn.measure, PerColumn.growTo.
  pose proof (widenLoop_joins r [] (mw ++ repeat 0 (length r - length mw)))
    as H.
  cbn [app length] in H. rewrite H.
  - rewrite <- (length_map RuneCountInString r).
    apply joinWidths_padded.
    apply Forall_forall. intros w Hw. apply in_map_iff in Hw as (f & <- & _).
    unfold RuneCountInString. lia.
  - rewrite length_app, repeat_length. lia.
Qed.

Lemma fold_measure_joins (records : list record) :
  forall mw, fold_left PerColumn.measure records mw
             = joinWidths mw (windowWidths records).
Proof.
  unfold windowWidths.
  induction records as [|r rs IH]; intros mw.
  - cbn. now rewrite joinWidths_nil_r.
  - cbn [fold_left]. rewrite IH, (IH (PerColumn.measure [] r)).
    rewrite !measure_joins. cbn [joinWidths].
    apply joinWidths_assoc.
Qed.

Lemma pc_readLoop_folds (k : nat) :
  forall reader mw res,
    PerColumn.readLoop k (Records reader) mw res
    = Ok (fold_left PerColumn.measure (firstn k reader) mw,
          res ++ firstn k reader).
Proof.
  induction k as [|k IH]; intros reader mw res.
  - cbn. now rewrite app_nil_r.
  - destruct reader as [|r rest].
    + cbn. now rewrite app_nil_r.
    + cbn [PerColumn.readLoop Read firstn fold_left]. rewrite IH.
      now rewrite <- app_assoc.
Qed.

(** Whenever the loop returns, it has read the first records of some
    list: with a delimiter the reader rejects it returns only when it
    makes no turn. *)
Lemma pc_readLoop_ok (k : nat) (reader : csvReader) (mw : list Z)
      (res : list record) (out : list Z * list record) :
  PerColumn.readLoop k reader mw res = Ok out ->
  exists rs,
    out = (fold_left PerColumn.measure (firstn k rs) mw, res ++ firstn k rs).
Proof.
  destruct reader as [rs|].
  - rewrite pc_readLoop_folds. intros H. injection H as <-. now exists rs.
  - destruct k as [|k]; [|discriminate]. cbn [PerColumn.readLoop].
    intros H. injection H as <-. exists []. cbn. now rewrite app_nil_r.
Qed.

Lemma widenLoop_max (r : record) :
  forall mw, 0 <= mw ->
             Uniform.widenLoop mw r = Z.max mw (Uniform.widenLoop 0 r)
             /\ 0 <= Uniform.widenLoop 0 r.
Proof.
  induction r as [|f fs IH]; intros mw Hmw.
  - cbn. lia.
  - cbn [Uniform.widenLoop].
    assert (Hf : 0 <= RuneCountInString f)
      by (unfold RuneCountInString; lia).
    destruct (IH (Z.max mw (RuneCountInString f))) as [E1 H1]; [lia|].
    destruct (IH (Z.max 0 (RuneCountInString f))) as [E2 H2]; [lia|].
    rewrite E1, E2. lia.
Qed.

Lemma fold_widen_max (records : list record) :
  forall mw, 0 <= mw ->
             fold_left Uniform.widenLoop records mw
             = Z.max mw (windowMaxWidth records)
             /\ 0 <= windowMaxWidth records.
Proof.
  unfold windowMaxWidth.
  induction records as [|r rs IH]; intros mw Hmw.
  - cbn. lia.
  - cbn [fold_left].
    destruct (widenLoop_max r mw Hmw) as [E H].
    destruct (IH (Uniform.widenLoop mw r)) as [E1 H1]; [lia|].
    destruct (IH (Uniform.widenLoop 0 r)) as [E2 H2]; [lia|].
    rewrite E1, E2, E. lia.
Qed.

Lemma fold_fields_max (records : list record) :
  forall mf, 0 <= mf ->
             fold_left (fun m r => Z.max m (len r)) records mf
             = Z.max mf (windowMaxFields records)
             /\ 0 <= windowMaxFields records.
Proof.
  unfold windowMaxFields.
  induction records as [|r rs IH]; intros mf Hmf.
  - cbn. lia.
  - cbn [fold_left]. pose proof (len_nonneg r).
    destruct (IH (Z.max mf (len r))) as [E1 H1]; [lia|].
    destruct (IH (Z.max 0 (len r))) as [E2 H2]; [lia|].
    rewrite E1, E2. lia.
Qed.

Lemma un_readLoop_folds (k : nat) :
  forall reader mf mw res,
    Uniform.readLoop k (Records reader) mf mw res
    = Ok (fold_left (fun m r => Z.max m (len r)) (firstn k reader) mf,
          fold_left Uniform.widenLoop (firstn k reader) mw,
          res ++ firstn k reader).
Proof.
  induction k as [|k IH]; intros reader mf mw res.
  - cbn. now rewrite app_nil_r.
  - destruct reader as [|r rest].
    + cbn. now rewrite app_nil_r.
    + cbn [Uniform.readLoop Read firstn fold_left]. rewrite IH.
      now rewrite <- app_assoc.
Qed.

Lemma un_readLoop_ok (k : nat) (reader : csvReader) (mf mw : Z)
      (res : list record) (out : Z * Z * list record) :
  Uniform.readLoop k reader mf mw res = Ok out ->
  exists rs,
    out = (fold_left (fun m r => Z.max m (len r)) (firstn k rs) mf,
           fold_left Uniform.widenLoop (firstn k rs) mw,
           res ++ firstn k rs).
Proof.
  destruct reader as [rs|].
  - rewrite un_readLoop_folds. intros H. injection H as <-. now exists rs.
  - destruct k as [|k]; [|discriminate]. cbn [Uniform.readLoop].
    intros H. injection H as <-. exists []. cbn. now rewrite app_nil_r.
Qed.

(** A reader on which the loop returns once behaves, for these turns,
    as the reader of some list of records. *)
Lemma pc_readLoop_returns (k : nat) (reader : csvReader) (mw0 : list Z)
      (res0 : list record) (out0 : list Z * list record) :
  PerColumn.readLoop k reader mw0 res0 = Ok out0 ->
  exists rs,
    forall mw res,
      PerColumn.readLoop k reader mw res
      = Ok (fold_left PerColumn.measure (firstn k rs) mw,
            res ++ firstn k rs).
Proof.
  destruct reader as [rs|].
  - intros _. exists rs. intros mw res. apply pc_readLoop_folds.
  - destruct k as [|k]; [|discriminate]. intros _. exists [].
    intros mw res. cbn. now rewrite app_nil_r.
Qed.

Lemma un_readLoop_returns (k : nat) (reader : csvReader) (mf0 mw0 : Z)
      (res0 : list record) (out0 : Z * Z * list record) :
  Uniform.readLoop k reader mf0 mw0 res0 = Ok out0 ->
  exists rs,
    forall mf mw res,
      Uniform.readLoop k reader mf mw res
      = Ok (fold_left (fun m r => Z.max m (len r)) (firstn k rs) mf,
            fold_left Uniform.widenLoop (firstn k rs) mw,
            res ++ firstn k rs).
Proof.
  destruct reader as [rs|].
  - intros _. exists rs. intros mf mw res. apply un_readLoop_folds.
  - destruct k as [|k]; [|discriminate]. intros _. exists [].
    intros mf mw res. cbn. now rewrite app_nil_r.
Qed.

(** What [readLines] returns when it returns. *)
Lemma pc_readLines_inv (env : Env) (p p' : PerColumn.Pager)
      (records : list record) :
  PerColumn.readLines env p = Ok (p', records) ->
  exists rs,
    p' = PerColumn.withMaxWidth p
           (fold_left PerColumn.measure
                      (firstn (Z.to_nat (countLinesFitting env)) rs)
                      (PerColumn.maxWidth p)) /\
    records = firstn (Z.to_nat (countLinesFitting env)) rs.
Proof.
  intros H. unfold PerColumn.readLines in H.
  destruct (getNewCSVReader env (PerColumn.file p)) as [reader| | |];
    try discriminate.
  cbn [bind] in H.
  destruct (PerColumn.readLoop _ reader _ _) as [out| | |] eqn:Hloop;
    try discriminate.
  apply pc_readLoop_ok in Hloop as (rs & ->). cbn [bind] in H.
  injection H as <- <-. now exists rs.
Qed.

Lemma un_readLines_inv (env : Env) (p p' : Uniform.Pager)
      (records : list record) :
  Uniform.readLines env p = Ok (p', records) ->
  exists rs,
    p' = Uniform.mkPager
           (offset (Uniform.file p)) (Uniform.horizontalShift p)
           (fold_left (fun m r => Z.max m (len r))
                      (firstn (Z.to_nat (countLinesFitting env)) rs)
                      (Uniform.maxFields p))
           (fold_left Uniform.widenLoop
                      (firstn (Z.to_nat (countLinesFitting env)) rs)
                      (Uniform.maxWidth p))
           (mkFile (content (Uniform.file p)) (offset (Uniform.file p))) /\
    records = firstn (Z.to_nat (countLinesFitting env)) rs.
Proof.
  intros H. unfold Uniform.readLines in H.
  destruct (getNewCSVReader env (Uniform.file p)) as [reader| | |];
    try discriminate.
  cbn [bind] in H.
  destruct (Uniform.readLoop _ reader _ _ _) as [out| | |] eqn:Hloop;
    try discriminate.
  apply un_readLoop_ok in Hloop as (rs & ->). cbn [bind] in H.
  injection H as <- <-. now exists rs.
Qed.

(** C1, as the code has it.  [readLines] never resets the metrics: after
    it, each column width is the larger of the width held before the call
    and the width of the records just read, and the number of columns is
    the larger of the two counts, so what earlier windows contributed
    stays. *)
Theorem readLines_keeps_running_maximum :
  (forall (env : Env) (p p' : PerColumn.Pager) (records : list record),
      PerColumn.readLines env p = Ok (p', records) ->
      PerColumn.maxWidth p'
      = joinWidths (PerColumn.maxWidth p) (windowWidths records)) /\
  (forall (env : Env) (p p' : Uniform.Pager) (records : list record),
      0 <= Uniform.maxFields p -> 0 <= Uniform.maxWidth p ->
      Uniform.readLines env p = Ok (p', records) ->
      Uniform.maxFields p'
      = Z.max (Uniform.maxFields p) (windowMaxFields records) /\
      Uniform.maxWidth p'
      = Z.max (Uniform.maxWidth p) (windowMaxWidth records)).
Proof.
  split.
  - intros env p p' records H.
    apply pc_readLines_inv in H as (rs & -> & ->). cbn.
    apply fold_measure_joins.
  - intros env p p' records Hmf Hmw H.
    apply un_readLines_inv in H as (rs & -> & ->). cbn.
    split.
    + now apply fold_fields_max.
    + now apply fold_widen_max.
Qed.

(** A pager that has seen a field of four characters reads the window
    "b". *)
Lemma readLines_keeps_running_maximum_witness :
  (PerColumn.readLines (mkEnv 80 2 [x2c] plainRecords)
     (PerColumn.mkPager 0 [4] (mkFile [x62; NL] 0) None)
   = Ok (PerColumn.mkPager 0 [4] (mkFile [x62; NL] 0) None, [[[98]]]) /\
   [4] = joinWidths [4] (windowWidths [[[98]]])) /\
  ((0 <= 1 /\ 0 <= 4 /\
    Uniform.readLines (mkEnv 80 2 [x2c] plainRecords)
      (Uniform.mkPager 0 0 1 4 (mkFile [x62; NL] 0))
    = Ok (Uniform.mkPager 0 0 1 4 (mkFile [x62; NL] 0), [[[98]]])) /\
   1 = Z.max 1 (windowMaxFields [[[98]]]) /\
   4 = Z.max 4 (windowMaxWidth [[[98]]])).
Proof.
  split.
  - split; [reflexivity|].
    exact (proj1 readLines_keeps_running_maximum
             (mkEnv 80 2 [x2c] plainRecords)
             (PerColumn.mkPager 0 [4] (mkFile [x62; NL] 0) None)
             (PerColumn.mkPager 0 [4] (mkFile [x62; NL] 0) None)
             [[[98]]] eq_refl).
  - assert (H1 : 0 <= 1) by lia. assert (H4 : 0 <= 4) by lia.
    split; [repeat split; assumption|].
    exact (proj2 readLines_keeps_running_maximum
             (mkEnv 80 2 [x2c] plainRecords)
             (Uniform.mkPager 0 0 1 4 (mkFile [x62; NL] 0))
             (Uniform.mkPager 0 0 1 4 (mkFile [x62; NL] 0))
             [[[98]]] H1 H4 eq_refl).
Defined.

(** C1 as stated fails.  File "aaaa\nb\n", terminal height 2 (one record
    per window).  The first render reads "aaaa"; after one line forward
    the window is the record "b" alone, whose own width is 1, and the
    metrics used for the next render still say 4. *)
Lemma metrics_keep_earlier_windows :
  let bytes := [x61; x61; x61; x61; NL; x62; NL] in
  let env := mkEnv 80 2 [x2c] plainRecords in
  (r <- PerColumn.renderCSVWindow env
          (PerColumn.mkPager 0 [] (mkFile bytes 0) None) ;;
   p2 <- PerColumn.seekForwardN env 1 (fst r) ;;
   w <- PerColumn.readLines env p2 ;;
   Ok (offset (PerColumn.file (fst w)), snd w, PerColumn.maxWidth (fst w)))
  = Ok (5, [[[98]]], [4]) /\
  windowWidths [[[98]]] = [1] /\
  (r <- Uniform.renderCSVWindow env
          (Uniform.mkPager 0 0 0 0 (mkFile bytes 0)) ;;
   p2 <- Uniform.seekForwardN 1 (fst r) ;;
   w <- Uniform.readLines env p2 ;;
   Ok (offset (Uniform.file (fst w)), snd w, Uniform.maxWidth (fst w)))
  = Ok (5, [[[98]]], 4) /\
  windowMaxWidth [[[98]]] = 1 /\
  [4] <> windowWidths [[[98]]] /\
  4 <> windowMaxWidth [[[98]]].
Proof.
  cbv zeta. repeat split; try reflexivity; discriminate.
Qed.

(** ** Rendering *)

Lemma clipLines_length (shift w : Z) (window : list gostring) :
  forall out, clipLines shift w window = Ok out ->
              length out = length window.
Proof.
  induction window as [|pl rest IH]; intros out H.
  - injection H as <-. reflexivity.
  - cbn [clipLines] in H.
    destruct (clipLine shift w pl) as [t| | |]; try discriminate.
    cbn [bind] in H.
    destruct (clipLines shift w rest) as [rest'| | |]; try discriminate.
    cbn [bind] in H. injection H as <-.
    cbn. f_equal. now apply IH.
Qed.

Lemma sliceRange_length {A : Type} (l out : list A) (lo hi : Z) :
  sliceRange l lo hi = Ok out -> len out = hi - lo.
Proof.
  unfold sliceRange.
  destruct ((0 <=? lo) && (lo <=? hi) && (hi <=? len l)) eqn:E;
    [|discriminate].
  apply andb_prop in E as [E Ehi]. apply andb_prop in E as [Elo Emid].
  apply Z.leb_le in Elo, Emid, Ehi.
  intros [= <-]. unfold len in *.
  rewrite length_firstn, length_skipn. lia.
Qed.

(** Inside the line the cut succeeds. *)
Lemma clipLine_inside (shift w : Z) (pl : gostring) :
  0 <= shift <= len pl -> 0 <= w ->
  clipLine shift w pl
  = Ok (firstn (Z.to_nat (Z.min (len pl - shift) w))
               (skipn (Z.to_nat shift) pl)).
Proof.
  intros Hs Hw. unfold clipLine, sliceRange.
  destruct (Z.leb_spec 0 shift); [|lia].
  destruct (Z.leb_spec shift (Z.min (len pl) (shift + w))); [|lia].
  destruct (Z.leb_spec (Z.min (len pl) (shift + w)) (len pl)); [|lia].
  cbn [andb]. do 2 f_equal. lia.
Qed.

(** C2: what the code does on a window without records.  The footer
    overwrites the header, which is the last line of the window at that
    point, so at most one line is returned, for every pager and terminal;
    on an empty file and a terminal of 80 by 24 the first frame of either
    listing is the single glyph of the footer's left corner. *)
Theorem no_records_render_single_line :
  (forall (env : Env) (p : PerColumn.Pager),
      match PerColumn.getPrintableLines env p [] with
      | Ok printable => (length printable <= 1)%nat
      | _ => True
      end) /\
  (forall (env : Env) (p : Uniform.Pager),
      match Uniform.getPrintableLines env p [] with
      | Ok printable => (length printable <= 1)%nat
      | _ => True
      end) /\
  fst (PerColumn.main 80 24 plainRecords [x66] [x2c] (Some []) true)
  = [EvHideCursor; EvFrame [[gFooterStart]]] /\
  fst (Uniform.main 80 24 plainRecords [x66] [x2c] (Some []) true)
  = [EvHideCursor; EvFrame [[gFooterStart]]].
Proof.
  split; [|split; [|split]].
  - intros env p. unfold PerColumn.getPrintableLines.
    destruct (PerColumn.getTableHeaderLine p) as [header| | |]; cbn [bind]; auto.
    destruct (PerColumn.getDataLine p) as [dataFooter| | |]; cbn [bind]; auto.
    destruct (PerColumn.getTableFooterLine p) as [footer| | |]; cbn [bind]; auto.
    cbn [PerColumn.windowLoop setLast removelast app bind].
    destruct (sliceRange [footer] 0 (Z.min (height env) (len [footer])))
      as [window| | |] eqn:E; cbn [bind]; auto.
    destruct (clipLines _ _ window) as [out| | |] eqn:E'; auto.
    apply clipLines_length in E'. apply sliceRange_length in E.
    unfold len in E. cbn [length] in E. lia.
  - intros env p. unfold Uniform.getPrintableLines.
    destruct (Uniform.getTableHeaderLine p) as [header| | |]; cbn [bind]; auto.
    destruct (Uniform.getDataLine p) as [dataFooter| | |]; cbn [bind]; auto.
    destruct (Uniform.getTableFooterLine p) as [footer| | |]; cbn [bind]; auto.
    cbn [Uniform.windowLoop setLast removelast app bind].
    destruct (sliceRange [footer] 0 (Z.min (height env) (len [footer])))
      as [window| | |] eqn:E; cbn [bind]; auto.
    destruct (clipLines _ _ window) as [out| | |] eqn:E'; auto.
    apply clipLines_length in E'. apply sliceRange_length in E.
    unfold len in E. cbn [length] in E. lia.
  - reflexivity.
  - reflexivity.
Qed.

(** C3: what the code does when the shift is past the end of a line.
    The upper bound of the slice is capped at the line's length and the
    lower bound is not, so the slice expression panics (first part).  A
    record with fewer fields than the widest one gives such a line: on
    "aaaa,bbbb,cccc\nd\n" with a terminal of 8 by 10, the first frame and
    the frame after one pan to the right are drawn, with shifts 0 and 5;
    the second pan sets the shift to 10, the row of "d" has 6 code points,
    and the render panics, in both listings. *)
Theorem clip_panics_past_line_end :
  (forall (pl : gostring) (extra w : nat),
      clipLine (len pl + 1 + Z.of_nat extra) (Z.of_nat w) pl = Panicked) /\
  (let bytes := [x61; x61; x61; x61; x2c; x62; x62; x62; x62; x2c;
                 x63; x63; x63; x63; NL; x64; NL] in
   let env := mkEnv 8 10 [x2c] plainRecords in
   let row := [gBar; gSpace; gSpace; gSpace; 100; gBar] in
   (r1 <- PerColumn.renderCSVWindow env
            (PerColumn.mkPager 0 [] (mkFile bytes 0) None) ;;
    p1 <- PerColumn.moveToRight env (fst r1) ;;
    r2 <- PerColumn.renderCSVWindow env p1 ;;
    p2 <- PerColumn.moveToRight env (fst r2) ;;
    Ok (PerColumn.horizontalShift (fst r1),
        PerColumn.horizontalShift (fst r2),
        PerColumn.horizontalShift p2,
        PerColumn.getDataFields p2 [[100]],
        PerColumn.renderCSVWindow env p2))
   = Ok (0, 5, 10, Ok row, Panicked) /\
   (r1 <- Uniform.renderCSVWindow env
            (Uniform.mkPager 0 0 0 0 (mkFile bytes 0)) ;;
    let p1 := Uniform.moveToRight env (fst r1) in
    r2 <- Uniform.renderCSVWindow env p1 ;;
    let p2 := Uniform.moveToRight env (fst r2) in
    Ok (Uniform.horizontalShift (fst r1),
        Uniform.horizontalShift (fst r2),
        Uniform.horizontalShift p2,
        Uniform.getDataFields p2 [[100]],
        Uniform.renderCSVWindow env p2))
   = Ok (0, 5, 10, Ok row, Panicked) /\
   clipLine 10 8 row = Panicked).
Proof.
  split.
  - intros pl extra w. unfold clipLine, sliceRange.
    destruct (Z.leb_spec (len pl + 1 + Z.of_nat extra)
                (Z.min (len pl) (len pl + 1 + Z.of_nat extra + Z.of_nat w)))
      as [H|H].
    + lia.
    + now rewrite andb_false_r.
  - cbv zeta. repeat split; reflexivity.
Qed.

(** ** Start of the program *)

(** C9: what the code does with the two flags.  An empty [-file] ends in
    the usage text and exit status 1 and nothing else is written.  An
    empty [-comma] is not looked at before the first render: with any
    non-empty path that opens, the cursor is hidden, [getNewCSVReader]
    panics on [comma[0]], and the deferred prints run. *)
Theorem empty_comma_panics_in_first_render :
  (forall (w h : Z) (parser : byte -> list byte -> list record)
          (commaFlag : list byte) (opened : option (list byte))
          (keyboardOpens : bool),
      PerColumn.main w h parser [] commaFlag opened keyboardOpens
      = ([EvUsage], ExitUsage) /\
      Uniform.main w h parser [] commaFlag opened keyboardOpens
      = ([EvUsage], ExitUsage)) /\
  (forall (w h : Z) (parser : byte -> list byte -> list record)
          (c : byte) (path bytes : list byte) (keyboardOpens : bool),
      PerColumn.main w h parser (c :: path) [] (Some bytes) keyboardOpens
      = ([EvHideCursor; EvNewline; EvShowCursor], Crashed) /\
      Uniform.main w h parser (c :: path) [] (Some bytes) keyboardOpens
      = ([EvHideCursor; EvNewline; EvShowCursor], Crashed)).
Proof.
  split.
  - intros. split; reflexivity.
  - intros. split; reflexivity.
Qed.

(** ** Panning to the right *)

Lemma fieldIndexLoop_range (ws : list Z) :
  forall shift i cum n,
    0 <= i -> i + len ws = n -> 0 < n ->
    0 <= PerColumn.fieldIndexLoop ws shift i cum n < n.
Proof.
  induction ws as [|w ws IH]; intros shift i cum n Hi Hn Hpos.
  - cbn. destruct (shift =? cum); lia.
  - cbn [PerColumn.fieldIndexLoop]. rewrite len_cons in Hn.
    pose proof (len_nonneg ws).
    destruct ((shift - i >=? cum) && (shift - i <? cum + w)); [lia|].
    apply IH; lia.
Qed.

Lemma indexAt_inside {A : Type} (l : list A) (i : Z) :
  0 <= i < len l -> exists a, indexAt l i = Ok a /\ In a l.
Proof.
  intros H. unfold indexAt, len in *.
  destruct (Z.ltb_spec i 0); [lia|].
  destruct (nth_error l (Z.to_nat i)) as [a|] eqn:E.
  - exists a. split; [reflexivity | now apply nth_error_In in E].
  - apply nth_error_None in E. lia.
Qed.

(** One pan to the right either does nothing or moves the shift up by at
    least one. *)
Lemma pc_moveToRight_step (env : Env) (p : PerColumn.Pager) :
  Forall (fun w => 0 <= w) (PerColumn.maxWidth p) ->
  PerColumn.maxWidth p <> [] ->
  exists q,
    PerColumn.moveToRight env p = Ok q /\
    PerColumn.maxWidth q = PerColumn.maxWidth p /\
    ((remainingPerColumn p <= width env /\ q = p) \/
     (width env < remainingPerColumn p /\
      remainingPerColumn q < remainingPerColumn p)).
Proof.
  intros Hall Hne. unfold PerColumn.moveToRight, remainingPerColumn.
  destruct (Z.leb_spec (PerColumn.countMaxJoinedLength p
                        - PerColumn.horizontalShift p) (width env)) as [H|H].
  - exists p. auto.
  - destruct (indexAt_inside (PerColumn.maxWidth p)
                             (PerColumn.currentFieldIndex p)) as (w & Hw & Hin).
    { apply fieldIndexLoop_range; [lia | lia |].
      destruct (PerColumn.maxWidth p); [congruence|].
      rewrite len_cons. pose proof (len_nonneg l). lia. }
    rewrite Hw. cbn [bind].
    eexists. split; [reflexivity|]. split; [reflexivity|]. right.
    split; [assumption|].
    rewrite Forall_forall in Hall. specialize (Hall w Hin).
    unfold PerColumn.countMaxJoinedLength. cbn. lia.
Qed.

Lemma pc_moveToRight_settles (env : Env) (n : nat) :
  forall p : PerColumn.Pager,
    Forall (fun w => 0 <= w) (PerColumn.maxWidth p) ->
    PerColumn.maxWidth p <> [] ->
    Z.to_nat (remainingPerColumn p - width env) = n ->
    exists k q,
      forN k (PerColumn.moveToRight env) p = Ok q /\
      remainingPerColumn q <= width env /\
      PerColumn.moveToRight env q = Ok q.
Proof.
  induction n as [n IH] using lt_wf_ind; intros p Hall Hne Hn.
  destruct (pc_moveToRight_step env p Hall Hne) as (q & Hq & Hmw & Hcase).
  destruct Hcase as [[Hfit ->] | [Hwide Hless]].
  - exists O, p. auto.
  - destruct (IH (Z.to_nat (remainingPerColumn q - width env)))
      with (p := q) as (k & q' & Hk & Hfit & Hfix);
      [lia | now rewrite Hmw | now rewrite Hmw | reflexivity |].
    exists (S k), q'. rewrite forN_cons, Hq. auto.
Qed.

Lemma forN_fixed {S : Type} (f : S -> outcome S) (x : S) (j : nat) :
  f x = Ok x -> forN j f x = Ok x.
Proof.
  intros H. induction j as [|j IH]; [reflexivity|].
  now rewrite forN_cons, H.
Qed.

Lemma un_moveToRight_settles (env : Env) (n : nat) :
  forall p : Uniform.Pager,
    0 <= Uniform.maxWidth p ->
    Z.to_nat (remainingUniform p - width env) = n ->
    exists k,
      remainingUniform (Nat.iter k (Uniform.moveToRight env) p) <= width env.
Proof.
  induction n as [n IH] using lt_wf_ind; intros p Hmw Hn.
  destruct (Z.leb_spec (remainingUniform p) (width env)) as [H|H].
  - now exists O.
  - destruct (IH (Z.to_nat (remainingUniform (Uniform.moveToRight env p)
                            - width env)))
      with (p := Uniform.moveToRight env p) as (k & Hk).
    + unfold Uniform.moveToRight, remainingUniform in *.
      destruct (Z.leb_spec (Uniform.countMaxJoinedLength p
                            - Uniform.horizontalShift p) (width env));
        [lia|].
      unfold Uniform.countMaxJoinedLength in *. cbn. lia.
    + unfold Uniform.moveToRight.
      destruct (_ <=? _); [assumption | cbn; assumption].
    + reflexivity.
    + exists (S k). now rewrite Nat.iter_succ_r.
Qed.

Lemma un_moveToRight_noop (env : Env) (p : Uniform.Pager) :
  remainingUniform p <= width env -> Uniform.moveToRight env p = p.
Proof.
  unfold remainingUniform, Uniform.moveToRight. intros H.
  destruct (Z.leb_spec (Uniform.countMaxJoinedLength p
                        - Uniform.horizontalShift p) (width env));
    [reflexivity | lia].
Qed.

Lemma iter_fixed {S : Type} (f : S -> S) (x : S) (j : nat) :
  f x = x -> Nat.iter j f x = x.
Proof.
  intros H. induction j as [|j IH]; [reflexivity|].
  now rewrite Nat.iter_succ, IH.
Qed.

(** One pan of the first listing that is not a no-op, on a table with at
    least one column: the shift grows by the width of the column
    [currentFieldIndex] names, plus one. *)
Lemma pc_moveToRight_moves (env : Env) (p : PerColumn.Pager) :
  PerColumn.maxWidth p <> [] ->
  width env < remainingPerColumn p ->
  exists w,
    indexAt (PerColumn.maxWidth p) (PerColumn.currentFieldIndex p) = Ok w /\
    In w (PerColumn.maxWidth p) /\
    PerColumn.moveToRight env p
    = Ok (PerColumn.withShift p (PerColumn.horizontalShift p + w + 1)).
Proof.
  intros Hne Hwide. unfold PerColumn.moveToRight, remainingPerColumn in *.
  destruct (Z.leb_spec (PerColumn.countMaxJoinedLength p
                        - PerColumn.horizontalShift p) (width env)) as [H|H];
    [lia|].
  destruct (indexAt_inside (PerColumn.maxWidth p)
                           (PerColumn.currentFieldIndex p)) as (w & Hw & Hin).
  { apply fieldIndexLoop_range; [lia | lia |].
    destruct (PerColumn.maxWidth p); [congruence|].
    rewrite len_cons. pose proof (len_nonneg l). lia. }
  exists w. rewrite Hw. cbn [bind]. auto.
Qed.

(** The same pan on a table without columns: [currentFieldIndex] gives
    -1 or 0 and [maxWidth[i]] is out of range. *)
Lemma pc_moveToRight_no_columns (env : Env) (p : PerColumn.Pager) :
  PerColumn.maxWidth p = [] ->
  width env < remainingPerColumn p ->
  PerColumn.moveToRight env p = Panicked.
Proof.
  intros Hnil Hwide. unfold PerColumn.moveToRight, remainingPerColumn in *.
  destruct (Z.leb_spec (PerColumn.countMaxJoinedLength p
                        - PerColumn.horizontalShift p) (width env)) as [H|H];
    [lia|].
  unfold PerColumn.currentFieldIndex. rewrite Hnil.
  cbn [PerColumn.fieldIndexLoop len length Z.of_nat].
  destruct (PerColumn.horizontalShift p =? 0); reflexivity.
Qed.

Lemma un_moveToRight_moves (env : Env) (p : Uniform.Pager) :
  width env < remainingUniform p ->
  Uniform.moveToRight env p
  = Uniform.withShift p (Uniform.horizontalShift p + Uniform.maxWidth p + 1).
Proof.
  unfold remainingUniform, Uniform.moveToRight. intros H.
  destruct (Z.leb_spec (Uniform.countMaxJoinedLength p
                        - Uniform.horizontalShift p) (width env));
    [lia | reflexivity].
Qed.

(** C8, as the code has it.  Second listing: a pan to the right does
    nothing when what is left of the table from the shift fits the width
    (part 1); when it does not fit, the pan adds [maxWidth + 1], one
    column and its border, to the shift (part 2); with a width that is
    not negative, finitely many pans bring what is left down to at most
    the terminal width, not necessarily to the width itself, and further
    pans leave the pager as it is (part 3).  First listing: the same
    no-op (part 4); on a table with at least one column a pan that is
    not a no-op adds [maxWidth[i] + 1] to the shift, [i] being the column
    [currentFieldIndex] names (part 5); with at least one column and no
    negative width the pans settle in the same way (part 6); on a table
    without columns a pan that is not a no-op panics on [maxWidth[i]]
    (part 7). *)
Theorem moveToRight_settles_within_width :
  (forall (env : Env) (p : Uniform.Pager),
      remainingUniform p <= width env -> Uniform.moveToRight env p = p) /\
  (forall (env : Env) (p : Uniform.Pager),
      width env < remainingUniform p ->
      Uniform.moveToRight env p
      = Uniform.withShift p
          (Uniform.horizontalShift p + Uniform.maxWidth p + 1)) /\
  (forall (env : Env) (p : Uniform.Pager),
      0 <= Uniform.maxWidth p ->
      exists k,
        let q := Nat.iter k (Uniform.moveToRight env) p in
        remainingUniform q <= width env /\
        forall j, Nat.iter j (Uniform.moveToRight env) q = q) /\
  (forall (env : Env) (p : PerColumn.Pager),
      remainingPerColumn p <= width env ->
      PerColumn.moveToRight env p = Ok p) /\
  (forall (env : Env) (p : PerColumn.Pager),
      PerColumn.maxWidth p <> [] ->
      width env < remainingPerColumn p ->
      exists w,
        indexAt (PerColumn.maxWidth p) (PerColumn.currentFieldIndex p)
        = Ok w /\
        In w (PerColumn.maxWidth p) /\
        PerColumn.moveToRight env p
        = Ok (PerColumn.withShift p
                (PerColumn.horizontalShift p + w + 1))) /\
  (forall (env : Env) (p : PerColumn.Pager),
      Forall (fun w => 0 <= w) (PerColumn.maxWidth p) ->
      PerColumn.maxWidth p <> [] ->
      exists k q,
        forN k (PerColumn.moveToRight env) p = Ok q /\
        remainingPerColumn q <= width env /\
        forall j, forN j (PerColumn.moveToRight env) q = Ok q) /\
  (forall (env : Env) (p : PerColumn.Pager),
      PerColumn.maxWidth p = [] ->
      width env < remainingPerColumn p ->
      PerColumn.moveToRight env p = Panicked).
Proof.
  split; [|split; [|split; [|split; [|split; [|split]]]]].
  - apply un_moveToRight_noop.
  - apply un_moveToRight_moves.
  - intros env p Hmw.
    destruct (un_moveToRight_settles env _ p Hmw eq_refl) as (k & Hk).
    exists k. cbv zeta. split; [assumption|].
    intros j. apply iter_fixed. now apply un_moveToRight_noop.
  - intros env p H. unfold remainingPerColumn in H.
    unfold PerColumn.moveToRight.
    destruct (Z.leb_spec (PerColumn.countMaxJoinedLength p
                          - PerColumn.horizontalShift p) (width env));
      [reflexivity | lia].
  - apply pc_moveToRight_moves.
  - intros env p Hall Hne.
    destruct (pc_moveToRight_settles env _ p Hall Hne eq_refl)
      as (k & q & Hk & Hfit & Hfix).
    exists k, q. repeat split; auto.
    intros j. now apply forN_fixed.
  - apply pc_moveToRight_no_columns.
Qed.

(** Three columns of width 3 on a terminal 6 wide; a table without
    columns on a terminal 0 wide. *)
Lemma moveToRight_settles_within_width_witness :
  let env := mkEnv 6 24 [x2c] plainRecords in
  (remainingUniform (Uniform.mkPager 0 8 3 3 (mkFile [] 0)) <= 6 /\
   Uniform.moveToRight env (Uniform.mkPager 0 8 3 3 (mkFile [] 0))
   = Uniform.mkPager 0 8 3 3 (mkFile [] 0)) /\
  (6 < remainingUniform (Uniform.mkPager 0 4 3 3 (mkFile [] 0)) /\
   Uniform.moveToRight env (Uniform.mkPager 0 4 3 3 (mkFile [] 0))
   = Uniform.mkPager 0 8 3 3 (mkFile [] 0)) /\
  (0 <= 3 /\
   exists k,
     let q := Nat.iter k (Uniform.moveToRight env)
                       (Uniform.mkPager 0 0 3 3 (mkFile [] 0)) in
     remainingUniform q <= 6 /\
     forall j, Nat.iter j (Uniform.moveToRight env) q = q) /\
  (remainingPerColumn (PerColumn.mkPager 8 [3; 3; 3] (mkFile [] 0) None) <= 6 /\
   PerColumn.moveToRight env
     (PerColumn.mkPager 8 [3; 3; 3] (mkFile [] 0) None)
   = Ok (PerColumn.mkPager 8 [3; 3; 3] (mkFile [] 0) None)) /\
  (([2; 3; 5] <> [] /\
    6 < remainingPerColumn
          (PerColumn.mkPager 3 [2; 3; 5] (mkFile [] 0) None)) /\
   exists w,
     indexAt [2; 3; 5]
       (PerColumn.currentFieldIndex
          (PerColumn.mkPager 3 [2; 3; 5] (mkFile [] 0) None)) = Ok w /\
     In w [2; 3; 5] /\
     PerColumn.moveToRight env
       (PerColumn.mkPager 3 [2; 3; 5] (mkFile [] 0) None)
     = Ok (PerColumn.mkPager (3 + w + 1) [2; 3; 5] (mkFile [] 0) None)) /\
  ((Forall (fun w => 0 <= w) [3; 3; 3] /\ [3; 3; 3] <> []) /\
   exists k q,
     forN k (PerColumn.moveToRight env)
          (PerColumn.mkPager 0 [3; 3; 3] (mkFile [] 0) None) = Ok q /\
     remainingPerColumn q <= 6 /\
     forall j, forN j (PerColumn.moveToRight env) q = Ok q) /\
  (0 < remainingPerColumn (PerColumn.mkPager 0 [] (mkFile [] 0) None) /\
   PerColumn.moveToRight (mkEnv 0 24 [x2c] plainRecords)
     (PerColumn.mkPager 0 [] (mkFile [] 0) None)
   = Panicked).
Proof.
  cbv zeta.
  assert (H5 : remainingUniform (Uniform.mkPager 0 8 3 3 (mkFile [] 0)) <= 6)
    by (cbn; lia).
  assert (H9 : 6 < remainingUniform (Uniform.mkPager 0 4 3 3 (mkFile [] 0)))
    by (cbn; lia).
  assert (H3 : 0 <= 3) by lia.
  assert (H5' : remainingPerColumn
                  (PerColumn.mkPager 8 [3; 3; 3] (mkFile [] 0) None) <= 6)
    by (cbn; lia).
  assert (H11 : 6 < remainingPerColumn
                      (PerColumn.mkPager 3 [2; 3; 5] (mkFile [] 0) None))
    by (cbn; lia).
  assert (Hall : Forall (fun w => 0 <= w) [3; 3; 3])
    by (repeat constructor; lia).
  assert (Hne : [3; 3; 3] <> @nil Z) by discriminate.
  assert (Hne' : [2; 3; 5] <> @nil Z) by discriminate.
  assert (H1 : 0 < remainingPerColumn
                     (PerColumn.mkPager 0 [] (mkFile [] 0) None))
    by (cbn; lia).
  split; [|split; [|split; [|split; [|split; [|split]]]]].
  - split; [exact H5|].
    exact (proj1 moveToRight_settles_within_width
             (mkEnv 6 24 [x2c] plainRecords) _ H5).
  - split; [exact H9|].
    exact (proj1 (proj2 moveToRight_settles_within_width)
             (mkEnv 6 24 [x2c] plainRecords) _ H9).
  - split; [exact H3|].
    exact (proj1 (proj2 (proj2 moveToRight_settles_within_width))
             (mkEnv 6 24 [x2c] plainRecords)
             (Uniform.mkPager 0 0 3 3 (mkFile [] 0)) H3).
  - split; [exact H5'|].
    exact (proj1 (proj2 (proj2 (proj2 moveToRight_settles_within_width)))
             (mkEnv 6 24 [x2c] plainRecords) _ H5').
  - split; [split; assumption|].
    exact (proj1 (proj2 (proj2 (proj2 (proj2
                    moveToRight_settles_within_width))))
             (mkEnv 6 24 [x2c] plainRecords)
             (PerColumn.mkPager 3 [2; 3; 5] (mkFile [] 0) None) Hne' H11).
  - split; [split; assumption|].
    exact (proj1 (proj2 (proj2 (proj2 (proj2 (proj2
                    moveToRight_settles_within_width)))))
             (mkEnv 6 24 [x2c] plainRecords)
             (PerColumn.mkPager 0 [3; 3; 3] (mkFile [] 0) None) Hall Hne).
  - split; [exact H1|].
    exact (proj2 (proj2 (proj2 (proj2 (proj2 (proj2
                    moveToRight_settles_within_width)))))
             (mkEnv 0 24 [x2c] plainRecords)
             (PerColumn.mkPager 0 [] (mkFile [] 0) None) eq_refl H1).
Defined.

(** C8 as stated fails.  Three columns of width 3 make a table of 13
    code points; on a terminal 6 wide the shift goes 0, 4, 8 and stays at
    8, where 5 code points are left: what is left is 13, 9 or 5 and never
    the width, 6, in both listings. *)
Lemma pans_stop_short_of_width :
  (~ exists k,
       remainingUniform
         (Nat.iter k (Uniform.moveToRight (mkEnv 6 24 [x2c] plainRecords))
                   (Uniform.mkPager 0 0 3 3 (mkFile [] 0))) = 6) /\
  (~ exists k q,
       forN k (PerColumn.moveToRight (mkEnv 6 24 [x2c] plainRecords))
            (PerColumn.mkPager 0 [3; 3; 3] (mkFile [] 0) None) = Ok q /\
       remainingPerColumn q = 6).
Proof.
  split.
  - assert (Hfix : forall k,
               Nat.iter (S (S k))
                 (Uniform.moveToRight (mkEnv 6 24 [x2c] plainRecords))
                 (Uniform.mkPager 0 0 3 3 (mkFile [] 0))
               = Uniform.mkPager 0 8 3 3 (mkFile [] 0)).
    { induction k as [|k IH]; [reflexivity|].
      rewrite Nat.iter_succ, IH. reflexivity. }
    intros (k & Hk).
    destruct k as [|[|k]]; [cbn in Hk; lia | cbn in Hk; lia |].
    rewrite Hfix in Hk. cbn in Hk. lia.
  - assert (Hfix : forall k,
               forN (S (S k))
                 (PerColumn.moveToRight (mkEnv 6 24 [x2c] plainRecords))
                 (PerColumn.mkPager 0 [3; 3; 3] (mkFile [] 0) None)
               = Ok (PerColumn.mkPager 8 [3; 3; 3] (mkFile [] 0) None)).
    { intros k.
      rewrite (forN_cons (S k)).
      change (PerColumn.moveToRight (mkEnv 6 24 [x2c] plainRecords)
                (PerColumn.mkPager 0 [3; 3; 3] (mkFile [] 0) None))
        with (Ok (PerColumn.mkPager 4 [3; 3; 3] (mkFile [] 0) None)).
      cbn [bind]. rewrite (forN_cons k).
      change (PerColumn.moveToRight (mkEnv 6 24 [x2c] plainRecords)
                (PerColumn.mkPager 4 [3; 3; 3] (mkFile [] 0) None))
        with (Ok (PerColumn.mkPager 8 [3; 3; 3] (mkFile [] 0) None)).
      cbn [bind]. now apply forN_fixed. }
    intros (k & q & Hk & Hq).
    destruct k as [|[|k]].
    + injection Hk as <-. cbn in Hq. lia.
    + change (Ok (PerColumn.mkPager 4 [3; 3; 3] (mkFile [] 0) None) = Ok q)
        in Hk.
      injection Hk as <-. cbn in Hq. lia.
    + rewrite Hfix in Hk. injection Hk as <-. cbn in Hq. lia.
Qed.

(** * Further properties of the code *)

(** ** Padding and border lines *)

Lemma sum_from (l : list Z) (a : Z) : fold_left Z.add l a = a + sum l.
Proof.
  unfold sum. revert a. induction l as [|x l IH]; intros a.
  - cbn. lia.
  - cbn [fold_left]. rewrite IH, (IH (0 + x)). lia.
Qed.

Lemma sum_cons (x : Z) (l : list Z) : sum (x :: l) = x + sum l.
Proof. unfold sum. cbn [fold_left]. rewrite sum_from. unfold sum. lia. Qed.

Lemma joined_from (l : list Z) (a : Z) :
  fold_left (fun res w => res + (w + 1)) l a = a + sum l + len l.
Proof.
  revert a. induction l as [|x l IH]; intros a.
  - cbn. lia.
  - cbn [fold_left]. rewrite IH, sum_cons, len_cons. lia.
Qed.

(** [countMaxJoinedLength] is the sum of the widths, one border per
    column, and one more border. *)
Lemma pc_countMaxJoinedLength_sum (p : PerColumn.Pager) :
  PerColumn.countMaxJoinedLength p
  = sum (PerColumn.maxWidth p) + len (PerColumn.maxWidth p) + 1.
Proof. unfold PerColumn.countMaxJoinedLength. rewrite joined_from. lia. Qed.

Lemma padString_fits (input : gostring) (length : Z) :
  RuneCountInString input <= length ->
  exists pad,
    padString input length = Ok (pad ++ input) /\
    Forall (eq gSpace) pad /\
    len (pad ++ input) = length.
Proof.
  unfold padString. intros H.
  destruct (Z.eqb_spec (RuneCountInString input) length) as [E|E].
  - exists []. repeat split; [constructor | exact E].
  - destruct (Z.ltb_spec (length - RuneCountInString input) 0); [lia|].
    exists (repeat gSpace (Z.to_nat (length - RuneCountInString input))).
    repeat split.
    + apply Forall_forall. intros x Hx. now apply repeat_spec in Hx.
    + rewrite len_app. unfold len, RuneCountInString in *.
      rewrite repeat_length. lia.
Qed.

(** [padString] puts the input at the right end of a field of [length]
    code points, the rest being spaces; it panics exactly when the input
    is longer than the field. *)
Theorem padString_right_aligns (input : gostring) (length : Z) :
  (RuneCountInString input <= length ->
   exists pad,
     padString input length = Ok (pad ++ input) /\
     Forall (eq gSpace) pad /\
     len (pad ++ input) = length) /\
  (length < RuneCountInString input -> padString input length = Panicked).
Proof.
  split; intros H.
  - now apply padString_fits.
  - unfold padString.
    destruct (Z.eqb_spec (RuneCountInString input) length) as [E|E]; [lia|].
    destruct (Z.ltb_spec (length - RuneCountInString input) 0);
      [reflexivity | lia].
Qed.

(** "ab" in a field of 4, and "abcde" in a field of 4. *)
Lemma padString_right_aligns_witness :
  (RuneCountInString [97; 98] <= 4 /\
   exists pad,
     padString [97; 98] 4 = Ok (pad ++ [97; 98]) /\
     Forall (eq gSpace) pad /\
     len (pad ++ [97; 98]) = 4) /\
  (4 < RuneCountInString [97; 98; 99; 100; 101] /\
   padString [97; 98; 99; 100; 101] 4 = Panicked).
Proof.
  assert (H1 : RuneCountInString [97; 98] <= 4) by (cbn; lia).
  assert (H2 : 4 < RuneCountInString [97; 98; 99; 100; 101]) by (cbn; lia).
  split.
  - split; [exact H1|].
    exact (proj1 (padString_right_aligns [97; 98] 4) H1).
  - split; [exact H2|].
    exact (proj2 (padString_right_aligns [97; 98; 99; 100; 101] 4) H2).
Defined.

Lemma sliceRange_prefix {A : Type} (l : list A) (hi : Z) :
  0 <= hi <= len l ->
  sliceRange l 0 hi = Ok (firstn (Z.to_nat hi) l).
Proof.
  intros H. unfold sliceRange.
  destruct (Z.leb_spec 0 0); [|lia].
  destruct (Z.leb_spec 0 hi); [|lia].
  destruct (Z.leb_spec hi (len l)); [|lia].
  cbn [andb skipn]. now rewrite Z.sub_0_r.
Qed.

(** The loop of the first listing's [getTableLine] writes one glyph per
    turn and its slice of [maxWidth] stays in range. *)
Lemma pc_tableLineLoop_total (mw : list Z) (length : Z)
      (start middle end_ : rune) :
  length = sum mw + len mw + 1 ->
  forall (remaining : nat) (i j : Z),
    0 <= i -> remaining = O \/ i + Z.of_nat remaining <= length ->
    0 <= j -> j + 1 <= len mw \/ len mw = 0 ->
    exists line,
      PerColumn.tableLineLoop remaining mw length i j start middle end_
      = Ok line /\
      Datatypes.length line = remaining.
Proof.
  intros Hlen. induction remaining as [|k IH]; intros i j Hi Hrem Hj Hjl.
  - exists []. split; reflexivity.
  - destruct Hrem as [Hrem|Hrem]; [discriminate|].
    assert (Hnext : k = O \/ i + 1 + Z.of_nat k <= length) by (right; lia).
    cbn [PerColumn.tableLineLoop].
    destruct (Z.eqb_spec i 0) as [E0|E0].
    + destruct (IH (i + 1) j) as (rest & -> & Hl); try lia; auto.
      cbn [bind]. eexists; split; [reflexivity | cbn; lia].
    + destruct (Z.eqb_spec i (length - 1)) as [E1|E1].
      * destruct (IH (i + 1) j) as (rest & -> & Hl); try lia; auto.
        cbn [bind]. eexists; split; [reflexivity | cbn; lia].
      * destruct Hjl as [Hjl | Hz].
        2:{ rewrite Hz in Hlen.
            assert (mw = []) by (destruct mw; [reflexivity | discriminate]).
            subst mw. cbn in Hlen. lia. }
        rewrite sliceRange_prefix by lia. cbn [bind].
        destruct (Z.eqb_spec (sum (firstn (Z.to_nat (j + 1)) mw) + (j + 1)) i)
          as [Em|Em].
        -- (* a junction: [j + 1] is still below the number of columns *)
           assert (Hlt : j + 1 < len mw).
           { destruct (Z.eq_dec (j + 1) (len mw)) as [Eq|Ne]; [|lia].
             exfalso. rewrite Eq in Em. unfold len in Em.
             rewrite Nat2Z.id, firstn_all in Em. unfold len in *. lia. }
           destruct (IH (i + 1) (j + 1)) as (rest & -> & Hl); try lia; auto.
           cbn [bind]. eexists; split; [reflexivity | cbn; lia].
        -- destruct (IH (i + 1) j) as (rest & -> & Hl); try lia; auto.
           cbn [bind]. eexists; split; [reflexivity | cbn; lia].
Qed.

Lemma un_tableLineLoop_total (mw mf length : Z)
      (start middle end_ : rune) :
  length = (mw + 1) * mf + 1 ->
  forall (remaining : nat) (i : Z),
    0 <= i -> remaining = O \/ i + Z.of_nat remaining <= length ->
    exists line,
      Uniform.tableLineLoop remaining mw length i start middle end_
      = Ok line /\
      Datatypes.length line = remaining.
Proof.
  intros Hlen. induction remaining as [|k IH]; intros i Hi Hrem.
  - exists []. split; reflexivity.
  - destruct Hrem as [Hrem|Hrem]; [discriminate|].
    cbn [Uniform.tableLineLoop].
    destruct (IH (i + 1)) as (rest & Hrest & Hl); [lia | right; lia |].
    rewrite Hrest. cbn [bind].
    destruct (Z.eqb_spec i 0) as [E0|E0].
    + eexists; split; [reflexivity | cbn; lia].
    + destruct (Z.eqb_spec i (length - 1)) as [E1|E1].
      * eexists; split; [reflexivity | cbn; lia].
      * destruct (Z.eqb_spec (mw + 1) 0) as [Ez|Ez].
        -- rewrite Ez in Hlen. lia.
        -- destruct (Z.rem i (mw + 1) =? 0);
             eexists; (split; [reflexivity | cbn; lia]).
Qed.

Lemma pc_getTableLine_total (p : PerColumn.Pager)
      (start middle end_ : rune) :
  exists line,
    PerColumn.getTableLine p start middle end_ = Ok line /\
    len line = Z.max 0 (PerColumn.countMaxJoinedLength p).
Proof.
  unfold PerColumn.getTableLine.
  set (L := PerColumn.countMaxJoinedLength p).
  assert (Hrem : Z.to_nat L = O \/ 0 + Z.of_nat (Z.to_nat L) <= L) by lia.
  assert (Hj : 0 + 1 <= len (PerColumn.maxWidth p)
               \/ len (PerColumn.maxWidth p) = 0).
  { destruct (PerColumn.maxWidth p) as [|w l]; [right; reflexivity | left].
    rewrite len_cons. pose proof (len_nonneg l). lia. }
  destruct (pc_tableLineLoop_total (PerColumn.maxWidth p) L
              start middle end_ (pc_countMaxJoinedLength_sum p)
              (Z.to_nat L) 0 0 (Z.le_refl 0) Hrem (Z.le_refl 0) Hj)
    as (line & Hline & Hl).
  exists line. split; [exact Hline|]. unfold len. lia.
Qed.

Lemma un_getTableLine_total (p : Uniform.Pager) (nfields : Z)
      (start middle end_ : rune) :
  exists line,
    Uniform.getTableLine p nfields start middle end_ = Ok line /\
    len line = Z.max 0 (Uniform.countMaxJoinedLength p).
Proof.
  unfold Uniform.getTableLine.
  set (L := Uniform.countMaxJoinedLength p).
  assert (Hrem : Z.to_nat L = O \/ 0 + Z.of_nat (Z.to_nat L) <= L) by lia.
  destruct (un_tableLineLoop_total (Uniform.maxWidth p)
              (Uniform.maxFields p) L start middle end_ eq_refl
              (Z.to_nat L) 0 (Z.le_refl 0) Hrem)
    as (line & Hline & Hl).
  exists line. split; [exact Hline|]. unfold len. lia.
Qed.

(** [getTableLine], and so the header, separator and footer lines, never
    panics, whatever the pager holds, and has exactly
    [countMaxJoinedLength] code points (none when that number is not
    positive), in both listings. *)
Theorem getTableLine_has_table_length :
  (forall (p : PerColumn.Pager) (start middle end_ : rune),
      exists line,
        PerColumn.getTableLine p start middle end_ = Ok line /\
        len line = Z.max 0 (PerColumn.countMaxJoinedLength p)) /\
  (forall (p : Uniform.Pager) (nfields : Z) (start middle end_ : rune),
      exists line,
        Uniform.getTableLine p nfields start middle end_ = Ok line /\
        len line = Z.max 0 (Uniform.countMaxJoinedLength p)).
Proof.
  split.
  - apply pc_getTableLine_total.
  - apply un_getTableLine_total.
Qed.

(** ** Records and the widths they are drawn with *)

Lemma fitsWidths_own (r : record) :
  forall mw, fitsWidths (joinWidths mw (map RuneCountInString r)) r.
Proof.
  induction r as [|f r IH]; intros mw; [exact I|].
  destruct mw as [|w mw]; cbn [map joinWidths fitsWidths].
  - split; [lia | apply (IH [])].
  - split; [lia | apply IH].
Qed.

Lemma fitsWidths_join (r : record) :
  forall mw x, fitsWidths mw r -> fitsWidths (joinWidths mw x) r.
Proof.
  induction r as [|f r IH]; intros mw x H; [exact I|].
  destruct mw as [|w mw]; [destruct H|].
  destruct H as [Hf Hr].
  destruct x as [|y x]; cbn [joinWidths fitsWidths].
  - auto.
  - split; [lia | now apply IH].
Qed.

Lemma fold_measure_fits (records : list record) :
  forall mw,
    Forall (fitsWidths (fold_left PerColumn.measure records mw)) records.
Proof.
  induction records as [|r rs IH]; intros mw; [constructor|].
  cbn [fold_left]. constructor; [|apply IH].
  rewrite fold_measure_joins. apply fitsWidths_join.
  rewrite measure_joins. apply fitsWidths_own.
Qed.

Lemma un_widenLoop_covers (r : record) :
  forall mw, mw <= Uniform.widenLoop mw r /\
             fitsWidth (Uniform.widenLoop mw r) r.
Proof.
  unfold fitsWidth.
  induction r as [|f r IH]; intros mw; [split; [cbn; lia | constructor]|].
  cbn [Uniform.widenLoop].
  destruct (IH (Z.max mw (RuneCountInString f))) as [Hle Hall].
  split; [lia|]. constructor; [lia | exact Hall].
Qed.

Lemma fitsWidth_wider (mw mw' : Z) (r : record) :
  mw <= mw' -> fitsWidth mw r -> fitsWidth mw' r.
Proof.
  unfold fitsWidth. intros Hle H.
  eapply Forall_impl; [|exact H]. cbn. intros; lia.
Qed.

Lemma un_fold_widen_covers (records : list record) :
  forall mw,
    mw <= fold_left Uniform.widenLoop records mw /\
    Forall (fitsWidth (fold_left Uniform.widenLoop records mw)) records.
Proof.
  induction records as [|r rs IH]; intros mw; [split; [cbn; lia|constructor]|].
  cbn [fold_left].
  destruct (IH (Uniform.widenLoop mw r)) as [Hle Hall].
  destruct (un_widenLoop_covers r mw) as [Hle' Hfit].
  split; [lia|]. constructor; [|exact Hall].
  now apply (fitsWidth_wider (Uniform.widenLoop mw r)).
Qed.

Lemma un_fold_fields_covers (records : list record) :
  forall mf,
    mf <= fold_left (fun m r => Z.max m (len r)) records mf /\
    Forall (fun r => len r
                     <= fold_left (fun m r => Z.max m (len r)) records mf)
           records.
Proof.
  induction records as [|r rs IH]; intros mf; [split; [cbn; lia|constructor]|].
  cbn [fold_left].
  destruct (IH (Z.max mf (len r))) as [Hle Hall].
  split; [lia|]. constructor; [lia | exact Hall].
Qed.

Lemma pc_readLines_fits (env : Env) (p p' : PerColumn.Pager)
      (records : list record) :
  PerColumn.readLines env p = Ok (p', records) ->
  Forall (fitsWidths (PerColumn.maxWidth p')) records.
Proof.
  intros H. apply pc_readLines_inv in H as (rs & -> & ->). cbn.
  apply fold_measure_fits.
Qed.

Lemma un_readLines_fits (env : Env) (p p' : Uniform.Pager)
      (records : list record) :
  Uniform.readLines env p = Ok (p', records) ->
  Forall (fitsWidth (Uniform.maxWidth p')) records /\
  Forall (fun r => len r <= Uniform.maxFields p') records.
Proof.
  intros H. apply un_readLines_inv in H as (rs & -> & ->). cbn. split.
  - apply un_fold_widen_covers.
  - apply un_fold_fields_covers.
Qed.

(** Every record [readLines] returns fits the metrics it leaves in the
    pager: no record has more fields than there are columns, and no field
    is wider than its column, whatever the metrics were before. *)
Theorem readLines_records_fit_metrics :
  (forall (env : Env) (p p' : PerColumn.Pager) (records : list record),
      PerColumn.readLines env p = Ok (p', records) ->
      Forall (fitsWidths (PerColumn.maxWidth p')) records) /\
  (forall (env : Env) (p p' : Uniform.Pager) (records : list record),
      Uniform.readLines env p = Ok (p', records) ->
      Forall (fitsWidth (Uniform.maxWidth p')) records /\
      Forall (fun r => len r <= Uniform.maxFields p') records).
Proof.
  split.
  - apply pc_readLines_fits.
  - apply un_readLines_fits.
Qed.

(** The window "a,bbb\ncc\n" read by a pager that has seen nothing. *)
Lemma readLines_records_fit_metrics_witness :
  (PerColumn.readLines (mkEnv 80 24 [x2c] plainRecords)
     (PerColumn.mkPager 0 []
        (mkFile [x61; x2c; x62; x62; x62; NL; x63; x63; NL] 0) None)
   = Ok (PerColumn.mkPager 0 [2; 3]
           (mkFile [x61; x2c; x62; x62; x62; NL; x63; x63; NL] 0) None,
         [[[97]; [98; 98; 98]]; [[99; 99]]]) /\
   Forall (fitsWidths [2; 3]) [[[97]; [98; 98; 98]]; [[99; 99]]]) /\
  (Uniform.readLines (mkEnv 80 24 [x2c] plainRecords)
     (Uniform.mkPager 0 0 0 0
        (mkFile [x61; x2c; x62; x62; x62; NL; x63; x63; NL] 0))
   = Ok (Uniform.mkPager 0 0 2 3
           (mkFile [x61; x2c; x62; x62; x62; NL; x63; x63; NL] 0),
         [[[97]; [98; 98; 98]]; [[99; 99]]]) /\
   Forall (fitsWidth 3) [[[97]; [98; 98; 98]]; [[99; 99]]] /\
   Forall (fun r => len r <= 2) [[[97]; [98; 98; 98]]; [[99; 99]]]).
Proof.
  split.
  - split; [reflexivity|].
    exact (proj1 readLines_records_fit_metrics
             (mkEnv 80 24 [x2c] plainRecords)
             (PerColumn.mkPager 0 []
                (mkFile [x61; x2c; x62; x62; x62; NL; x63; x63; NL] 0) None)
             _ _ eq_refl).
  - split; [reflexivity|].
    exact (proj2 readLines_records_fit_metrics
             (mkEnv 80 24 [x2c] plainRecords)
             (Uniform.mkPager 0 0 0 0
                (mkFile [x61; x2c; x62; x62; x62; NL; x63; x63; NL] 0))
             _ _ eq_refl).
Defined.

Lemma indexAt_middle {A : Type} (done l : list A) (a : A) :
  indexAt (done ++ a :: l) (len done) = Ok a.
Proof.
  unfold indexAt, len.
  destruct (Z.ltb_spec (Z.of_nat (length done)) 0); [lia|].
  rewrite Nat2Z.id, nth_error_app2 by lia.
  now rewrite Nat.sub_diag.
Qed.

Lemma pc_dataFieldsLoop_fits (r : record) :
  forall done mw,
    fitsWidths mw r ->
    exists tail,
      PerColumn.dataFieldsLoop (done ++ mw) (len done) r = Ok tail /\
      len tail = sum (firstn (length r) mw) + len r.
Proof.
  induction r as [|f r IH]; intros done mw Hfit.
  - exists []. split; reflexivity.
  - destruct mw as [|w mw]; [destruct Hfit|].
    destruct Hfit as [Hf Hr].
    cbn [PerColumn.dataFieldsLoop]. rewrite indexAt_middle. cbn [bind].
    destruct (padString_fits f w Hf) as (pad & -> & _ & Hpad).
    cbn [bind].
    destruct (IH (done ++ [w]) mw Hr) as (tail & Htail & Hlen).
    replace (len done + 1) with (len (done ++ [w]))
      by (now rewrite len_app, len_cons, len_nil).
    replace (done ++ w :: mw) with ((done ++ [w]) ++ mw)
      by (now rewrite <- app_assoc).
    rewrite Htail. cbn [bind].
    eexists. split; [reflexivity|].
    rewrite len_app, len_cons, Hpad, Hlen.
    cbn [length firstn]. rewrite sum_cons, len_cons. lia.
Qed.

Lemma pc_getDataFields_fits (p : PerColumn.Pager) (r : record) :
  fitsWidths (PerColumn.maxWidth p) r ->
  exists row,
    PerColumn.getDataFields p r = Ok row /\
    len row = 1 + sum (firstn (length r) (PerColumn.maxWidth p)) + len r.
Proof.
  intros Hfit. unfold PerColumn.getDataFields.
  destruct (pc_dataFieldsLoop_fits r [] _ Hfit) as (tail & Htail & Hlen).
  cbn [app] in Htail. change (len (@nil Z)) with 0 in Htail.
  rewrite Htail. cbn [bind].
  eexists. split; [reflexivity|]. rewrite len_cons. lia.
Qed.

Lemma un_dataFieldsLoop_fits (mw : Z) (r : record) :
  fitsWidth mw r ->
  exists tail,
    Uniform.dataFieldsLoop mw r = Ok tail /\
    len tail = (mw + 1) * len r.
Proof.
  unfold fitsWidth.
  induction 1 as [|f r Hf Hr IH].
  - exists []. split; [reflexivity | cbn; lia].
  - cbn [Uniform.dataFieldsLoop].
    destruct (padString_fits f mw Hf) as (pad & -> & _ & Hpad).
    cbn [bind]. destruct IH as (tail & -> & Hlen). cbn [bind].
    eexists. split; [reflexivity|].
    rewrite len_app, !len_cons, Hpad, Hlen. lia.
Qed.

Lemma un_getDataFields_fits (p : Uniform.Pager) (r : record) :
  fitsWidth (Uniform.maxWidth p) r ->
  exists row,
    Uniform.getDataFields p r = Ok row /\
    len row = 1 + (Uniform.maxWidth p + 1) * len r.
Proof.
  intros Hfit. unfold Uniform.getDataFields.
  destruct (un_dataFieldsLoop_fits _ r Hfit) as (tail & -> & Hlen).
  cbn [bind]. eexists. split; [reflexivity|]. rewrite len_cons. lia.
Qed.

(** On a record that fits the pager's widths, [getDataFields] succeeds
    and the row has one bar, then for each field its column's width and
    one bar.  A record with as many fields as the table has columns gives
    a row exactly as long as the border lines. *)
Theorem getDataFields_row_length :
  (forall (p : PerColumn.Pager) (r : record),
      fitsWidths (PerColumn.maxWidth p) r ->
      exists row,
        PerColumn.getDataFields p r = Ok row /\
        len row = 1 + sum (firstn (length r) (PerColumn.maxWidth p)) + len r /\
        (length r = length (PerColumn.maxWidth p) ->
         len row = PerColumn.countMaxJoinedLength p)) /\
  (forall (p : Uniform.Pager) (r : record),
      fitsWidth (Uniform.maxWidth p) r ->
      exists row,
        Uniform.getDataFields p r = Ok row /\
        len row = 1 + (Uniform.maxWidth p + 1) * len r /\
        (len r = Uniform.maxFields p ->
         len row = Uniform.countMaxJoinedLength p)).
Proof.
  split.
  - intros p r Hfit.
    destruct (pc_getDataFields_fits p r Hfit) as (row & Hrow & Hlen).
    exists row. repeat split; auto.
    intros Hfull. rewrite Hlen, Hfull, firstn_all.
    rewrite pc_countMaxJoinedLength_sum. unfold len. lia.
  - intros p r Hfit.
    destruct (un_getDataFields_fits p r Hfit) as (row & Hrow & Hlen).
    exists row. repeat split; auto.
    intros Hfull. rewrite Hlen, Hfull.
    unfold Uniform.countMaxJoinedLength. lia.
Qed.

(** The record "a", "bbb" drawn with widths 2 and 3. *)
Lemma getDataFields_row_length_witness :
  (fitsWidths [2; 3] [[97]; [98; 98; 98]] /\
   exists row,
     PerColumn.getDataFields (PerColumn.mkPager 0 [2; 3] (mkFile [] 0) None)
                             [[97]; [98; 98; 98]] = Ok row /\
     len row = 1 + sum (firstn 2 [2; 3]) + 2 /\
     (2%nat = 2%nat -> len row = 8)) /\
  (fitsWidth 3 [[97]; [98; 98; 98]] /\
   exists row,
     Uniform.getDataFields (Uniform.mkPager 0 0 2 3 (mkFile [] 0))
                           [[97]; [98; 98; 98]] = Ok row /\
     len row = 1 + (3 + 1) * 2 /\
     (2 = 2 -> len row = 9)).
Proof.
  assert (H1 : fitsWidths [2; 3] [[97]; [98; 98; 98]])
    by (cbn; repeat split; lia).
  assert (H2 : fitsWidth 3 [[97]; [98; 98; 98]])
    by (repeat constructor; cbn; lia).
  split.
  - split; [exact H1|].
    exact (proj1 getDataFields_row_length
             (PerColumn.mkPager 0 [2; 3] (mkFile [] 0) None)
             [[97]; [98; 98; 98]] H1).
  - split; [exact H2|].
    exact (proj2 getDataFields_row_length
             (Uniform.mkPager 0 0 2 3 (mkFile [] 0))
             [[97]; [98; 98; 98]] H2).
Defined.

(** ** The rendered window *)

Lemma clipLine_length (shift w : Z) (pl out : gostring) :
  clipLine shift w pl = Ok out ->
  len out = Z.min (len pl) (shift + w) - shift /\ 0 <= shift <= len pl.
Proof.
  unfold clipLine. intros H. split.
  - now apply sliceRange_length in H.
  - unfold sliceRange in H.
    destruct (Z.leb_spec 0 shift); [|discriminate].
    destruct (Z.leb_spec shift (Z.min (len pl) (shift + w)));
      [|discriminate].
    lia.
Qed.

Lemma clipLines_widths (shift w : Z) (window : list gostring) :
  forall out, clipLines shift w window = Ok out ->
              Forall (fun l => len l <= w) out.
Proof.
  induction window as [|pl rest IH]; intros out H.
  - injection H as <-. constructor.
  - cbn [clipLines] in H.
    destruct (clipLine shift w pl) as [t| | |] eqn:E; try discriminate.
    cbn [bind] in H.
    destruct (clipLines shift w rest) as [rest'| | |]; try discriminate.
    cbn [bind] in H. injection H as <-.
    constructor; [|now apply IH].
    apply clipLine_length in E. lia.
Qed.

Lemma clipLines_inside (shift w : Z) (window : list gostring) :
  0 <= shift -> 0 <= w ->
  Forall (fun l => shift <= len l) window ->
  exists out, clipLines shift w window = Ok out.
Proof.
  intros Hs Hw. induction 1 as [|pl rest Hpl Hrest (out & IH)].
  - now exists [].
  - cbn [clipLines]. rewrite clipLine_inside by lia. cbn [bind].
    rewrite IH. cbn [bind]. eauto.
Qed.

Lemma Forall_removelast {A : Type} (Q : A -> Prop) (l : list A) :
  Forall Q l -> Forall Q (removelast l).
Proof.
  induction 1 as [|a l Ha Hl IH]; [constructor|].
  destruct l as [|b l]; [constructor|].
  change (removelast (a :: b :: l)) with (a :: removelast (b :: l)).
  now constructor.
Qed.

Lemma Forall_firstn {A : Type} (Q : A -> Prop) (n : nat) (l : list A) :
  Forall Q l -> Forall Q (firstn n l).
Proof.
  intros H. revert n.
  induction H as [|a l Ha Hl IH]; intros [|k]; cbn; auto.
Qed.

Lemma replace_last_length {A : Type} (window : list A) (a footer : A) :
  length (removelast (a :: window) ++ [footer]) = S (length window).
Proof.
  revert a. induction window as [|b window IH]; intros a; [reflexivity|].
  change (removelast (a :: b :: window)) with (a :: removelast (b :: window)).
  cbn [app length]. f_equal. apply IH.
Qed.

(** The record loop of the first listing, on records that fit. *)
Lemma pc_windowLoop_fits (env : Env) (p : PerColumn.Pager)
      (dataFooter : gostring) (Q : gostring -> Prop) :
  Q dataFooter ->
  forall lines window,
    Forall (fun r => fitsWidths (PerColumn.maxWidth p) r /\
                     forall row, PerColumn.getDataFields p r = Ok row -> Q row)
           lines ->
    Forall Q window ->
    exists out,
      PerColumn.windowLoop env p dataFooter lines window = Ok out /\
      Forall Q out /\
      (length window <= length out)%nat /\
      (len window + 2 * len lines <= height env + 1 ->
       len out = len window + 2 * len lines).
Proof.
  intros Hdf. induction lines as [|r rest IH]; intros window Hlines Hwin.
  - exists window. repeat split; auto. unfold len. cbn [length]. lia.
  - inversion Hlines as [|? ? [Hfit Hrow] Hrest]; subst.
    cbn [PerColumn.windowLoop]. rewrite len_cons.
    destruct (Z.geb_spec (len window) (height env)) as [Hge|Hlt].
    + exists window. repeat split; auto.
      pose proof (len_nonneg rest). lia.
    + destruct (pc_getDataFields_fits p r Hfit) as (row & Hr & _).
      rewrite Hr. cbn [bind].
      destruct (IH (window ++ [row; dataFooter]) Hrest)
        as (out & Hout & HQ & Hlen & Hcount).
      { apply Forall_app. split; [assumption|].
        repeat constructor; auto. }
      exists out. repeat split; auto.
      * rewrite length_app in Hlen. cbn in Hlen. lia.
      * intros Hroom. rewrite Hcount; rewrite len_app, !len_cons, len_nil; lia.
Qed.

Lemma un_windowLoop_fits (env : Env) (p : Uniform.Pager)
      (dataFooter : gostring) (Q : gostring -> Prop) :
  Q dataFooter ->
  forall lines window,
    Forall (fun r => fitsWidth (Uniform.maxWidth p) r /\
                     forall row, Uniform.getDataFields p r = Ok row -> Q row)
           lines ->
    Forall Q window ->
    exists out,
      Uniform.windowLoop env p dataFooter lines window = Ok out /\
      Forall Q out /\
      (length window <= length out)%nat /\
      (len window + 2 * len lines <= height env + 1 ->
       len out = len window + 2 * len lines).
Proof.
  intros Hdf. induction lines as [|r rest IH]; intros window Hlines Hwin.
  - exists window. repeat split; auto. unfold len. cbn [length]. lia.
  - inversion Hlines as [|? ? [Hfit Hrow] Hrest]; subst.
    cbn [Uniform.windowLoop]. rewrite len_cons.
    destruct (Z.geb_spec (len window) (height env)) as [Hge|Hlt].
    + exists window. repeat split; auto.
      pose proof (len_nonneg rest). lia.
    + destruct (un_getDataFields_fits p r Hfit) as (row & Hr & _).
      rewrite Hr. cbn [bind].
      destruct (IH (window ++ [row; dataFooter]) Hrest)
        as (out & Hout & HQ & Hlen & Hcount).
      { apply Forall_app. split; [assumption|].
        repeat constructor; auto. }
      exists out. repeat split; auto.
      * rewrite length_app in Hlen. cbn in Hlen. lia.
      * intros Hroom. rewrite Hcount; rewrite len_app, !len_cons, len_nil; lia.
Qed.

(** What [getPrintableLines] needs to succeed, first listing. *)
Lemma pc_getPrintableLines_inside (env : Env) (p : PerColumn.Pager)
      (lines : list record) :
  0 <= PerColumn.horizontalShift p -> 0 <= width env -> 0 <= height env ->
  PerColumn.horizontalShift p <= Z.max 0 (PerColumn.countMaxJoinedLength p) ->
  Forall (fun r =>
            fitsWidths (PerColumn.maxWidth p) r /\
            PerColumn.horizontalShift p
            <= 1 + sum (firstn (length r) (PerColumn.maxWidth p)) + len r)
         lines ->
  exists frame,
    PerColumn.getPrintableLines env p lines = Ok frame /\
    (2 * len lines <= height env ->
     len frame = Z.min (height env) (2 * len lines + 1)).
Proof.
  intros Hs Hw Hh HL Hlines. unfold PerColumn.getPrintableLines.
  destruct (pc_getTableLine_total p gHeaderStart gHeaderMiddle gHeaderEnd)
    as (header & Hhd & Hhl).
  destruct (pc_getTableLine_total p gDataStart gDataMiddle gDataEnd)
    as (df & Hdf & Hdl).
  destruct (pc_getTableLine_total p gFooterStart gFooterMiddle gFooterEnd)
    as (footer & Hft & Hfl).
  unfold PerColumn.getTableHeaderLine, PerColumn.getDataLine,
    PerColumn.getTableFooterLine.
  rewrite Hhd, Hdf, Hft. cbn [bind].
  set (Q := fun l : gostring => PerColumn.horizontalShift p <= len l).
  destruct (pc_windowLoop_fits env p df Q) with (lines := lines)
                                                (window := [header])
    as (window & Hwin & HQ & Hne & Hcount).
  { unfold Q. lia. }
  { eapply Forall_impl; [|exact Hlines]. cbv beta. intros r [Hfit Hrow].
    split; [assumption|]. intros row Hr.
    destruct (pc_getDataFields_fits p r Hfit) as (row' & Hr' & Hlen).
    assert (row = row') by congruence. subst row'. unfold Q. lia. }
  { constructor; [unfold Q; lia | constructor]. }
  rewrite Hwin. cbn [bind].
  destruct window as [|l0 window]; [cbn in Hne; lia|].
  cbn [setLast bind].
  set (closed := removelast (l0 :: window) ++ [footer]).
  assert (HQc : Forall Q closed).
  { apply Forall_app. split; [now apply Forall_removelast|].
    constructor; [unfold Q; lia | constructor]. }
  assert (Hlc : len closed = len (l0 :: window)).
  { unfold closed, len. now rewrite replace_last_length. }
  rewrite sliceRange_prefix by (pose proof (len_nonneg closed); lia).
  cbn [bind].
  destruct (clipLines_inside (PerColumn.horizontalShift p) (width env)
              (firstn (Z.to_nat (Z.min (height env) (len closed))) closed))
    as (frame & Hframe); auto.
  { now apply Forall_firstn. }
  exists frame. split; [exact Hframe|].
  intros Hroom. apply clipLines_length in Hframe.
  assert (Hc : len (l0 :: window) = len [header] + 2 * len lines)
    by (apply Hcount; change (len [header]) with 1; lia).
  change (len [header]) with 1 in Hc.
  unfold len in *. rewrite Hframe, length_firstn. lia.
Qed.

Lemma un_getPrintableLines_inside (env : Env) (p : Uniform.Pager)
      (lines : list record) :
  0 <= Uniform.horizontalShift p -> 0 <= width env -> 0 <= height env ->
  Uniform.horizontalShift p <= Z.max 0 (Uniform.countMaxJoinedLength p) ->
  Forall (fun r =>
            fitsWidth (Uniform.maxWidth p) r /\
            Uniform.horizontalShift p
            <= 1 + (Uniform.maxWidth p + 1) * len r)
         lines ->
  exists frame,
    Uniform.getPrintableLines env p lines = Ok frame /\
    (2 * len lines <= height env ->
     len frame = Z.min (height env) (2 * len lines + 1)).
Proof.
  intros Hs Hw Hh HL Hlines. unfold Uniform.getPrintableLines.
  destruct (un_getTableLine_total p (Uniform.maxFields p)
              gHeaderStart gHeaderMiddle gHeaderEnd)
    as (header & Hhd & Hhl).
  destruct (un_getTableLine_total p (Uniform.maxFields p)
              gDataStart gDataMiddle gDataEnd)
    as (df & Hdf & Hdl).
  destruct (un_getTableLine_total p (Uniform.maxFields p)
              gFooterStart gFooterMiddle gFooterEnd)
    as (footer & Hft & Hfl).
  unfold Uniform.getTableHeaderLine, Uniform.getDataLine,
    Uniform.getTableFooterLine.
  rewrite Hhd, Hdf, Hft. cbn [bind].
  set (Q := fun l : gostring => Uniform.horizontalShift p <= len l).
  destruct (un_windowLoop_fits env p df Q) with (lines := lines)
                                                (window := [header])
    as (window & Hwin & HQ & Hne & Hcount).
  { unfold Q. lia. }
  { eapply Forall_impl; [|exact Hlines]. cbv beta. intros r [Hfit Hrow].
    split; [assumption|]. intros row Hr.
    destruct (un_getDataFields_fits p r Hfit) as (row' & Hr' & Hlen).
    assert (row = row') by congruence. subst row'. unfold Q. lia. }
  { constructor; [unfold Q; lia | constructor]. }
  rewrite Hwin. cbn [bind].
  destruct window as [|l0 window]; [cbn in Hne; lia|].
  cbn [setLast bind].
  set (closed := removelast (l0 :: window) ++ [footer]).
  assert (HQc : Forall Q closed).
  { apply Forall_app. split; [now apply Forall_removelast|].
    constructor; [unfold Q; lia | constructor]. }
  assert (Hlc : len closed = len (l0 :: window)).
  { unfold closed, len. now rewrite replace_last_length. }
  rewrite sliceRange_prefix by (pose proof (len_nonneg closed); lia).
  cbn [bind].
  destruct (clipLines_inside (Uniform.horizontalShift p) (width env)
              (firstn (Z.to_nat (Z.min (height env) (len closed))) closed))
    as (frame & Hframe); auto.
  { now apply Forall_firstn. }
  exists frame. split; [exact Hframe|].
  intros Hroom. apply clipLines_length in Hframe.
  assert (Hc : len (l0 :: window) = len [header] + 2 * len lines)
    by (apply Hcount; change (len [header]) with 1; lia).
  change (len [header]) with 1 in Hc.
  unfold len in *. rewrite Hframe, length_firstn. lia.
Qed.

Lemma pc_getPrintableLines_within (env : Env) (p : PerColumn.Pager)
      (lines : list record) (frame : list gostring) :
  PerColumn.getPrintableLines env p lines = Ok frame ->
  len frame <= height env /\ Forall (fun l => len l <= width env) frame.
Proof.
  intros H. unfold PerColumn.getPrintableLines in H.
  destruct (PerColumn.getTableHeaderLine p) as [header| | |];
    try discriminate; cbn [bind] in H.
  destruct (PerColumn.getDataLine p) as [df| | |];
    try discriminate; cbn [bind] in H.
  destruct (PerColumn.getTableFooterLine p) as [footer| | |];
    try discriminate; cbn [bind] in H.
  destruct (PerColumn.windowLoop env p df lines [header]) as [window| | |];
    try discriminate; cbn [bind] in H.
  destruct (setLast window footer) as [closed| | |];
    try discriminate; cbn [bind] in H.
  destruct (sliceRange closed 0 (Z.min (height env) (len closed)))
    as [cut| | |] eqn:Hcut; try discriminate; cbn [bind] in H.
  apply sliceRange_length in Hcut.
  split.
  + apply clipLines_length in H. unfold len in *. lia.
  + now apply clipLines_widths in H.
Qed.

Lemma un_getPrintableLines_within (env : Env) (p : Uniform.Pager)
      (lines : list record) (frame : list gostring) :
  Uniform.getPrintableLines env p lines = Ok frame ->
  len frame <= height env /\ Forall (fun l => len l <= width env) frame.
Proof.
  intros H. unfold Uniform.getPrintableLines in H.
  destruct (Uniform.getTableHeaderLine p) as [header| | |];
    try discriminate; cbn [bind] in H.
  destruct (Uniform.getDataLine p) as [df| | |];
    try discriminate; cbn [bind] in H.
  destruct (Uniform.getTableFooterLine p) as [footer| | |];
    try discriminate; cbn [bind] in H.
  destruct (Uniform.windowLoop env p df lines [header]) as [window| | |];
    try discriminate; cbn [bind] in H.
  destruct (setLast window footer) as [closed| | |];
    try discriminate; cbn [bind] in H.
  destruct (sliceRange closed 0 (Z.min (height env) (len closed)))
    as [cut| | |] eqn:Hcut; try discriminate; cbn [bind] in H.
  apply sliceRange_length in Hcut.
  split.
  + apply clipLines_length in H. unfold len in *. lia.
  + now apply clipLines_widths in H.
Qed.

(** A frame never exceeds the terminal: when [getPrintableLines]
    returns, it returns at most [height] lines and no line has more than
    [width] code points, in both listings. *)
Theorem getPrintableLines_within_terminal :
  (forall (env : Env) (p : PerColumn.Pager) (lines : list record)
          (frame : list gostring),
      PerColumn.getPrintableLines env p lines = Ok frame ->
      len frame <= height env /\
      Forall (fun l => len l <= width env) frame) /\
  (forall (env : Env) (p : Uniform.Pager) (lines : list record)
          (frame : list gostring),
      Uniform.getPrintableLines env p lines = Ok frame ->
      len frame <= height env /\
      Forall (fun l => len l <= width env) frame).
Proof.
  split.
  - intros env p lines frame. apply pc_getPrintableLines_within.
  - intros env p lines frame. apply un_getPrintableLines_within.
Qed.

(** The window "aaaa,bbbb,cccc\nd\n" on a terminal of 8 by 3. *)
Lemma getPrintableLines_within_terminal_witness :
  let frame := [[gHeaderStart; gFill; gFill; gFill; gFill; gHeaderMiddle;
                 gFill; gFill];
                [gBar; 97; 97; 97; 97; gBar; 98; 98];
                [gFooterStart; gFill; gFill; gFill; gFill; gFooterMiddle;
                 gFill; gFill]] in
  (PerColumn.getPrintableLines (mkEnv 8 3 [x2c] plainRecords)
     (PerColumn.mkPager 0 [4; 4; 4] (mkFile [] 0) None)
     [[[97; 97; 97; 97]; [98; 98; 98; 98]; [99; 99; 99; 99]]; [[100]]]
   = Ok frame /\
   len frame <= 3 /\ Forall (fun l => len l <= 8) frame) /\
  (Uniform.getPrintableLines (mkEnv 8 3 [x2c] plainRecords)
     (Uniform.mkPager 0 0 3 4 (mkFile [] 0))
     [[[97; 97; 97; 97]; [98; 98; 98; 98]; [99; 99; 99; 99]]; [[100]]]
   = Ok frame /\
   len frame <= 3 /\ Forall (fun l => len l <= 8) frame).
Proof.
  cbv zeta. split.
  - split; [reflexivity|].
    apply (proj1 getPrintableLines_within_terminal
             (mkEnv 8 3 [x2c] plainRecords)
             (PerColumn.mkPager 0 [4; 4; 4] (mkFile [] 0) None)
             [[[97; 97; 97; 97]; [98; 98; 98; 98]; [99; 99; 99; 99]];
              [[100]]]).
    reflexivity.
  - split; [reflexivity|].
    apply (proj2 getPrintableLines_within_terminal
             (mkEnv 8 3 [x2c] plainRecords)
             (Uniform.mkPager 0 0 3 4 (mkFile [] 0))
             [[[97; 97; 97; 97]; [98; 98; 98; 98]; [99; 99; 99; 99]];
              [[100]]]).
    reflexivity.
Defined.

(** [getPrintableLines] succeeds whenever the records fit the widths and
    the shift is inside every line it draws (the border lines and the
    row of each record); the frame then has [min(height, 2k + 1)] lines
    for [k] records, provided [2k <= height].  With a full page on a
    terminal of even height the footer is the line that is cut. *)
Theorem getPrintableLines_succeeds_inside_lines :
  (forall (env : Env) (p : PerColumn.Pager) (lines : list record),
      0 <= PerColumn.horizontalShift p -> 0 <= width env ->
      0 <= height env ->
      PerColumn.horizontalShift p
      <= Z.max 0 (PerColumn.countMaxJoinedLength p) ->
      Forall (fun r =>
                fitsWidths (PerColumn.maxWidth p) r /\
                PerColumn.horizontalShift p
                <= 1 + sum (firstn (length r) (PerColumn.maxWidth p)) + len r)
             lines ->
      exists frame,
        PerColumn.getPrintableLines env p lines = Ok frame /\
        (2 * len lines <= height env ->
         len frame = Z.min (height env) (2 * len lines + 1))) /\
  (forall (env : Env) (p : Uniform.Pager) (lines : list record),
      0 <= Uniform.horizontalShift p -> 0 <= width env ->
      0 <= height env ->
      Uniform.horizontalShift p
      <= Z.max 0 (Uniform.countMaxJoinedLength p) ->
      Forall (fun r =>
                fitsWidth (Uniform.maxWidth p) r /\
                Uniform.horizontalShift p
                <= 1 + (Uniform.maxWidth p + 1) * len r)
             lines ->
      exists frame,
        Uniform.getPrintableLines env p lines = Ok frame /\
        (2 * len lines <= height env ->
         len frame = Z.min (height env) (2 * len lines + 1))).
Proof.
  split.
  - apply pc_getPrintableLines_inside.
  - apply un_getPrintableLines_inside.
Qed.

(** Two full records with widths 2 and 3, shift 4, terminal 6 by 4. *)
Lemma getPrintableLines_succeeds_inside_lines_witness :
  let lines := [[[97]; [98; 98; 98]]; [[99; 99]; [100]]] in
  (exists frame,
      PerColumn.getPrintableLines (mkEnv 6 4 [x2c] plainRecords)
        (PerColumn.mkPager 4 [2; 3] (mkFile [] 0) None) lines = Ok frame /\
      (2 * len lines <= 4 -> len frame = Z.min 4 (2 * len lines + 1))) /\
  (exists frame,
      Uniform.getPrintableLines (mkEnv 6 4 [x2c] plainRecords)
        (Uniform.mkPager 0 4 2 3 (mkFile [] 0)) lines = Ok frame /\
      (2 * len lines <= 4 -> len frame = Z.min 4 (2 * len lines + 1))).
Proof.
  cbv zeta. split.
  - refine (proj1 getPrintableLines_succeeds_inside_lines
              (mkEnv 6 4 [x2c] plainRecords)
              (PerColumn.mkPager 4 [2; 3] (mkFile [] 0) None)
              [[[97]; [98; 98; 98]]; [[99; 99]; [100]]] _ _ _ _ _);
      cbn; try lia.
    repeat constructor; cbn; lia.
  - refine (proj2 getPrintableLines_succeeds_inside_lines
              (mkEnv 6 4 [x2c] plainRecords)
              (Uniform.mkPager 0 4 2 3 (mkFile [] 0))
              [[[97]; [98; 98; 98]]; [[99; 99]; [100]]] _ _ _ _ _);
      cbn; try lia.
    repeat constructor; cbn; lia.
Defined.

(** ** Rendering from the pager *)

Lemma pc_readLines_total (env : Env) (p : PerColumn.Pager) :
  acceptedComma env ->
  exists p1 records,
    PerColumn.readLines env p = Ok (p1, records) /\
    PerColumn.horizontalShift p1 = PerColumn.horizontalShift p /\
    PerColumn.file p1 = PerColumn.file p /\
    (0 <= height env -> 2 * len records <= height env).
Proof.
  intros (c & rest & Hc & Hvalid).
  unfold PerColumn.readLines, getNewCSVReader.
  rewrite Hc, Hvalid. cbn [bind].
  rewrite pc_readLoop_folds. cbn [bind].
  eexists _, _. split; [reflexivity|].
  split; [reflexivity|]. split; [reflexivity|].
  intros Hh. unfold len, countLinesFitting.
  change (length ([] ++ ?l)) with (length l).
  rewrite length_firstn.
  pose proof (Z.quot_div_nonneg (height env) 2 Hh ltac:(lia)) as E.
  rewrite E.
  pose proof (Z.mul_div_le (height env) 2 ltac:(lia)).
  pose proof (Z.div_pos (height env) 2 Hh ltac:(lia)). lia.
Qed.

Lemma un_readLines_total (env : Env) (p : Uniform.Pager) :
  acceptedComma env ->
  exists p1 records,
    Uniform.readLines env p = Ok (p1, records) /\
    Uniform.horizontalShift p1 = Uniform.horizontalShift p /\
    Uniform.file p1 = mkFile (content (Uniform.file p))
                             (offset (Uniform.file p)) /\
    (0 <= height env -> 2 * len records <= height env).
Proof.
  intros (c & rest & Hc & Hvalid).
  unfold Uniform.readLines, getNewCSVReader.
  rewrite Hc, Hvalid. cbn [bind].
  rewrite un_readLoop_folds. cbn [bind].
  eexists _, _. split; [reflexivity|].
  split; [reflexivity|]. split; [reflexivity|].
  intros Hh. unfold len, countLinesFitting.
  change (length ([] ++ ?l)) with (length l).
  rewrite length_firstn.
  pose proof (Z.quot_div_nonneg (height env) 2 Hh ltac:(lia)) as E.
  rewrite E.
  pose proof (Z.mul_div_le (height env) 2 ltac:(lia)).
  pose proof (Z.div_pos (height env) 2 Hh ltac:(lia)). lia.
Qed.

Lemma pc_render_unshifted (env : Env) (p : PerColumn.Pager) :
  acceptedComma env -> PerColumn.horizontalShift p = 0 ->
  0 <= width env -> 0 <= height env ->
  exists p1 records frame,
    PerColumn.readLines env p = Ok (p1, records) /\
    PerColumn.renderCSVWindow env p
    = Ok (PerColumn.mkPager 0 (PerColumn.maxWidth p1) (PerColumn.file p)
                            (Some frame), frame) /\
    len frame = Z.min (height env) (2 * len records + 1).
Proof.
  intros Hc Hs Hw Hh.
  destruct (pc_readLines_total env p Hc)
    as (p1 & records & Hread & Hshift & Hfile & Hcount).
  pose proof (pc_readLines_fits env p p1 records Hread) as Hfit.
  destruct (pc_getPrintableLines_inside env p1 records)
    as (frame & Hframe & Hlen); try (rewrite Hshift, Hs; lia); auto.
  { eapply Forall_impl; [|exact Hfit]. cbv beta. intros r Hr.
    split; [assumption|]. rewrite Hshift, Hs.
    destruct (pc_getDataFields_fits p1 r Hr) as (row & _ & Hrow).
    pose proof (len_nonneg row). lia. }
  exists p1, records, frame. split; [assumption|].
  split; [|auto].
  unfold PerColumn.renderCSVWindow. rewrite Hread. cbn [bind].
  rewrite Hframe. cbn [bind]. now rewrite Hshift, Hs, Hfile.
Qed.

Lemma un_render_unshifted (env : Env) (p : Uniform.Pager) :
  acceptedComma env -> Uniform.horizontalShift p = 0 ->
  0 <= width env -> 0 <= height env ->
  exists p1 records frame,
    Uniform.readLines env p = Ok (p1, records) /\
    Uniform.renderCSVWindow env p = Ok (p1, frame) /\
    len frame = Z.min (height env) (2 * len records + 1).
Proof.
  intros Hc Hs Hw Hh.
  destruct (un_readLines_total env p Hc)
    as (p1 & records & Hread & Hshift & Hfile & Hcount).
  destruct (un_readLines_fits env p p1 records Hread) as [Hfit _].
  destruct (un_getPrintableLines_inside env p1 records)
    as (frame & Hframe & Hlen); try (rewrite Hshift, Hs; lia); auto.
  { eapply Forall_impl; [|exact Hfit]. cbv beta. intros r Hr.
    split; [assumption|]. rewrite Hshift, Hs.
    destruct (un_getDataFields_fits p1 r Hr) as (row & _ & Hrow).
    pose proof (len_nonneg row). lia. }
  exists p1, records, frame. split; [assumption|].
  split; [|auto].
  unfold Uniform.renderCSVWindow. rewrite Hread. cbn [bind].
  now rewrite Hframe.
Qed.

(** On a terminal of two lines or more the read loop makes at least
    one turn. *)
Lemma countLinesFitting_turns (env : Env) :
  2 <= height env ->
  exists k, Z.to_nat (countLinesFitting env) = S k.
Proof.
  intros Hh. unfold countLinesFitting.
  rewrite Z.quot_div_nonneg by lia.
  pose proof (Z.div_le_lower_bound (height env) 2 1 ltac:(lia) ltac:(lia)).
  exists (Z.to_nat (height env / 2) - 1)%nat. lia.
Qed.

Lemma pc_readLines_rejected (env : Env) (p : PerColumn.Pager) :
  rejectedComma env -> 2 <= height env ->
  PerColumn.readLines env p = Exited.
Proof.
  intros (c & rest & Hc & Hvalid) Hh.
  destruct (countLinesFitting_turns env Hh) as (k & Hk).
  unfold PerColumn.readLines, getNewCSVReader.
  rewrite Hc, Hvalid, Hk. reflexivity.
Qed.

Lemma un_readLines_rejected (env : Env) (p : Uniform.Pager) :
  rejectedComma env -> 2 <= height env ->
  Uniform.readLines env p = Exited.
Proof.
  intros (c & rest & Hc & Hvalid) Hh.
  destruct (countLinesFitting_turns env Hh) as (k & Hk).
  unfold Uniform.readLines, getNewCSVReader.
  rewrite Hc, Hvalid, Hk. reflexivity.
Qed.

(** With a delimiter the CSV reader accepts and no horizontal shift,
    [renderCSVWindow] never panics, whatever the file, the parser's
    records and the metrics held before: it reads at most [height / 2]
    records and draws [min(height, 2k + 1)] lines for the [k] records
    read.  With a delimiter the reader rejects (NUL, the double quote,
    carriage return, line feed) the first [Read] fails and
    [log.Fatalln] ends the program, on every terminal high enough for
    the read loop to make a turn. *)
Theorem renderCSVWindow_unshifted_succeeds :
  (forall (env : Env) (p : PerColumn.Pager),
      acceptedComma env -> PerColumn.horizontalShift p = 0 ->
      0 <= width env -> 0 <= height env ->
      exists p1 records frame,
        PerColumn.readLines env p = Ok (p1, records) /\
        PerColumn.renderCSVWindow env p
        = Ok (PerColumn.mkPager 0 (PerColumn.maxWidth p1) (PerColumn.file p)
                                (Some frame), frame) /\
        len frame = Z.min (height env) (2 * len records + 1)) /\
  (forall (env : Env) (p : Uniform.Pager),
      acceptedComma env -> Uniform.horizontalShift p = 0 ->
      0 <= width env -> 0 <= height env ->
      exists p1 records frame,
        Uniform.readLines env p = Ok (p1, records) /\
        Uniform.renderCSVWindow env p = Ok (p1, frame) /\
        len frame = Z.min (height env) (2 * len records + 1)) /\
  (forall (env : Env) (p : PerColumn.Pager),
      rejectedComma env -> 2 <= height env ->
      PerColumn.renderCSVWindow env p = Exited) /\
  (forall (env : Env) (p : Uniform.Pager),
      rejectedComma env -> 2 <= height env ->
      Uniform.renderCSVWindow env p = Exited).
Proof.
  split; [|split; [|split]].
  - intros env p. apply pc_render_unshifted.
  - intros env p. apply un_render_unshifted.
  - intros env p Hrej Hh. unfold PerColumn.renderCSVWindow.
    now rewrite pc_readLines_rejected.
  - intros env p Hrej Hh. unfold Uniform.renderCSVWindow.
    now rewrite un_readLines_rejected.
Qed.

(** The first render of "a,b\nccc,d\ne,ffff\n" on a terminal of 80 by
    24, with the comma as delimiter and with the double quote. *)
Lemma renderCSVWindow_unshifted_succeeds_witness :
  let bytes := [x61; x2c; x62; NL; x63; x63; x63; x2c; x64; NL;
                x65; x2c; x66; x66; x66; x66; NL] in
  let env := mkEnv 80 24 [x2c] plainRecords in
  let quoted := mkEnv 80 24 [x22] plainRecords in
  (acceptedComma env /\ 0 <= width env /\ 0 <= height env /\
   rejectedComma quoted /\ 2 <= height quoted) /\
  (exists p1 records frame,
      PerColumn.readLines env (PerColumn.mkPager 0 [] (mkFile bytes 0) None)
      = Ok (p1, records) /\
      PerColumn.renderCSVWindow env
        (PerColumn.mkPager 0 [] (mkFile bytes 0) None)
      = Ok (PerColumn.mkPager 0 (PerColumn.maxWidth p1) (mkFile bytes 0)
                              (Some frame), frame) /\
      len frame = Z.min 24 (2 * len records + 1)) /\
  (exists p1 records frame,
      Uniform.readLines env (Uniform.mkPager 0 0 0 0 (mkFile bytes 0))
      = Ok (p1, records) /\
      Uniform.renderCSVWindow env (Uniform.mkPager 0 0 0 0 (mkFile bytes 0))
      = Ok (p1, frame) /\
      len frame = Z.min 24 (2 * len records + 1)) /\
  PerColumn.renderCSVWindow quoted
    (PerColumn.mkPager 0 [] (mkFile bytes 0) None) = Exited /\
  Uniform.renderCSVWindow quoted
    (Uniform.mkPager 0 0 0 0 (mkFile bytes 0)) = Exited.
Proof.
  cbv zeta.
  assert (Ha : acceptedComma (mkEnv 80 24 [x2c] plainRecords))
    by (exists x2c, []; split; reflexivity).
  assert (Hr : rejectedComma (mkEnv 80 24 [x22] plainRecords))
    by (exists x22, []; split; reflexivity).
  assert (Hw : 0 <= width (mkEnv 80 24 [x2c] plainRecords)) by (cbn; lia).
  assert (Hh : 0 <= height (mkEnv 80 24 [x2c] plainRecords)) by (cbn; lia).
  assert (Hh2 : 2 <= height (mkEnv 80 24 [x22] plainRecords)) by (cbn; lia).
  split; [exact (conj Ha (conj Hw (conj Hh (conj Hr Hh2))))|].
  split; [|split; [|split]].
  - exact (proj1 renderCSVWindow_unshifted_succeeds
             (mkEnv 80 24 [x2c] plainRecords)
             (PerColumn.mkPager 0 []
                (mkFile [x61; x2c; x62; NL; x63; x63; x63; x2c; x64; NL;
                         x65; x2c; x66; x66; x66; x66; NL] 0) None)
             Ha eq_refl Hw Hh).
  - exact (proj1 (proj2 renderCSVWindow_unshifted_succeeds)
             (mkEnv 80 24 [x2c] plainRecords)
             (Uniform.mkPager 0 0 0 0
                (mkFile [x61; x2c; x62; NL; x63; x63; x63; x2c; x64; NL;
                         x65; x2c; x66; x66; x66; x66; NL] 0))
             Ha eq_refl Hw Hh).
  - exact (proj1 (proj2 (proj2 renderCSVWindow_unshifted_succeeds))
             (mkEnv 80 24 [x22] plainRecords)
             (PerColumn.mkPager 0 []
                (mkFile [x61; x2c; x62; NL; x63; x63; x63; x2c; x64; NL;
                         x65; x2c; x66; x66; x66; x66; NL] 0) None)
             Hr Hh2).
  - exact (proj2 (proj2 (proj2 renderCSVWindow_unshifted_succeeds))
             (mkEnv 80 24 [x22] plainRecords)
             (Uniform.mkPager 0 0 0 0
                (mkFile [x61; x2c; x62; NL; x63; x63; x63; x2c; x64; NL;
                         x65; x2c; x66; x66; x66; x66; NL] 0))
             Hr Hh2).
Defined.

Lemma joinWidths_fits (r : record) :
  forall mw, fitsWidths mw r ->
             joinWidths mw (map RuneCountInString r) = mw.
Proof.
  induction r as [|f r IH]; intros mw H.
  - cbn. apply joinWidths_nil_r.
  - destruct mw as [|w mw]; [destruct H|]. destruct H as [Hf Hr].
    cbn [map joinWidths]. rewrite IH by assumption.
    f_equal. lia.
Qed.

Lemma fold_measure_fixed (records : list record) (mw : list Z) :
  Forall (fitsWidths mw) records ->
  fold_left PerColumn.measure records mw = mw.
Proof.
  induction 1 as [|r rs Hr Hrs IH]; [reflexivity|].
  cbn [fold_left]. rewrite measure_joins, joinWidths_fits by assumption.
  exact IH.
Qed.

Lemma un_widenLoop_fixed (r : record) (mw : Z) :
  fitsWidth mw r -> Uniform.widenLoop mw r = mw.
Proof.
  unfold fitsWidth. induction 1 as [|f r Hf Hr IH]; [reflexivity|].
  cbn [Uniform.widenLoop]. rewrite Z.max_l by assumption. exact IH.
Qed.

Lemma un_fold_widen_fixed (records : list record) (mw : Z) :
  Forall (fitsWidth mw) records ->
  fold_left Uniform.widenLoop records mw = mw.
Proof.
  induction 1 as [|r rs Hr Hrs IH]; [reflexivity|].
  cbn [fold_left]. now rewrite un_widenLoop_fixed.
Qed.

Lemma un_fold_fields_fixed (records : list record) (mf : Z) :
  Forall (fun r => len r <= mf) records ->
  fold_left (fun m r => Z.max m (len r)) records mf = mf.
Proof.
  induction 1 as [|r rs Hr Hrs IH]; [reflexivity|].
  cbn [fold_left]. now rewrite Z.max_l.
Qed.

(** A frame depends on the pager through its shift and widths only. *)
Lemma pc_getPrintableLines_ext (env : Env) (p q : PerColumn.Pager)
      (lines : list record) :
  PerColumn.horizontalShift p = PerColumn.horizontalShift q ->
  PerColumn.maxWidth p = PerColumn.maxWidth q ->
  PerColumn.getPrintableLines env p lines
  = PerColumn.getPrintableLines env q lines.
Proof.
  intros Hs Hm.
  assert (Hloop : forall df ls window,
             PerColumn.windowLoop env p df ls window
             = PerColumn.windowLoop env q df ls window).
  { intros df ls. induction ls as [|r rest IH]; intros window; [reflexivity|].
    cbn [PerColumn.windowLoop]. unfold PerColumn.getDataFields.
    rewrite Hm. destruct (len window >=? height env); [reflexivity|].
    destruct (PerColumn.dataFieldsLoop (PerColumn.maxWidth q) 0 r);
      cbn [bind]; auto. }
  unfold PerColumn.getPrintableLines, PerColumn.getTableHeaderLine,
    PerColumn.getDataLine, PerColumn.getTableFooterLine,
    PerColumn.getTableLine, PerColumn.countMaxJoinedLength.
  rewrite Hs, Hm.
  destruct (PerColumn.tableLineLoop _ _ _ 0 0 gHeaderStart _ _);
    cbn [bind]; auto.
  destruct (PerColumn.tableLineLoop _ _ _ 0 0 gDataStart _ _);
    cbn [bind]; auto.
  destruct (PerColumn.tableLineLoop _ _ _ 0 0 gFooterStart _ _);
    cbn [bind]; auto.
  now rewrite Hloop.
Qed.

(** Rendering again without a key in between changes nothing: the pager
    [renderCSVWindow] returns is a fixed point, and the same frame is
    drawn (this is what a resize signal at unchanged size does). *)
Theorem renderCSVWindow_again_is_same :
  (forall (env : Env) (p p1 : PerColumn.Pager) (frame : list gostring),
      PerColumn.renderCSVWindow env p = Ok (p1, frame) ->
      PerColumn.renderCSVWindow env p1 = Ok (p1, frame)) /\
  (forall (env : Env) (p p1 : Uniform.Pager) (frame : list gostring),
      Uniform.renderCSVWindow env p = Ok (p1, frame) ->
      Uniform.renderCSVWindow env p1 = Ok (p1, frame)).
Proof.
  split.
  - intros env p p1 frame H. unfold PerColumn.renderCSVWindow in H.
    destruct (PerColumn.readLines env p) as [[p0 records]| | |] eqn:Hread;
      try discriminate.
    cbn [bind] in H.
    destruct (PerColumn.getPrintableLines env p0 records)
      as [printable| | |] eqn:Hprint; try discriminate.
    cbn [bind] in H. injection H as <- <-.
    pose proof (pc_readLines_fits env p p0 records Hread) as Hfit.
    unfold PerColumn.readLines in Hread.
    destruct (getNewCSVReader env (PerColumn.file p)) as [reader| | |] eqn:Hrd;
      try discriminate.
    cbn [bind] in Hread.
    destruct (PerColumn.readLoop _ reader _ _) as [out| | |] eqn:Hout;
      try discriminate.
    destruct (pc_readLoop_returns _ _ _ _ _ Hout) as (rs & Hloop).
    rewrite Hloop in Hout. injection Hout as <-.
    cbn [bind] in Hread. injection Hread as <- <-.
    unfold PerColumn.renderCSVWindow, PerColumn.readLines.
    cbn [PerColumn.file PerColumn.withMaxWidth PerColumn.maxWidth
         PerColumn.horizontalShift PerColumn.prevPrintableLines] in *.
    rewrite Hrd. cbn [bind]. rewrite Hloop. cbn [bind].
    cbn [app] in *.
    set (recs := firstn (Z.to_nat (countLinesFitting env)) rs) in *.
    set (M := fold_left PerColumn.measure recs (PerColumn.maxWidth p)) in *.
    rewrite (fold_measure_fixed recs M Hfit).
    cbn [bind PerColumn.withMaxWidth PerColumn.file PerColumn.maxWidth
         PerColumn.horizontalShift PerColumn.prevPrintableLines].
    match goal with
    | |- context [PerColumn.getPrintableLines env ?q recs] =>
        rewrite (pc_getPrintableLines_ext env q
                   (PerColumn.withMaxWidth p M) recs eq_refl eq_refl)
    end.
    rewrite Hprint. reflexivity.
  - intros env p p1 frame H. unfold Uniform.renderCSVWindow in H.
    destruct (Uniform.readLines env p) as [[p0 records]| | |] eqn:Hread;
      try discriminate.
    cbn [bind] in H.
    destruct (Uniform.getPrintableLines env p0 records)
      as [printable| | |] eqn:Hprint; try discriminate.
    cbn [bind] in H. injection H as <- <-.
    destruct (un_readLines_fits env p p0 records Hread) as [Hfit Hfields].
    unfold Uniform.readLines in Hread.
    destruct (getNewCSVReader env (Uniform.file p)) as [reader| | |] eqn:Hrd;
      try discriminate.
    cbn [bind] in Hread.
    destruct (Uniform.readLoop _ reader _ _ _) as [out| | |] eqn:Hout;
      try discriminate.
    destruct (un_readLoop_returns _ _ _ _ _ _ Hout) as (rs & Hloop).
    rewrite Hloop in Hout. injection Hout as <-.
    cbn [bind] in Hread. injection Hread as <- <-.
    unfold Uniform.renderCSVWindow, Uniform.readLines.
    cbn [Uniform.file Uniform.maxWidth Uniform.maxFields
         Uniform.horizontalShift Uniform.currentOffset content offset] in *.
    replace (getNewCSVReader env
               (mkFile (content (Uniform.file p)) (offset (Uniform.file p))))
      with (Ok reader)
      by (rewrite <- Hrd; destruct (Uniform.file p); reflexivity).
    cbn [bind]. rewrite Hloop. cbn [bind app] in *.
    set (recs := firstn (Z.to_nat (countLinesFitting env)) rs) in *.
    set (M := fold_left Uniform.widenLoop recs (Uniform.maxWidth p)) in *.
    set (F := fold_left (fun m r => Z.max m (len r)) recs
                        (Uniform.maxFields p)) in *.
    rewrite (un_fold_widen_fixed recs M Hfit).
    rewrite (un_fold_fields_fixed recs F Hfields).
    cbn [bind]. rewrite Hprint. reflexivity.
Qed.

(** Two renders of "aa,b\nc\n" on a terminal of 80 by 24. *)
Lemma renderCSVWindow_again_is_same_witness :
  let env := mkEnv 80 24 [x2c] plainRecords in
  let bytes := [x61; x61; x2c; x62; NL; x63; NL] in
  (exists p1 frame,
      PerColumn.renderCSVWindow env
        (PerColumn.mkPager 0 [] (mkFile bytes 0) None) = Ok (p1, frame) /\
      PerColumn.renderCSVWindow env p1 = Ok (p1, frame)) /\
  (exists p1 frame,
      Uniform.renderCSVWindow env
        (Uniform.mkPager 0 0 0 0 (mkFile bytes 0)) = Ok (p1, frame) /\
      Uniform.renderCSVWindow env p1 = Ok (p1, frame)).
Proof.
  cbv zeta. split.
  - eexists _, _. split; [reflexivity|].
    apply (proj1 renderCSVWindow_again_is_same
             (mkEnv 80 24 [x2c] plainRecords)
             (PerColumn.mkPager 0 []
                (mkFile [x61; x61; x2c; x62; NL; x63; NL] 0) None)).
    reflexivity.
  - eexists _, _. split; [reflexivity|].
    apply (proj2 renderCSVWindow_again_is_same
             (mkEnv 80 24 [x2c] plainRecords)
             (Uniform.mkPager 0 0 0 0
                (mkFile [x61; x61; x2c; x62; NL; x63; NL] 0))).
    reflexivity.
Defined.

(** ** Counting the records of a page *)

Lemma countAvailableLoop_min (fitting : Z) (remaining : nat) :
  forall (i : Z) (reader : list record),
    i + Z.of_nat remaining = fitting ->
    countAvailableLoop remaining i (Records reader) fitting
    = Ok (i + Z.of_nat (Nat.min remaining (length reader))).
Proof.
  induction remaining as [|k IH]; intros i reader H.
  - cbn. f_equal. lia.
  - destruct reader as [|r rest].
    + cbn. f_equal. lia.
    + cbn [countAvailableLoop Read]. rewrite IH by lia.
      cbn [length Nat.min]. f_equal. lia.
Qed.

(** On a terminal of non-negative height, [countLinesAvailable] is the
    number of records [readLines] returns from the same position: the
    smaller of the page capacity [height / 2] and the number of records
    the parser finds up to the end of the file. *)
Theorem countLinesAvailable_is_window_size
        (env : Env) (p p1 : PerColumn.Pager) (records : list record) :
  0 <= height env ->
  PerColumn.readLines env p = Ok (p1, records) ->
  PerColumn.countLinesAvailable env p = Ok (len records) /\
  0 <= len records <= countLinesFitting env.
Proof.
  intros Hh H. unfold PerColumn.readLines in H.
  unfold PerColumn.countLinesAvailable.
  assert (Hfit : 0 <= countLinesFitting env).
  { unfold countLinesFitting.
    rewrite Z.quot_div_nonneg by lia. apply Z.div_pos; lia. }
  destruct (getNewCSVReader env (PerColumn.file p)) as [[reader|]| | |];
    try discriminate; cbn [bind] in *.
  - rewrite pc_readLoop_folds in H. cbn [bind] in H.
    injection H as _ <-. cbn [app].
    rewrite countAvailableLoop_min by lia.
    unfold len. rewrite length_firstn. split; [f_equal; lia | lia].
  - destruct (Z.to_nat (countLinesFitting env)) as [|k] eqn:Hk;
      [|discriminate].
    cbn [PerColumn.readLoop bind] in H. injection H as _ <-.
    cbn [countAvailableLoop]. change (len (@nil record)) with 0.
    split; [f_equal; lia | lia].
Qed.

(** "a\nb\nc\n" from offset 2 on a terminal of height 6. *)
Lemma countLinesAvailable_is_window_size_witness :
  0 <= 6 /\
  PerColumn.readLines (mkEnv 80 6 [x2c] plainRecords)
    (PerColumn.mkPager 0 [] (mkFile [x61; NL; x62; NL; x63; NL] 2) None)
  = Ok (PerColumn.mkPager 0 [1] (mkFile [x61; NL; x62; NL; x63; NL] 2) None,
        [[[98]]; [[99]]]) /\
  PerColumn.countLinesAvailable (mkEnv 80 6 [x2c] plainRecords)
    (PerColumn.mkPager 0 [] (mkFile [x61; NL; x62; NL; x63; NL] 2) None)
  = Ok 2 /\
  0 <= 2 <= 3.
Proof.
  assert (H6 : 0 <= 6) by lia.
  split; [exact H6|]. split; [reflexivity|].
  exact (countLinesAvailable_is_window_size
           (mkEnv 80 6 [x2c] plainRecords)
           (PerColumn.mkPager 0 [] (mkFile [x61; NL; x62; NL; x63; NL] 2) None)
           _ _ H6 eq_refl).
Defined.

(** ** Progress of the seeks *)

(** From a position inside the file neither seek fails or leaves the
    file: [seekForwardLine] moves strictly forward unless it is already
    at the end, and [seekBackLine] moves strictly backward unless it is
    already at offset 0. *)
Theorem seeks_move_or_stay_at_boundary (bytes : list byte) (pos : Z) :
  0 <= pos <= len bytes ->
  (exists r, seekForwardOffset bytes pos = Ok r /\
             pos <= r <= len bytes /\ (pos < len bytes -> pos < r)) /\
  (exists r, seekBackOffset bytes pos = Ok r /\
             0 <= r <= pos /\ (0 < pos -> r < pos)).
Proof.
  intros Hpos. split.
  - destruct (seekForward_lands bytes pos Hpos) as (r & Hr & Hcase).
    exists r. split; [assumption|].
    destruct Hcase as [-> | [? _]]; lia.
  - destruct (seekBack_lands bytes pos) as (r & Hr & Hcase); [lia|].
    exists r. split; [assumption|].
    destruct Hcase as [-> | [? _]]; lia.
Qed.

Lemma seeks_move_or_stay_at_boundary_witness :
  0 <= 2 <= len [x61; NL; x62; NL; x63] /\
  (exists r, seekForwardOffset [x61; NL; x62; NL; x63] 2 = Ok r /\
             2 <= r <= len [x61; NL; x62; NL; x63] /\
             (2 < len [x61; NL; x62; NL; x63] -> 2 < r)) /\
  (exists r, seekBackOffset [x61; NL; x62; NL; x63] 2 = Ok r /\
             0 <= r <= 2 /\ (0 < 2 -> r < 2)).
Proof.
  assert (H : 0 <= 2 <= len [x61; NL; x62; NL; x63]) by (cbn; lia).
  split; [exact H|].
  exact (seeks_move_or_stay_at_boundary [x61; NL; x62; NL; x63] 2 H).
Defined.

Lemma forN_back_reaches_start (bytes : list byte) (n : nat) :
  forall pos, 0 <= pos <= len bytes -> pos <= Z.of_nat n ->
              forN n (seekBackOffset bytes) pos = Ok 0.
Proof.
  induction n as [|n IH]; intros pos Hpos Hn.
  - replace pos with 0 by lia. reflexivity.
  - destruct (seekBack_lands bytes pos) as (r & Hr & Hcase); [lia|].
    rewrite forN_cons, Hr. cbn [bind].
    destruct Hcase as [-> | [Hlt _]].
    + apply forN_back_at_start.
    + apply IH; lia.
Qed.

Lemma forN_forward_reaches_end (bytes : list byte) (n : nat) :
  forall pos, 0 <= pos <= len bytes -> len bytes - pos <= Z.of_nat n ->
              forN n (seekForwardOffset bytes) pos = Ok (len bytes).
Proof.
  induction n as [|n IH]; intros pos Hpos Hn.
  - replace pos with (len bytes) by lia. reflexivity.
  - destruct (seekForward_lands bytes pos Hpos) as (r & Hr & Hcase).
    rewrite forN_cons, Hr. cbn [bind].
    destruct Hcase as [-> | [Hlt _]].
    + apply forN_forward_at_end.
    + apply IH; lia.
Qed.

(** Counts larger than the distance to a boundary clamp there:
    [seekBackwardN n] ends at offset 0 as soon as [n] is at least the
    current offset, and the second listing's [seekForwardN n] ends at the
    end of the file as soon as [n] is at least the number of bytes left;
    nothing else in the pager changes. *)
Theorem counted_seeks_clamp_at_boundaries :
  (forall (p : PerColumn.Pager) (n : Z),
      0 <= offset (PerColumn.file p) <= len (content (PerColumn.file p)) ->
      offset (PerColumn.file p) <= n ->
      PerColumn.seekBackwardN n p = Ok (PerColumn.withOffset p 0)) /\
  (forall (p : Uniform.Pager) (n : Z),
      Uniform.currentOffset p = offset (Uniform.file p) ->
      0 <= offset (Uniform.file p) <= len (content (Uniform.file p)) ->
      (offset (Uniform.file p) <= n ->
       Uniform.seekBackwardN n p = Ok (Uniform.withOffset p 0)) /\
      (len (content (Uniform.file p)) - offset (Uniform.file p) <= n ->
       Uniform.seekForwardN n p
       = Ok (Uniform.withOffset p (len (content (Uniform.file p)))))).
Proof.
  split.
  - intros p n Hp Hn. unfold PerColumn.seekBackwardN.
    rewrite pc_back_lift, forN_back_reaches_start by lia. reflexivity.
  - intros p n Hcur Hp. split; intros Hn.
    + unfold Uniform.seekBackwardN.
      rewrite un_back_lift, forN_back_reaches_start by (auto; lia).
      reflexivity.
    + unfold Uniform.seekForwardN.
      rewrite un_forward_lift, forN_forward_reaches_end by (auto; lia).
      reflexivity.
Qed.

(** "a\nb\nc\n" from offset 4: six lines back, and two lines forward. *)
Lemma counted_seeks_clamp_at_boundaries_witness :
  let bytes := [x61; NL; x62; NL; x63; NL] in
  PerColumn.seekBackwardN 6 (PerColumn.mkPager 0 [] (mkFile bytes 4) None)
  = Ok (PerColumn.mkPager 0 [] (mkFile bytes 0) None) /\
  Uniform.seekBackwardN 6 (Uniform.mkPager 4 0 0 0 (mkFile bytes 4))
  = Ok (Uniform.mkPager 0 0 0 0 (mkFile bytes 0)) /\
  Uniform.seekForwardN 2 (Uniform.mkPager 4 0 0 0 (mkFile bytes 4))
  = Ok (Uniform.mkPager 6 0 0 0 (mkFile bytes 6)).
Proof.
  cbv zeta.
  assert (Hp : 0 <= 4 <= len [x61; NL; x62; NL; x63; NL]) by (cbn; lia).
  split; [|split].
  - apply (proj1 counted_seeks_clamp_at_boundaries
             (PerColumn.mkPager 0 []
                (mkFile [x61; NL; x62; NL; x63; NL] 4) None) 6 Hp).
    cbn. lia.
  - apply (proj1 (proj2 counted_seeks_clamp_at_boundaries
                    (Uniform.mkPager 4 0 0 0
                       (mkFile [x61; NL; x62; NL; x63; NL] 4))
                    6 eq_refl Hp)).
    cbn. lia.
  - apply (proj2 (proj2 counted_seeks_clamp_at_boundaries
                    (Uniform.mkPager 4 0 0 0
                       (mkFile [x61; NL; x62; NL; x63; NL] 4))
                    2 eq_refl Hp)).
    cbn. lia.
Defined.

(** [seekEnd] on a terminal of height 2 or more: it never fails, and
    leaves the cursor at offset 0 or on the first byte of a non-empty
    line; in the second listing [currentOffset] agrees with the file
    offset afterwards. *)
Theorem seekEnd_lands_on_line_start :
  (forall (env : Env) (p : PerColumn.Pager),
      2 <= height env ->
      exists r,
        PerColumn.seekEnd env p = Ok (PerColumn.withOffset p r) /\
        lineStart (content (PerColumn.file p)) r) /\
  (forall (env : Env) (p : Uniform.Pager),
      2 <= height env ->
      exists r,
        Uniform.seekEnd env p = Ok (Uniform.withOffset p r) /\
        lineStart (content (Uniform.file p)) r).
Proof.
  assert (Hfit : forall env, 2 <= height env ->
                 exists k, Z.to_nat (countLinesFitting env) = S k).
  { intros env Hh. unfold countLinesFitting.
    rewrite Z.quot_div_nonneg by lia.
    assert (1 <= height env / 2) by (apply Z.div_le_lower_bound; lia).
    exists (Z.to_nat (height env / 2 - 1)). lia. }
  assert (Hland : forall bytes k,
             exists r, forN (S k) (seekBackOffset bytes) (len bytes) = Ok r /\
                       lineStart bytes r).
  { intros bytes k. pose proof (len_nonneg bytes).
    destruct (forN_back_total bytes k (len bytes)) as (r0 & Hr0 & Hle);
      [lia|].
    destruct (seekBack_lands bytes r0) as (r & Hr & Hcase); [lia|].
    exists r. rewrite forN_snoc, Hr0. cbn [bind]. split; [exact Hr|].
    destruct Hcase as [-> | [_ Hs]]; [now left | now right]. }
  split.
  - intros env p Hh. destruct (Hfit env Hh) as (k & Hk).
    destruct (Hland (content (PerColumn.file p)) k) as (r & Hr & Hs).
    exists r. split; [|exact Hs].
    unfold PerColumn.seekEnd. rewrite Hk.
    rewrite pc_back_lift
      by (cbn; pose proof (len_nonneg (content (PerColumn.file p))); lia).
    cbn [PerColumn.withOffset PerColumn.file content offset].
    rewrite Hr. reflexivity.
  - intros env p Hh. destruct (Hfit env Hh) as (k & Hk).
    pose proof (len_nonneg (content (Uniform.file p))) as Hlen.
    destruct (Hland (content (Uniform.file p)) k) as (r & Hr & Hs).
    exists r. split; [|exact Hs].
    unfold Uniform.seekEnd. rewrite Hk.
    rewrite forN_cons in Hr. rewrite forN_cons.
    unfold Uniform.seekBackLine at 1.
    cbn [Uniform.file content offset].
    destruct (seekBackOffset (content (Uniform.file p))
                             (len (content (Uniform.file p))))
      as [r1| | |] eqn:Hr1; try discriminate.
    cbn [bind] in *.
    destruct (seekBack_lands (content (Uniform.file p))
                             (len (content (Uniform.file p))))
      as (r1' & Hr1' & Hcase); [lia|].
    assert (r1' = r1) by congruence. subst r1'.
    rewrite un_back_lift;
      [| reflexivity | cbn; destruct Hcase as [-> | [? _]]; lia].
    cbn [Uniform.withOffset Uniform.file content offset
         Uniform.horizontalShift Uniform.maxFields Uniform.maxWidth].
    rewrite Hr. reflexivity.
Qed.

(** "a\nb\nc\n" on a terminal of height 4: two lines back from the end. *)
Lemma seekEnd_lands_on_line_start_witness :
  2 <= 4 /\
  (exists r,
      PerColumn.seekEnd (mkEnv 80 4 [x2c] plainRecords)
        (PerColumn.mkPager 0 [] (mkFile [x61; NL; x62; NL; x63; NL] 0) None)
      = Ok (PerColumn.mkPager 0 []
              (mkFile [x61; NL; x62; NL; x63; NL] r) None) /\
      lineStart [x61; NL; x62; NL; x63; NL] r) /\
  (exists r,
      Uniform.seekEnd (mkEnv 80 4 [x2c] plainRecords)
        (Uniform.mkPager 0 0 0 0 (mkFile [x61; NL; x62; NL; x63; NL] 0))
      = Ok (Uniform.mkPager r 0 0 0
              (mkFile [x61; NL; x62; NL; x63; NL] r)) /\
      lineStart [x61; NL; x62; NL; x63; NL] r).
Proof.
  assert (H : 2 <= 4) by lia.
  split; [exact H|]. split.
  - exact (proj1 seekEnd_lands_on_line_start
             (mkEnv 80 4 [x2c] plainRecords)
             (PerColumn.mkPager 0 []
                (mkFile [x61; NL; x62; NL; x63; NL] 0) None) H).
  - exact (proj2 seekEnd_lands_on_line_start
             (mkEnv 80 4 [x2c] plainRecords)
             (Uniform.mkPager 0 0 0 0
                (mkFile [x61; NL; x62; NL; x63; NL] 0)) H).
Defined.

(** ** The page-full guard of the first listing *)

(** [seekForwardN] of the first listing, from a cursor inside the file
    and with a non-empty delimiter, either returns with the cursor inside
    the file, everything else unchanged, and a window that holds at least
    as many records as the window it started from; or it does not
    return, which happens only when the window at offset 0 holds fewer
    records than the window it started from. *)
Theorem seekForwardN_keeps_page_full
        (env : Env) (n lines a0 : Z) (p : PerColumn.Pager) :
  0 <= offset (PerColumn.file p) <= len (content (PerColumn.file p)) ->
  PerColumn.countLinesAvailable env p = Ok lines ->
  PerColumn.countLinesAvailable env (PerColumn.withOffset p 0) = Ok a0 ->
  (exists r a,
      PerColumn.seekForwardN env n p = Ok (PerColumn.withOffset p r) /\
      0 <= r <= len (content (PerColumn.file p)) /\
      PerColumn.countLinesAvailable env (PerColumn.withOffset p r) = Ok a /\
      lines <= a) \/
  (PerColumn.seekForwardN env n p = NoFuel /\ a0 < lines).
Proof.
  intros Hp Hlines Ha0. unfold PerColumn.seekForwardN.
  rewrite Hlines. cbn [bind].
  rewrite pc_forward_lift by assumption.
  destruct (forN_forward_total (content (PerColumn.file p)) (Z.to_nat n)
              (offset (PerColumn.file p)) Hp) as (e & He & Hle).
  rewrite He. cbn [bind].
  destruct (seekBackWhileFewer_decides env lines
              (S (S (Z.to_nat
                       (offset (PerColumn.file (PerColumn.withOffset p e))))))
              (PerColumn.withOffset p e) a0)
    as [(r & a & Hr & Hrange & Ha & Hge) | [Hnf Hlt]].
  - cbn. lia.
  - lia.
  - exact Ha0.
  - left. exists r, a. cbn in Hrange. repeat split; auto; lia.
  - right. auto.
Qed.

(** "a\nb\nc\n" on a terminal of height 4, three lines forward from the
    start: the cursor comes back to "b" so that two records show. *)
Lemma seekForwardN_keeps_page_full_witness :
  let bytes := [x61; NL; x62; NL; x63; NL] in
  let env := mkEnv 80 4 [x2c] plainRecords in
  let p := PerColumn.mkPager 0 [] (mkFile bytes 0) None in
  (exists r a,
      PerColumn.seekForwardN env 3 p = Ok (PerColumn.withOffset p r) /\
      0 <= r <= len bytes /\
      PerColumn.countLinesAvailable env (PerColumn.withOffset p r) = Ok a /\
      2 <= a) \/
  (PerColumn.seekForwardN env 3 p = NoFuel /\ 2 < 2).
Proof.
  cbv zeta.
  refine (seekForwardN_keeps_page_full
            (mkEnv 80 4 [x2c] plainRecords) 3 2 2
            (PerColumn.mkPager 0 [] (mkFile [x61; NL; x62; NL; x63; NL] 0)
                               None) _ eq_refl eq_refl).
  cbn. lia.
Defined.

(** ** One line back, then one line forward *)

Lemma rest_text_newlines (l : list byte) :
  exists pre text nls,
    l = pre ++ text ++ nls /\ Forall isText text /\ Forall (eq NL) nls /\
    ((pre = [] /\ (text = [] -> nls = l)) \/
     (text <> [] /\ exists pre', pre = pre' ++ [NL])).
Proof.
  destruct (newlines_then_rest (rev l)) as (nlsr & l2 & E & Hn & Hl2).
  destruct (text_then_rest l2) as (textr & l1 & -> & Ht & Hl1).
  exists (rev l1), (rev textr), (rev nlsr).
  assert (El : l = rev l1 ++ rev textr ++ rev nlsr).
  { rewrite <- (rev_involutive l), E, !rev_app_distr.
    now rewrite app_assoc. }
  split; [exact El|]. split; [now apply Forall_rev|].
  split; [now apply Forall_rev|].
  destruct Hl1 as [-> | (t & ->)].
  - left. split; [reflexivity|]. intros Htext.
    rewrite El, Htext. reflexivity.
  - right. split; [|exists (rev t); reflexivity].
    intros Htext.
    assert (textr = []).
    { destruct textr; [reflexivity|]. cbn in Htext.
      apply app_eq_nil in Htext as [_ Hx]. discriminate. }
    subst textr. cbn [app] in Hl2.
    destruct Hl2 as [Hl2 | (b & t' & Hl2 & Hb)]; [discriminate|].
    injection Hl2 as <- _. congruence.
Qed.

(** From the first byte of a non-empty line, in a file that does not
    begin with a newline, one [seekBackLine] followed by one
    [seekForwardLine] returns to the same offset. *)
Theorem seekForward_undoes_seekBack (bytes : list byte) (s : Z) :
  textAfterNewline bytes s ->
  ReadAt bytes 0 <> Got NL ->
  exists r, seekBackOffset bytes s = Ok r /\
            seekForwardOffset bytes r = Ok s.
Proof.
  intros (Hprev & b & Hcur & Hb) Hfirst.
  apply ReadAt_Got_split in Hcur as (before & post & -> & Hlen).
  destruct (rest_text_newlines before)
    as (pre & text & nls & -> & Ht & Hn & Hshape).
  subst s.
  (* the byte before the cursor is a newline, so [nls] is not empty *)
  assert (Hnls : nls <> []).
  { intros ->. rewrite app_nil_r in *.
    destruct text as [|t0 text' _] using rev_ind.
    - destruct Hshape as [[-> _] | [Hne _]]; [|congruence].
      cbn in Hprev. discriminate.
    - apply Forall_app in Ht as [_ Hx]. inversion Hx as [|? ? Hx0 _]; subst.
      rewrite app_assoc, <- app_assoc in Hprev. cbn [app] in Hprev.
      replace (len ((pre ++ text') ++ [t0]) - 1) with (len (pre ++ text'))
        in Hprev by (rewrite !len_app, len_cons, len_nil; lia).
      rewrite ReadAt_middle in Hprev. congruence. }
  destruct Hshape as [[-> _] | [Htext (pre' & ->)]].
  - exists 0. cbn [app].
    replace (len (text ++ nls)) with (len (@nil byte) + len text + len nls)
      by (rewrite len_app, len_nil; lia).
    rewrite <- app_assoc. split.
    + apply (seekBack_clamped [] text nls (b :: post)); auto.
    + replace 0 with (len (@nil byte)) at 1 by reflexivity.
      apply (seekForward_found [] text nls post b); auto.
  - destruct pre' as [|x pre'].
    + exfalso. apply Hfirst. reflexivity.
    + exists (len ((x :: pre') ++ [NL])).
      replace (len (((x :: pre') ++ [NL]) ++ text ++ nls))
        with (len ((x :: pre') ++ [NL]) + len text + len nls)
        by (rewrite !len_app; lia).
      replace ((((x :: pre') ++ [NL]) ++ text ++ nls) ++ b :: post)
        with (((x :: pre') ++ [NL]) ++ text ++ nls ++ b :: post)
        by (now rewrite <- !app_assoc).
      split.
      * replace (((x :: pre') ++ [NL]) ++ text ++ nls ++ b :: post)
          with ((x :: pre') ++ NL :: text ++ nls ++ b :: post)
          by (now rewrite <- app_assoc).
        replace (len ((x :: pre') ++ [NL]))
          with (len (x :: pre') + 1)
          by (rewrite len_app, (len_cons NL), len_nil; lia).
        apply (seekBack_found (x :: pre') text nls (b :: post));
          auto; discriminate.
      * apply (seekForward_found ((x :: pre') ++ [NL]) text nls post b);
          auto.
Qed.

(** "ab\ncd\n\nef": from "ef" (offset 7) back to "cd" and forward
    again. *)
Lemma seekForward_undoes_seekBack_witness :
  let bytes := [x61; x62; NL; x63; x64; NL; NL; x65; x66] in
  (textAfterNewline bytes 7 /\ ReadAt bytes 0 <> Got NL) /\
  exists r, seekBackOffset bytes 7 = Ok r /\
            seekForwardOffset bytes r = Ok 7.
Proof.
  cbv zeta.
  assert (Hs : textAfterNewline [x61; x62; NL; x63; x64; NL; NL; x65; x66] 7).
  { split; [reflexivity|]. exists x65. split; [reflexivity | discriminate]. }
  assert (Hf : ReadAt [x61; x62; NL; x63; x64; NL; NL; x65; x66] 0 <> Got NL)
    by discriminate.
  split; [split; assumption|].
  exact (seekForward_undoes_seekBack _ 7 Hs Hf).
Defined.

(** ** Panning to the left *)

(** In the first listing [moveToLeft] panics when no record has been
    read yet and the shift is 0: [currentFieldIndex] answers -1 on the
    empty [maxWidth], and [maxWidth[i-1]] is then out of range.  The
    pager is in that state after the first render of an empty file, so
    the left-arrow key ends the program there. *)
Theorem moveToLeft_panics_without_columns :
  (forall p : PerColumn.Pager,
      PerColumn.maxWidth p = [] -> PerColumn.horizontalShift p = 0 ->
      PerColumn.moveToLeft p = Panicked) /\
  (forall (env : Env) (p1 : PerColumn.Pager) (frame : list gostring),
      (forall c, csvRecords env c [] = []) ->
      PerColumn.renderCSVWindow env
        (PerColumn.mkPager 0 [] (mkFile [] 0) None) = Ok (p1, frame) ->
      PerColumn.moveToLeft p1 = Panicked).
Proof.
  assert (Hpanic : forall p : PerColumn.Pager,
             PerColumn.maxWidth p = [] -> PerColumn.horizontalShift p = 0 ->
             PerColumn.moveToLeft p = Panicked).
  { intros p Hmw Hs.
    unfold PerColumn.moveToLeft, PerColumn.currentFieldIndex.
    rewrite Hmw, Hs. reflexivity. }
  split; [exact Hpanic|].
  intros env p1 frame Hparser H.
  unfold PerColumn.renderCSVWindow in H.
  destruct (PerColumn.readLines env _) as [[p0 recs]| | |] eqn:Hread;
    try discriminate.
  cbn [bind] in H.
  destruct (PerColumn.getPrintableLines env p0 recs) as [printable| | |];
    try discriminate.
  cbn [bind] in H. injection H as <- _.
  assert (Hp0 : PerColumn.maxWidth p0 = [] /\
                PerColumn.horizontalShift p0 = 0).
  { unfold PerColumn.readLines, getNewCSVReader in Hread.
    cbn [PerColumn.file content offset] in Hread.
    destruct (comma env) as [|c rest]; [discriminate|].
    destruct (validDelim c); cbn [bind skipn Z.to_nat] in Hread.
    - rewrite Hparser, pc_readLoop_folds, firstn_nil in Hread.
      cbn [bind] in Hread. injection Hread as <- _. now split.
    - destruct (Z.to_nat (countLinesFitting env)); [|discriminate].
      cbn [PerColumn.readLoop bind] in Hread.
      injection Hread as <- _. now split. }
  apply Hpanic; apply Hp0.
Qed.

(** An empty file on a terminal of 80 by 24. *)
Lemma moveToLeft_panics_without_columns_witness :
  PerColumn.moveToLeft (PerColumn.mkPager 0 [] (mkFile [x61; NL] 0) None)
  = Panicked /\
  PerColumn.moveToLeft
    (PerColumn.mkPager 0 [] (mkFile [] 0) (Some [[gFooterStart]]))
  = Panicked.
Proof.
  split.
  - exact (proj1 moveToLeft_panics_without_columns
             (PerColumn.mkPager 0 [] (mkFile [x61; NL] 0) None)
             eq_refl eq_refl).
  - exact (proj2 moveToLeft_panics_without_columns
             (mkEnv 80 24 [x2c] plainRecords)
             (PerColumn.mkPager 0 [] (mkFile [] 0) (Some [[gFooterStart]]))
             [[gFooterStart]] (fun c => eq_refl) eq_refl).
Defined.

(** With at least one column [moveToLeft] of the first listing never
    panics; the new shift is not negative and, the widths being
    non-negative, not above the old one.  In the second listing the new
    shift is never negative, and [moveToLeft] undoes a [moveToRight] that
    moved. *)
Theorem moveToLeft_floors_at_zero :
  (forall p : PerColumn.Pager,
      PerColumn.maxWidth p <> [] ->
      exists shift,
        PerColumn.moveToLeft p = Ok (PerColumn.withShift p shift) /\
        0 <= shift /\
        (Forall (fun w => 0 <= w) (PerColumn.maxWidth p) ->
         shift <= Z.max 0 (PerColumn.horizontalShift p))) /\
  (forall p : Uniform.Pager,
      0 <= Uniform.horizontalShift (Uniform.moveToLeft p)) /\
  (forall (env : Env) (p : Uniform.Pager),
      0 <= Uniform.horizontalShift p ->
      width env < remainingUniform p ->
      Uniform.moveToLeft (Uniform.moveToRight env p) = p).
Proof.
  split; [|split].
  - intros p Hne. unfold PerColumn.moveToLeft.
    assert (Hi : 0 <= PerColumn.currentFieldIndex p
                 < len (PerColumn.maxWidth p)).
    { apply fieldIndexLoop_range; [lia | lia |].
      destruct (PerColumn.maxWidth p); [congruence|].
      rewrite len_cons. pose proof (len_nonneg l). lia. }
    destruct (Z.eqb_spec (PerColumn.currentFieldIndex p) 0) as [E|E].
    + exists 0. repeat split; lia.
    + destruct (indexAt_inside (PerColumn.maxWidth p)
                               (PerColumn.currentFieldIndex p - 1))
        as (w & Hw & Hin); [lia|].
      rewrite Hw. cbn [bind].
      eexists. split; [reflexivity|]. split; [lia|].
      intros Hall. rewrite Forall_forall in Hall.
      specialize (Hall w Hin). lia.
  - intros p. unfold Uniform.moveToLeft, Uniform.withShift.
    cbn [Uniform.horizontalShift]. lia.
  - intros env p Hs Hwide.
    unfold Uniform.moveToRight, remainingUniform in *.
    destruct (Z.leb_spec (Uniform.countMaxJoinedLength p
                          - Uniform.horizontalShift p) (width env)); [lia|].
    unfold Uniform.moveToLeft, Uniform.withShift.
    destruct p as [co sh mf mw f].
    cbn [Uniform.horizontalShift Uniform.maxWidth
         Uniform.currentOffset Uniform.maxFields Uniform.file] in *.
    f_equal. lia.
Qed.

(** Widths 2 and 3 at shift 3; a uniform table of three columns of
    width 3 on a terminal 6 wide. *)
Lemma moveToLeft_floors_at_zero_witness :
  ([2; 3] <> [] /\
   exists shift,
     PerColumn.moveToLeft (PerColumn.mkPager 3 [2; 3] (mkFile [] 0) None)
     = Ok (PerColumn.mkPager shift [2; 3] (mkFile [] 0) None) /\
     0 <= shift /\
     (Forall (fun w => 0 <= w) [2; 3] -> shift <= Z.max 0 3)) /\
  ((0 <= 4 /\ 6 < remainingUniform (Uniform.mkPager 0 4 3 3 (mkFile [] 0))) /\
   Uniform.moveToLeft
     (Uniform.moveToRight (mkEnv 6 24 [x2c] plainRecords)
        (Uniform.mkPager 0 4 3 3 (mkFile [] 0)))
   = Uniform.mkPager 0 4 3 3 (mkFile [] 0)).
Proof.
  assert (Hne : [2; 3] <> @nil Z) by discriminate.
  assert (H4 : 0 <= 4) by lia.
  assert (Hr : 6 < remainingUniform (Uniform.mkPager 0 4 3 3 (mkFile [] 0)))
    by (cbn; lia).
  split.
  - split; [exact Hne|].
    exact (proj1 moveToLeft_floors_at_zero
             (PerColumn.mkPager 3 [2; 3] (mkFile [] 0) None) Hne).
  - split; [split; assumption|].
    exact (proj2 (proj2 moveToLeft_floors_at_zero)
             (mkEnv 6 24 [x2c] plainRecords)
             (Uniform.mkPager 0 4 3 3 (mkFile [] 0)) H4 Hr).
Defined.

(** ** Cutting a line to the viewport *)

(** With the shift inside the line and a non-negative width, the cut
    drops the first [horizontalShift] code points and keeps the next
    [width], or all that is left when fewer remain. *)
Theorem clipLine_keeps_visible_part (shift w : Z) (pl : gostring) :
  0 <= shift <= len pl -> 0 <= w ->
  clipLine shift w pl
  = Ok (firstn (Z.to_nat w) (skipn (Z.to_nat shift) pl)) /\
  len (firstn (Z.to_nat w) (skipn (Z.to_nat shift) pl))
  = Z.min (len pl - shift) w.
Proof.
  intros Hs Hw. rewrite clipLine_inside by assumption.
  assert (Hlen : len (skipn (Z.to_nat shift) pl) = len pl - shift)
    by (unfold len in *; rewrite length_skipn; lia).
  split.
  - f_equal.
    destruct (Z.le_gt_cases w (len pl - shift)) as [Hle|Hgt].
    + now rewrite Z.min_r.
    + rewrite Z.min_l by lia.
      rewrite !firstn_all2; [reflexivity | |]; unfold len in *; lia.
  - unfold len in *. rewrite length_firstn. lia.
Qed.

Lemma clipLine_keeps_visible_part_witness :
  (0 <= 2 <= len [97; 98; 99; 100; 101] /\ 0 <= 2) /\
  clipLine 2 2 [97; 98; 99; 100; 101] = Ok [99; 100] /\
  len [99; 100] = Z.min (len [97; 98; 99; 100; 101] - 2) 2.
Proof.
  assert (H1 : 0 <= 2 <= len [97; 98; 99; 100; 101]) by (cbn; lia).
  assert (H2 : 0 <= 2) by lia.
  split; [split; assumption|].
  exact (clipLine_keeps_visible_part 2 2 [97; 98; 99; 100; 101] H1 H2).
Defined.

(** ** The shape of a border line *)

Lemma sum_app (l1 l2 : list Z) : sum (l1 ++ l2) = sum l1 + sum l2.
Proof.
  induction l1 as [|x l1 IH]; [cbn [app]; change (sum []) with 0; lia|].
  cbn [app]. rewrite !sum_cons, IH. lia.
Qed.

Lemma sum_nonneg (l : list Z) : Forall (fun w => 0 <= w) l -> 0 <= sum l.
Proof.
  induction 1 as [|x l Hx Hl IH]; [change (sum []) with 0; lia|].
  rewrite sum_cons. lia.
Qed.

Lemma repeat_next {A : Type} (a : A) (n : Z) :
  0 < n -> repeat a (Z.to_nat n) = a :: repeat a (Z.to_nat (n - 1)).
Proof.
  intros H. replace (Z.to_nat n) with (S (Z.to_nat (n - 1))) by lia.
  reflexivity.
Qed.

Lemma pc_tableLineLoop_shape (mw : list Z) (length : Z)
      (start middle end_ : rune) :
  length = sum mw + len mw + 1 ->
  Forall (fun w => 0 <= w) mw ->
  forall (remaining : nat) (dn : list Z) (w : Z) (rest : list Z) (t i : Z),
    mw = dn ++ w :: rest ->
    0 <= t <= w ->
    i = 1 + sum dn + len dn + t ->
    Z.of_nat remaining = length - i ->
    PerColumn.tableLineLoop remaining mw length i (len dn) start middle end_
    = Ok (repeat gFill (Z.to_nat (w - t))
          ++ match rest with
             | [] => [end_]
             | _ :: _ => middle :: borderBody rest middle end_
             end).
Proof.
  intros Hlen Hall.
  induction remaining as [|k IH]; intros dn w rest t i Hmw Ht Hi Hrem.
  - exfalso. rewrite Hmw in Hlen, Hall.
    rewrite sum_app, sum_cons, len_app, len_cons in Hlen.
    apply Forall_app in Hall as [_ Hall].
    inversion Hall as [|? ? _ Hrest]; subst.
    pose proof (sum_nonneg rest Hrest). pose proof (len_nonneg rest). lia.
  - assert (Hlen' : length - i = (w - t) + sum rest + len rest + 1).
    { rewrite Hlen, Hmw, sum_app, sum_cons, len_app, len_cons. lia. }
    assert (Hrest : 0 <= sum rest).
    { rewrite Hmw in Hall. apply Forall_app in Hall as [_ Hall].
      inversion Hall; subst. now apply sum_nonneg. }
    assert (Hdn : 0 <= sum dn).
    { rewrite Hmw in Hall. apply Forall_app in Hall as [Hall _].
      now apply sum_nonneg. }
    pose proof (len_nonneg dn). pose proof (len_nonneg rest).
    cbn [PerColumn.tableLineLoop].
    destruct (Z.eqb_spec i 0) as [E0|_]; [lia|].
    assert (Hslice : sliceRange mw 0 (len dn + 1) = Ok (dn ++ [w])).
    { rewrite sliceRange_prefix
        by (rewrite Hmw, len_app, len_cons; lia).
      f_equal. rewrite Hmw.
      replace (Z.to_nat (len dn + 1)) with (Datatypes.length dn + 1)%nat
        by (unfold len; lia).
      rewrite firstn_app_2. reflexivity. }
    destruct (Z.eq_dec t w) as [->|Hne].
    + replace (w - w) with 0 by lia. cbn [Z.to_nat repeat app].
      destruct rest as [|w' rest'].
      * (* the right corner *)
        destruct (Z.eqb_spec i (length - 1)) as [_|E1];
          [|change (len (@nil Z)) with 0 in Hlen';
            change (sum []) with 0 in Hlen'; lia].
        assert (k = O)
          by (change (len (@nil Z)) with 0 in Hlen';
              change (sum []) with 0 in Hlen'; lia).
        subst k. reflexivity.
      * (* a junction *)
        destruct (Z.eqb_spec i (length - 1)) as [E1|_];
          [rewrite len_cons in Hlen';
           assert (0 <= sum (w' :: rest')) by assumption;
           pose proof (len_nonneg rest'); lia|].
        rewrite Hslice. cbn [bind].
        rewrite sum_app, sum_cons.
        destruct (Z.eqb_spec (sum dn + (w + sum []) + (len dn + 1)) i)
          as [_|E]; [|change (sum []) with 0 in E; lia].
        replace (len dn + 1) with (len (dn ++ [w]))
          by (now rewrite len_app, len_cons, len_nil).
        rewrite (IH (dn ++ [w]) w' rest' 0 (i + 1)).
        -- cbn [bind]. replace (w' - 0) with w' by lia. reflexivity.
        -- now rewrite Hmw, <- app_assoc.
        -- rewrite Hmw in Hall. apply Forall_app in Hall as [_ Hall].
           inversion Hall as [|? ? _ Hr]; subst.
           inversion Hr; subst. lia.
        -- rewrite sum_app, len_app.
           change (sum [w]) with (0 + w). change (len [w]) with 1. lia.
        -- lia.
    + (* inside a column *)
      destruct (Z.eqb_spec i (length - 1)) as [E1|_]; [lia|].
      rewrite Hslice. cbn [bind].
      rewrite sum_app, sum_cons.
      destruct (Z.eqb_spec (sum dn + (w + sum []) + (len dn + 1)) i)
        as [E|_]; [change (sum []) with 0 in E; lia|].
      rewrite (IH dn w rest (t + 1) (i + 1)); try lia; auto.
      cbn [bind]. rewrite (repeat_next gFill (w - t)) by lia.
      replace (w - t - 1) with (w - (t + 1)) by lia. reflexivity.
Qed.

Lemma pc_getTableLine_shape (p : PerColumn.Pager)
      (start middle end_ : rune) :
  Forall (fun w => 0 <= w) (PerColumn.maxWidth p) ->
  PerColumn.getTableLine p start middle end_
  = Ok (start :: borderBody (PerColumn.maxWidth p) middle end_).
Proof.
  intros Hall. unfold PerColumn.getTableLine.
  pose proof (pc_countMaxJoinedLength_sum p) as Hlen.
  set (L := PerColumn.countMaxJoinedLength p) in *.
  remember (PerColumn.maxWidth p) as mw eqn:Hmw. clear Hmw.
  pose proof (sum_nonneg _ Hall) as Hsum.
  pose proof (len_nonneg mw) as Hl.
  replace (Z.to_nat L) with (S (Z.to_nat (L - 1))) by lia.
  cbn [PerColumn.tableLineLoop].
  destruct (Z.eqb_spec 0 0) as [_|E]; [|lia].
  destruct mw as [|w rest].
  - assert (L = 1)
      by (rewrite Hlen; change (sum []) with 0;
          change (len (@nil Z)) with 0; lia).
    replace (Z.to_nat (L - 1)) with O by lia. reflexivity.
  - assert (Hw : 0 <= 0 <= w) by (inversion Hall; subst; lia).
    assert (Hi : 0 + 1 = 1 + sum [] + len (@nil Z) + 0)
      by (change (sum []) with 0; change (len (@nil Z)) with 0; lia).
    assert (Hrem : Z.of_nat (Z.to_nat (L - 1)) = L - (0 + 1)) by lia.
    pose proof (pc_tableLineLoop_shape (w :: rest) L start middle end_
                  Hlen Hall (Z.to_nat (L - 1)) [] w rest 0 (0 + 1)
                  eq_refl Hw Hi Hrem) as Hloop.
    change (len (@nil Z)) with 0 in Hloop.
    rewrite Hloop. cbn [bind borderBody].
    replace (w - 0) with w by lia. reflexivity.
Qed.

(** With non-negative widths a border line of the first listing is the
    left corner followed, for each column, by as many fill glyphs as the
    column is wide and a junction, the last junction being the right
    corner; without columns it is the left corner alone. *)
Theorem getTableLine_shape (p : PerColumn.Pager) (start middle end_ : rune) :
  Forall (fun w => 0 <= w) (PerColumn.maxWidth p) ->
  PerColumn.getTableLine p start middle end_
  = Ok (start :: borderBody (PerColumn.maxWidth p) middle end_).
Proof. apply pc_getTableLine_shape. Qed.

(** The header over columns of widths 2, 0 and 1. *)
Lemma getTableLine_shape_witness :
  Forall (fun w => 0 <= w) [2; 0; 1] /\
  PerColumn.getTableLine (PerColumn.mkPager 0 [2; 0; 1] (mkFile [] 0) None)
    gHeaderStart gHeaderMiddle gHeaderEnd
  = Ok [gHeaderStart; gFill; gFill; gHeaderMiddle; gHeaderMiddle; gFill;
        gHeaderEnd].
Proof.
  assert (H : Forall (fun w => 0 <= w) [2; 0; 1]) by (repeat constructor; lia).
  split; [exact H|].
  exact (getTableLine_shape
           (PerColumn.mkPager 0 [2; 0; 1] (mkFile [] 0) None)
           gHeaderStart gHeaderMiddle gHeaderEnd H).
Defined.

Lemma un_tableLineLoop_shape (mw mf length : Z)
      (start middle end_ : rune) :
  length = (mw + 1) * mf + 1 -> 0 <= mw ->
  forall (remaining : nat) (c t i : Z),
    0 <= c < mf -> 0 <= t <= mw ->
    i = 1 + c * (mw + 1) + t ->
    Z.of_nat remaining = length - i ->
    Uniform.tableLineLoop remaining mw length i start middle end_
    = Ok (repeat gFill (Z.to_nat (mw - t))
          ++ match repeat mw (Z.to_nat (mf - c - 1)) with
             | [] => [end_]
             | _ :: _ =>
                 middle
                 :: borderBody (repeat mw (Z.to_nat (mf - c - 1)))
                               middle end_
             end).
Proof.
  intros Hlen Hmw.
  induction remaining as [|k IH]; intros c t i Hc Ht Hi Hrem.
  - exfalso. nia.
  - assert (Hlen' : length - i = (mw - t) + (mw + 1) * (mf - c - 1) + 1)
      by nia.
    assert (Hleft : 0 <= (mw + 1) * (mf - c - 1)) by nia.
    cbn [Uniform.tableLineLoop].
    destruct (Z.eqb_spec i 0) as [E0|_]; [nia|].
    destruct (Z.eq_dec t mw) as [->|Hne].
    + replace (mw - mw) with 0 by lia. cbn [Z.to_nat repeat app].
      destruct (Z.eq_dec (mf - c - 1) 0) as [Hlast|Hmore].
      * (* the right corner *)
        rewrite Hlast. cbn [Z.to_nat repeat].
        destruct (Z.eqb_spec i (length - 1)) as [_|E1]; [|nia].
        assert (k = O) by nia. subst k. reflexivity.
      * (* a junction *)
        destruct (Z.eqb_spec i (length - 1)) as [E1|_]; [nia|].
        destruct (Z.eqb_spec (mw + 1) 0) as [Ez|_]; [lia|].
        assert (Hrem0 : Z.rem i (mw + 1) = 0).
        { replace i with ((c + 1) * (mw + 1)) by lia.
          apply Z.rem_mul. lia. }
        rewrite Hrem0. cbn [Z.eqb].
        rewrite (IH (c + 1) 0 (i + 1)) by nia.
        cbn [bind]. replace (mw - 0) with mw by lia.
        replace (Z.to_nat (mf - c - 1))
          with (S (Z.to_nat (mf - (c + 1) - 1))) by lia.
        cbn [repeat borderBody]. reflexivity.
    + (* inside a column *)
      destruct (Z.eqb_spec i (length - 1)) as [E1|_]; [nia|].
      destruct (Z.eqb_spec (mw + 1) 0) as [Ez|_]; [lia|].
      assert (Hrem1 : Z.rem i (mw + 1) = t + 1).
      { rewrite Z.rem_mod_nonneg by nia.
        replace i with ((t + 1) + c * (mw + 1)) by lia.
        rewrite Z_mod_plus_full. apply Z.mod_small. lia. }
      rewrite Hrem1.
      destruct (Z.eqb_spec (t + 1) 0) as [Ez|_]; [lia|].
      rewrite (IH c (t + 1) (i + 1)) by nia.
      cbn [bind]. rewrite (repeat_next gFill (mw - t)) by lia.
      replace (mw - t - 1) with (mw - (t + 1)) by lia. reflexivity.
Qed.

(** With a non-negative width and field count, a border line of the
    second listing has the shape the first listing draws over
    [maxFields] columns that are all [maxWidth] wide. *)
Theorem uniform_getTableLine_shape
        (p : Uniform.Pager) (nfields : Z) (start middle end_ : rune) :
  0 <= Uniform.maxWidth p -> 0 <= Uniform.maxFields p ->
  Uniform.getTableLine p nfields start middle end_
  = Ok (start
        :: borderBody (repeat (Uniform.maxWidth p)
                              (Z.to_nat (Uniform.maxFields p)))
                      middle end_) /\
  Uniform.getTableLine p nfields start middle end_
  = PerColumn.getTableLine
      (PerColumn.mkPager 0 (repeat (Uniform.maxWidth p)
                                   (Z.to_nat (Uniform.maxFields p)))
                         (Uniform.file p) None)
      start middle end_.
Proof.
  intros Hmw Hmf.
  assert (Hshape : Uniform.getTableLine p nfields start middle end_
                   = Ok (start
                         :: borderBody (repeat (Uniform.maxWidth p)
                                          (Z.to_nat (Uniform.maxFields p)))
                                       middle end_)).
  { unfold Uniform.getTableLine, Uniform.countMaxJoinedLength.
    set (mw := Uniform.maxWidth p) in *.
    set (mf := Uniform.maxFields p) in *.
    set (L := (mw + 1) * mf + 1).
    assert (HL : 1 <= L) by (unfold L; nia).
    replace (Z.to_nat L) with (S (Z.to_nat (L - 1))) by lia.
    cbn [Uniform.tableLineLoop].
    destruct (Z.eqb_spec 0 0) as [_|E]; [|lia].
    destruct (Z.eq_dec mf 0) as [Hz|Hnz].
    - rewrite Hz in *. replace (Z.to_nat (L - 1)) with O by (unfold L; lia).
      reflexivity.
    - rewrite (un_tableLineLoop_shape mw mf L start middle end_
                 eq_refl Hmw (Z.to_nat (L - 1)) 0 0 (0 + 1))
        by (try lia; unfold L; nia).
      cbn [bind]. replace (mw - 0) with mw by lia.
      replace (Z.to_nat mf) with (S (Z.to_nat (mf - 0 - 1))) by lia.
      cbn [repeat borderBody]. reflexivity. }
  split; [exact Hshape|].
  rewrite Hshape. symmetry.
  apply pc_getTableLine_shape.
  cbn [PerColumn.maxWidth].
  apply Forall_forall. intros w Hw. apply repeat_spec in Hw. lia.
Qed.

(** Two columns of width 2. *)
Lemma uniform_getTableLine_shape_witness :
  (0 <= 2 /\ 0 <= 2) /\
  Uniform.getTableLine (Uniform.mkPager 0 0 2 2 (mkFile [] 0)) 2
    gFooterStart gFooterMiddle gFooterEnd
  = Ok [gFooterStart; gFill; gFill; gFooterMiddle; gFill; gFill;
        gFooterEnd] /\
  Uniform.getTableLine (Uniform.mkPager 0 0 2 2 (mkFile [] 0)) 2
    gFooterStart gFooterMiddle gFooterEnd
  = PerColumn.getTableLine (PerColumn.mkPager 0 [2; 2] (mkFile [] 0) None)
      gFooterStart gFooterMiddle gFooterEnd.
Proof.
  assert (H : 0 <= 2) by lia.
  split; [split; exact H|].
  exact (uniform_getTableLine_shape
           (Uniform.mkPager 0 0 2 2 (mkFile [] 0)) 2
           gFooterStart gFooterMiddle gFooterEnd H H).
Defined.

(** ** The frame of a table that fits the terminal *)

Lemma clipLines_whole (w : Z) (window : list gostring) :
  0 <= w -> Forall (fun l => len l <= w) window ->
  clipLines 0 w window = Ok window.
Proof.
  intros Hw. induction 1 as [|pl rest Hpl Hrest IH]; [reflexivity|].
  cbn [clipLines].
  rewrite clipLine_inside by (pose proof (len_nonneg pl); lia).
  cbn [bind]. rewrite IH. cbn [bind].
  replace (Z.min (len pl - 0) w) with (len pl) by lia.
  unfold len. rewrite Nat2Z.id. cbn [Z.to_nat skipn].
  now rewrite firstn_all.
Qed.

(** The end of [getPrintableLines] on a window that fits: the last line
    becomes the footer and nothing is cut. *)
Lemma frame_tail_whole (h w : Z) (window : list gostring)
      (footer : gostring) :
  window <> [] -> len window <= h -> 0 <= w ->
  Forall (fun l => len l <= w) window -> len footer <= w ->
  (closed <- setLast window footer ;;
   cut <- sliceRange closed 0 (Z.min h (len closed)) ;;
   clipLines 0 w cut)
  = Ok (removelast window ++ [footer]).
Proof.
  intros Hne Hh Hw Hall Hfooter.
  destruct window as [|a window]; [contradiction|].
  cbn [setLast bind].
  set (closed := removelast (a :: window) ++ [footer]).
  assert (Hlen : len closed = len (a :: window)).
  { unfold len, closed. rewrite replace_last_length. reflexivity. }
  rewrite sliceRange_prefix by (pose proof (len_nonneg closed); lia).
  cbn [bind].
  replace (Z.min h (len closed)) with (len closed) by lia.
  unfold len at 1. rewrite Nat2Z.id, firstn_all.
  apply clipLines_whole; [exact Hw|].
  apply Forall_app. split; [now apply Forall_removelast|].
  now constructor.
Qed.

Lemma pc_windowLoop_whole (env : Env) (p : PerColumn.Pager)
      (dataFooter : gostring) (lines : list record) (rows : list gostring) :
  Forall2 (fun r row => PerColumn.getDataFields p r = Ok row) lines rows ->
  forall window,
    len window + 2 * len lines <= height env + 1 ->
    PerColumn.windowLoop env p dataFooter lines window
    = Ok (window ++ flat_map (fun row => [row; dataFooter]) rows).
Proof.
  induction 1 as [|r row lines rows Hrow Hrest IH]; intros window Hh.
  - cbn [PerColumn.windowLoop flat_map]. now rewrite app_nil_r.
  - cbn [PerColumn.windowLoop flat_map]. rewrite len_cons in Hh.
    pose proof (len_nonneg lines).
    replace (len window >=? height env) with false by lia.
    rewrite Hrow. cbn [bind]. rewrite IH.
    + rewrite <- app_assoc. reflexivity.
    + rewrite len_app, !len_cons. change (len (@nil gostring)) with 0. lia.
Qed.

Lemma un_windowLoop_whole (env : Env) (p : Uniform.Pager)
      (dataFooter : gostring) (lines : list record) (rows : list gostring) :
  Forall2 (fun r row => Uniform.getDataFields p r = Ok row) lines rows ->
  forall window,
    len window + 2 * len lines <= height env + 1 ->
    Uniform.windowLoop env p dataFooter lines window
    = Ok (window ++ flat_map (fun row => [row; dataFooter]) rows).
Proof.
  induction 1 as [|r row lines rows Hrow Hrest IH]; intros window Hh.
  - cbn [Uniform.windowLoop flat_map]. now rewrite app_nil_r.
  - cbn [Uniform.windowLoop flat_map]. rewrite len_cons in Hh.
    pose proof (len_nonneg lines).
    replace (len window >=? height env) with false by lia.
    rewrite Hrow. cbn [bind]. rewrite IH.
    + rewrite <- app_assoc. reflexivity.
    + rewrite len_app, !len_cons. change (len (@nil gostring)) with 0. lia.
Qed.

Lemma fitsWidths_length (r : record) :
  forall mw, fitsWidths mw r -> (length r <= length mw)%nat.
Proof.
  induction r as [|f r IH]; intros mw H; [cbn; lia|].
  destruct mw as [|w mw]; [destruct H|]. destruct H as [_ H].
  cbn [length]. apply IH in H. lia.
Qed.

Lemma sum_firstn_le (l : list Z) :
  Forall (fun w => 0 <= w) l -> forall k, sum (firstn k l) <= sum l.
Proof.
  induction 1 as [|x l Hx Hl IH]; intros k.
  - rewrite firstn_nil. lia.
  - destruct k as [|k]; cbn [firstn].
    + change (sum []) with 0. rewrite sum_cons.
      pose proof (sum_nonneg l Hl). lia.
    + rewrite !sum_cons. specialize (IH k). lia.
Qed.

Lemma pc_rows_exist (p : PerColumn.Pager) (lines : list record) :
  Forall (fun w => 0 <= w) (PerColumn.maxWidth p) ->
  Forall (fitsWidths (PerColumn.maxWidth p)) lines ->
  exists rows,
    Forall2 (fun r row => PerColumn.getDataFields p r = Ok row) lines rows /\
    Forall (fun row => len row <= PerColumn.countMaxJoinedLength p) rows.
Proof.
  intros Hnn. induction 1 as [|r lines Hr Hlines (rows & Hrows & Hlen)].
  - exists []. split; constructor.
  - destruct (pc_getDataFields_fits p r Hr) as (row & Hrow & Hlenrow).
    exists (row :: rows). split; [now constructor|].
    constructor; [|exact Hlen].
    rewrite Hlenrow, pc_countMaxJoinedLength_sum.
    pose proof (sum_firstn_le _ Hnn (length r)).
    apply fitsWidths_length in Hr. unfold len. lia.
Qed.

Lemma un_rows_exist (p : Uniform.Pager) (lines : list record) :
  0 <= Uniform.maxWidth p ->
  Forall (fun r => fitsWidth (Uniform.maxWidth p) r /\
                   len r <= Uniform.maxFields p) lines ->
  exists rows,
    Forall2 (fun r row => Uniform.getDataFields p r = Ok row) lines rows /\
    Forall (fun row => len row <= Uniform.countMaxJoinedLength p) rows.
Proof.
  intros Hnn. induction 1 as [|r lines [Hr Hf] Hlines (rows & Hrows & Hlen)].
  - exists []. split; constructor.
  - destruct (un_getDataFields_fits p r Hr) as (row & Hrow & Hlenrow).
    exists (row :: rows). split; [now constructor|].
    constructor; [|exact Hlen].
    rewrite Hlenrow. unfold Uniform.countMaxJoinedLength. nia.
Qed.

Lemma flat_rows_within (w : Z) (sep : gostring) (rows : list gostring) :
  len sep <= w -> Forall (fun row => len row <= w) rows ->
  Forall (fun l => len l <= w) (flat_map (fun row => [row; sep]) rows).
Proof.
  intros Hsep. induction 1 as [|row rows Hrow Hrows IH]; [constructor|].
  cbn [flat_map app]. now repeat constructor.
Qed.

Lemma flat_rows_length (sep : gostring) (rows : list gostring) :
  len (flat_map (fun row => [row; sep]) rows) = 2 * len rows.
Proof.
  induction rows as [|row rows IH]; [reflexivity|].
  cbn [flat_map app]. rewrite !len_cons, IH. lia.
Qed.

Lemma Forall2_len {A B : Type} (R : A -> B -> Prop) (l : list A)
      (l' : list B) :
  Forall2 R l l' -> len l = len l'.
Proof.
  intros H. apply Forall2_length in H. unfold len. now rewrite H.
Qed.

(** When nothing has to be cut (no shift, the table not wider than the
    terminal, [2k + 1] lines not more than its height), the frame of [k]
    records that fit the widths is the whole table: the header line,
    then the records' rows with a separator line after each, the last
    separator replaced by the footer line.  Without records the footer
    replaces the header.  Both listings. *)
Theorem getPrintableLines_draws_whole_table :
  (forall (env : Env) (p : PerColumn.Pager) (lines : list record),
      PerColumn.horizontalShift p = 0 ->
      Forall (fun w => 0 <= w) (PerColumn.maxWidth p) ->
      Forall (fitsWidths (PerColumn.maxWidth p)) lines ->
      2 * len lines + 1 <= height env ->
      PerColumn.countMaxJoinedLength p <= width env ->
      exists header sep footer rows,
        PerColumn.getTableHeaderLine p = Ok header /\
        PerColumn.getDataLine p = Ok sep /\
        PerColumn.getTableFooterLine p = Ok footer /\
        Forall2 (fun r row => PerColumn.getDataFields p r = Ok row)
                lines rows /\
        PerColumn.getPrintableLines env p lines
        = Ok (removelast (header :: flat_map (fun row => [row; sep]) rows)
              ++ [footer])) /\
  (forall (env : Env) (p : Uniform.Pager) (lines : list record),
      Uniform.horizontalShift p = 0 ->
      0 <= Uniform.maxWidth p -> 0 <= Uniform.maxFields p ->
      Forall (fun r => fitsWidth (Uniform.maxWidth p) r /\
                       len r <= Uniform.maxFields p) lines ->
      2 * len lines + 1 <= height env ->
      Uniform.countMaxJoinedLength p <= width env ->
      exists header sep footer rows,
        Uniform.getTableHeaderLine p = Ok header /\
        Uniform.getDataLine p = Ok sep /\
        Uniform.getTableFooterLine p = Ok footer /\
        Forall2 (fun r row => Uniform.getDataFields p r = Ok row)
                lines rows /\
        Uniform.getPrintableLines env p lines
        = Ok (removelast (header :: flat_map (fun row => [row; sep]) rows)
              ++ [footer])).
Proof.
  split.
  - intros env p lines Hshift Hnn Hfit Hh Hw.
    assert (Hpos : 0 < PerColumn.countMaxJoinedLength p).
    { rewrite pc_countMaxJoinedLength_sum.
      pose proof (sum_nonneg _ Hnn).
      pose proof (len_nonneg (PerColumn.maxWidth p)). lia. }
    destruct (pc_getTableLine_total p gHeaderStart gHeaderMiddle gHeaderEnd)
      as (header & Hheader & Hlh).
    destruct (pc_getTableLine_total p gDataStart gDataMiddle gDataEnd)
      as (sep & Hsep & Hls).
    destruct (pc_getTableLine_total p gFooterStart gFooterMiddle gFooterEnd)
      as (footer & Hfooter & Hlf).
    destruct (pc_rows_exist p lines Hnn Hfit) as (rows & Hrows & Hlen).
    exists header, sep, footer, rows.
    split; [exact Hheader|]. split; [exact Hsep|].
    split; [exact Hfooter|]. split; [exact Hrows|].
    unfold PerColumn.getPrintableLines.
    unfold PerColumn.getTableHeaderLine, PerColumn.getDataLine,
      PerColumn.getTableFooterLine.
    rewrite Hheader. cbn [bind]. rewrite Hsep. cbn [bind].
    rewrite Hfooter. cbn [bind].
    rewrite (pc_windowLoop_whole env p sep lines rows Hrows)
      by (change (len [header]) with 1; lia).
    cbn [bind app]. rewrite Hshift.
    apply frame_tail_whole.
    + discriminate.
    + rewrite len_cons, flat_rows_length, <- (Forall2_len _ _ _ Hrows). lia.
    + lia.
    + constructor; [lia|]. apply flat_rows_within; [lia|].
      eapply Forall_impl; [|exact Hlen]. cbn beta. intros; lia.
    + lia.
  - intros env p lines Hshift Hnn Hmf Hfit Hh Hw.
    destruct (un_getTableLine_total p (Uniform.maxFields p)
                gHeaderStart gHeaderMiddle gHeaderEnd)
      as (header & Hheader & Hlh).
    destruct (un_getTableLine_total p (Uniform.maxFields p)
                gDataStart gDataMiddle gDataEnd)
      as (sep & Hsep & Hls).
    destruct (un_getTableLine_total p (Uniform.maxFields p)
                gFooterStart gFooterMiddle gFooterEnd)
      as (footer & Hfooter & Hlf).
    destruct (un_rows_exist p lines Hnn Hfit) as (rows & Hrows & Hlen).
    assert (Hwidth : 0 <= width env).
    { unfold Uniform.countMaxJoinedLength in Hw. nia. }
    exists header, sep, footer, rows.
    split; [exact Hheader|]. split; [exact Hsep|].
    split; [exact Hfooter|]. split; [exact Hrows|].
    unfold Uniform.getPrintableLines.
    unfold Uniform.getTableHeaderLine, Uniform.getDataLine,
      Uniform.getTableFooterLine.
    rewrite Hheader. cbn [bind]. rewrite Hsep. cbn [bind].
    rewrite Hfooter. cbn [bind].
    rewrite (un_windowLoop_whole env p sep lines rows Hrows)
      by (change (len [header]) with 1; lia).
    cbn [bind app]. rewrite Hshift.
    apply frame_tail_whole.
    + discriminate.
    + rewrite len_cons, flat_rows_length, <- (Forall2_len _ _ _ Hrows). lia.
    + exact Hwidth.
    + constructor; [lia|]. apply flat_rows_within; [lia|].
      eapply Forall_impl; [|exact Hlen]. cbn beta. intros; lia.
    + lia.
Qed.

(** Two records of two fields on a terminal of 80 by 24, widths 2 and 3
    (first listing) and 3 for both columns (second listing). *)
Lemma getPrintableLines_draws_whole_table_witness :
  let env := mkEnv 80 24 [x2c] plainRecords in
  let lines := [[[97]; [98; 98; 98]]; [[99; 99]; [100]]] in
  let p := PerColumn.mkPager 0 [2; 3] (mkFile [] 0) None in
  let q := Uniform.mkPager 0 0 2 3 (mkFile [] 0) in
  ((PerColumn.horizontalShift p = 0 /\
    Forall (fun w => 0 <= w) (PerColumn.maxWidth p) /\
    Forall (fitsWidths (PerColumn.maxWidth p)) lines /\
    2 * len lines + 1 <= height env /\
    PerColumn.countMaxJoinedLength p <= width env) /\
   exists header sep footer rows,
     PerColumn.getTableHeaderLine p = Ok header /\
     PerColumn.getDataLine p = Ok sep /\
     PerColumn.getTableFooterLine p = Ok footer /\
     Forall2 (fun r row => PerColumn.getDataFields p r = Ok row) lines rows /\
     PerColumn.getPrintableLines env p lines
     = Ok (removelast (header :: flat_map (fun row => [row; sep]) rows)
           ++ [footer])) /\
  ((Uniform.horizontalShift q = 0 /\
    0 <= Uniform.maxWidth q /\ 0 <= Uniform.maxFields q /\
    Forall (fun r => fitsWidth (Uniform.maxWidth q) r /\
                     len r <= Uniform.maxFields q) lines /\
    2 * len lines + 1 <= height env /\
    Uniform.countMaxJoinedLength q <= width env) /\
   exists header sep footer rows,
     Uniform.getTableHeaderLine q = Ok header /\
     Uniform.getDataLine q = Ok sep /\
     Uniform.getTableFooterLine q = Ok footer /\
     Forall2 (fun r row => Uniform.getDataFields q r = Ok row) lines rows /\
     Uniform.getPrintableLines env q lines
     = Ok (removelast (header :: flat_map (fun row => [row; sep]) rows)
           ++ [footer])).
Proof.
  cbv zeta. split.
  - assert (H1 : PerColumn.horizontalShift
                   (PerColumn.mkPager 0 [2; 3] (mkFile [] 0) None) = 0)
      by reflexivity.
    assert (H2 : Forall (fun w => 0 <= w)
                        (PerColumn.maxWidth
                           (PerColumn.mkPager 0 [2; 3] (mkFile [] 0) None)))
      by (repeat constructor; cbn; lia).
    assert (H3 : Forall (fitsWidths
                           (PerColumn.maxWidth
                              (PerColumn.mkPager 0 [2; 3] (mkFile [] 0) None)))
                        [[[97]; [98; 98; 98]]; [[99; 99]; [100]]])
      by (repeat constructor; cbn; lia).
    assert (H4 : 2 * len [[[97]; [98; 98; 98]]; [[99; 99]; [100]]] + 1
                 <= height (mkEnv 80 24 [x2c] plainRecords))
      by (cbn; lia).
    assert (H5 : PerColumn.countMaxJoinedLength
                   (PerColumn.mkPager 0 [2; 3] (mkFile [] 0) None)
                 <= width (mkEnv 80 24 [x2c] plainRecords))
      by (cbn; lia).
    split; [exact (conj H1 (conj H2 (conj H3 (conj H4 H5))))|].
    exact (proj1 getPrintableLines_draws_whole_table
             (mkEnv 80 24 [x2c] plainRecords)
             (PerColumn.mkPager 0 [2; 3] (mkFile [] 0) None)
             [[[97]; [98; 98; 98]]; [[99; 99]; [100]]] H1 H2 H3 H4 H5).
  - assert (H1 : Uniform.horizontalShift
                   (Uniform.mkPager 0 0 2 3 (mkFile [] 0)) = 0)
      by reflexivity.
    assert (H2 : 0 <= Uniform.maxWidth
                        (Uniform.mkPager 0 0 2 3 (mkFile [] 0)))
      by (cbn; lia).
    assert (H2' : 0 <= Uniform.maxFields
                         (Uniform.mkPager 0 0 2 3 (mkFile [] 0)))
      by (cbn; lia).
    assert (H3 : Forall (fun r =>
                           fitsWidth
                             (Uniform.maxWidth
                                (Uniform.mkPager 0 0 2 3 (mkFile [] 0))) r /\
                           len r <= Uniform.maxFields
                                      (Uniform.mkPager 0 0 2 3 (mkFile [] 0)))
                        [[[97]; [98; 98; 98]]; [[99; 99]; [100]]])
      by (repeat constructor; cbn; lia).
    assert (H4 : 2 * len [[[97]; [98; 98; 98]]; [[99; 99]; [100]]] + 1
                 <= height (mkEnv 80 24 [x2c] plainRecords))
      by (cbn; lia).
    assert (H5 : Uniform.countMaxJoinedLength
                   (Uniform.mkPager 0 0 2 3 (mkFile [] 0))
                 <= width (mkEnv 80 24 [x2c] plainRecords))
      by (cbn; lia).
    split; [exact (conj H1 (conj H2 (conj H2' (conj H3 (conj H4 H5)))))|].
    exact (proj2 getPrintableLines_draws_whole_table
             (mkEnv 80 24 [x2c] plainRecords)
             (Uniform.mkPager 0 0 2 3 (mkFile [] 0))
             [[[97]; [98; 98; 98]]; [[99; 99]; [100]]] H1 H2 H2' H3 H4 H5).
Defined.

(** ** Panning by columns in the first listing *)

Lemma fieldIndexLoop_at_start (w : Z) (post : list Z) (n : Z)
      (pre : list Z) :
  forall i cum,
    Forall (fun x => 0 <= x) pre -> 0 < w ->
    PerColumn.fieldIndexLoop (pre ++ w :: post)
                             (cum + i + sum pre + len pre) i cum n
    = i + len pre.
Proof.
  induction pre as [|x pre IH]; intros i cum Hpre Hw.
  - cbn [app PerColumn.fieldIndexLoop].
    change (sum []) with 0. change (len (@nil Z)) with 0.
    replace (cum + i + 0 + 0 - i >=? cum) with true by lia.
    replace (cum + i + 0 + 0 - i <? cum + w) with true by lia.
    cbn [andb]. lia.
  - inversion Hpre as [|? ? Hx Hpre']; subst.
    pose proof (sum_nonneg pre Hpre') as Hs.
    pose proof (len_nonneg pre) as Hl.
    cbn [app PerColumn.fieldIndexLoop]. rewrite sum_cons, len_cons.
    replace (cum + i + (x + sum pre) + (len pre + 1) - i <? cum + x)
      with false by lia.
    rewrite andb_false_r.
    replace (cum + i + (x + sum pre) + (len pre + 1))
      with ((cum + x) + (i + 1) + sum pre + len pre) by lia.
    rewrite IH by assumption. lia.
Qed.

Lemma fieldIndexLoop_past_end (n : Z) (ws : list Z) :
  forall i cum,
    Forall (fun x => 0 <= x) ws -> 0 < i + len ws ->
    PerColumn.fieldIndexLoop ws (cum + i + sum ws + len ws) i cum n = 0.
Proof.
  induction ws as [|x ws IH]; intros i cum Hws Hpos.
  - cbn [PerColumn.fieldIndexLoop].
    change (sum []) with 0 in *. change (len (@nil Z)) with 0 in *.
    replace (cum + i + 0 + 0 =? cum) with false by lia. reflexivity.
  - inversion Hws as [|? ? Hx Hws']; subst.
    pose proof (sum_nonneg ws Hws') as Hs.
    pose proof (len_nonneg ws) as Hl.
    cbn [PerColumn.fieldIndexLoop]. rewrite sum_cons, len_cons in *.
    replace (cum + i + (x + sum ws) + (len ws + 1) - i <? cum + x)
      with false by lia.
    rewrite andb_false_r.
    replace (cum + i + (x + sum ws) + (len ws + 1))
      with ((cum + x) + (i + 1) + sum ws + len ws) by lia.
    apply IH; [assumption | lia].
Qed.

(** With positive widths and the shift on the start of a column, a
    [moveToRight] that moves puts the shift on the start of the next
    column, and [moveToLeft] then brings it back, unless that next
    start is past the last column: from there [moveToLeft] goes to
    shift 0, not to the start of the last column. *)
Theorem pans_step_between_column_starts
        (env : Env) (p : PerColumn.Pager) (pre post : list Z) (w : Z) :
  PerColumn.maxWidth p = pre ++ w :: post ->
  Forall (fun x => 0 < x) (PerColumn.maxWidth p) ->
  PerColumn.horizontalShift p = sum pre + len pre ->
  width env < remainingPerColumn p ->
  exists q,
    PerColumn.moveToRight env p = Ok q /\
    q = PerColumn.withShift p (sum (pre ++ [w]) + len (pre ++ [w])) /\
    (post <> [] -> PerColumn.moveToLeft q = Ok p) /\
    (post = [] -> PerColumn.moveToLeft q = Ok (PerColumn.withShift p 0)).
Proof.
  intros Hmw Hpos Hshift Hwide.
  assert (Hnn : Forall (fun x => 0 <= x) (pre ++ w :: post)).
  { rewrite <- Hmw. eapply Forall_impl; [|exact Hpos].
    cbn beta. intros; lia. }
  assert (Hpre : Forall (fun x => 0 <= x) pre).
  { apply Forall_app in Hnn. apply Hnn. }
  assert (Hw : 0 < w).
  { rewrite Hmw in Hpos. apply Forall_app in Hpos as [_ H].
    now inversion H. }
  pose proof (sum_nonneg pre Hpre) as Hs.
  pose proof (len_nonneg pre) as Hl.
  assert (Hidx : PerColumn.currentFieldIndex p = len pre).
  { unfold PerColumn.currentFieldIndex. rewrite Hmw, Hshift.
    replace (sum pre + len pre) with (0 + 0 + sum pre + len pre) by lia.
    rewrite fieldIndexLoop_at_start by assumption. lia. }
  set (s := sum (pre ++ [w]) + len (pre ++ [w])).
  assert (Hs' : s = PerColumn.horizontalShift p + w + 1).
  { unfold s. rewrite sum_app, len_app, sum_cons, len_cons, Hshift.
    change (sum []) with 0. change (len (@nil Z)) with 0. lia. }
  exists (PerColumn.withShift p s). split; [|split; [reflexivity|split]].
  - unfold PerColumn.moveToRight. unfold remainingPerColumn in Hwide.
    replace (PerColumn.countMaxJoinedLength p - PerColumn.horizontalShift p
             <=? width env) with false by lia.
    rewrite Hidx, Hmw, indexAt_middle. cbn [bind]. now rewrite Hs'.
  - intros Hpost. destruct post as [|y post]; [contradiction|].
    assert (Hy : 0 < y).
    { rewrite Hmw in Hpos. apply Forall_app in Hpos as [_ H].
      inversion H as [|? ? _ H']. now inversion H'. }
    unfold PerColumn.moveToLeft, PerColumn.currentFieldIndex.
    cbn [PerColumn.withShift PerColumn.maxWidth PerColumn.horizontalShift].
    rewrite Hmw.
    replace (pre ++ w :: y :: post) with ((pre ++ [w]) ++ y :: post)
      by (rewrite <- app_assoc; reflexivity).
    replace s with (0 + 0 + sum (pre ++ [w]) + len (pre ++ [w]))
      by (unfold s; lia).
    rewrite fieldIndexLoop_at_start.
    + rewrite len_app, len_cons. change (len (@nil Z)) with 0.
      replace (0 + (len pre + (0 + 1)) =? 0) with false by lia.
      replace (0 + (len pre + (0 + 1)) - 1) with (len pre) by lia.
      rewrite <- app_assoc. cbn [app]. rewrite indexAt_middle.
      cbn [bind]. f_equal.
      replace (Z.max 0 (0 + 0 + sum (pre ++ [w]) + (len pre + (0 + 1)) - w - 1))
        with (PerColumn.horizontalShift p).
      * destruct p; reflexivity.
      * rewrite sum_app, sum_cons, Hshift. change (sum []) with 0. lia.
    + apply Forall_app. split; [exact Hpre|]. constructor; [lia|constructor].
    + exact Hy.
  - intros ->.
    unfold PerColumn.moveToLeft, PerColumn.currentFieldIndex.
    cbn [PerColumn.withShift PerColumn.maxWidth PerColumn.horizontalShift].
    rewrite Hmw.
    replace s with (0 + 0 + sum (pre ++ [w]) + len (pre ++ [w]))
      by (unfold s; lia).
    rewrite fieldIndexLoop_past_end.
    + reflexivity.
    + exact Hnn.
    + rewrite len_app, len_cons. change (len (@nil Z)) with 0. lia.
Qed.

(** Widths 3 and 3 on a terminal 4 wide: from shift 0 to 4 and back;
    from shift 4 to 8, and from there back to 0. *)
Lemma pans_step_between_column_starts_witness :
  let env := mkEnv 4 10 [x2c] plainRecords in
  let p := PerColumn.mkPager 4 [3; 3] (mkFile [] 0) None in
  (PerColumn.maxWidth p = [3] ++ 3 :: [] /\
   Forall (fun x => 0 < x) (PerColumn.maxWidth p) /\
   PerColumn.horizontalShift p = sum [3] + len [3] /\
   width env < remainingPerColumn p) /\
  exists q,
    PerColumn.moveToRight env p = Ok q /\
    q = PerColumn.withShift p (sum ([3] ++ [3]) + len ([3] ++ [3])) /\
    (@nil Z <> [] -> PerColumn.moveToLeft q = Ok p) /\
    (@nil Z = [] -> PerColumn.moveToLeft q = Ok (PerColumn.withShift p 0)).
Proof.
  cbv zeta.
  assert (H1 : PerColumn.maxWidth
                 (PerColumn.mkPager 4 [3; 3] (mkFile [] 0) None)
               = [3] ++ 3 :: []) by reflexivity.
  assert (H2 : Forall (fun x => 0 < x)
                      (PerColumn.maxWidth
                         (PerColumn.mkPager 4 [3; 3] (mkFile [] 0) None)))
    by (repeat constructor).
  assert (H3 : PerColumn.horizontalShift
                 (PerColumn.mkPager 4 [3; 3] (mkFile [] 0) None)
               = sum [3] + len [3]) by reflexivity.
  assert (H4 : width (mkEnv 4 10 [x2c] plainRecords)
               < remainingPerColumn
                   (PerColumn.mkPager 4 [3; 3] (mkFile [] 0) None))
    by reflexivity.
  split; [exact (conj H1 (conj H2 (conj H3 H4)))|].
  exact (pans_step_between_column_starts
           (mkEnv 4 10 [x2c] plainRecords)
           (PerColumn.mkPager 4 [3; 3] (mkFile [] 0) None)
           [3] [] 3 H1 H2 H3 H4).
Defined.

(** ** The keyboard loop *)

Lemma forN_invariant {S : Type} (I : S -> Prop) (body : S -> outcome S) :
  (forall s, I s -> exists s', body s = Ok s' /\ I s') ->
  forall (n : nat) (s : S), I s -> exists s', forN n body s = Ok s' /\ I s'.
Proof.
  intros Hbody n. induction n as [|n IH]; intros s Hs.
  - exists s. split; [reflexivity|exact Hs].
  - destruct (Hbody s Hs) as (s1 & Hs1 & HI1).
    destruct (IH s1 HI1) as (s2 & Hs2 & HI2).
    exists s2. split; [|exact HI2].
    rewrite forN_cons, Hs1. exact Hs2.
Qed.

Lemma un_seekBackLine_steady (env : Env) (bytes : list byte) (k : Z)
      (p : Uniform.Pager) :
  placed env bytes k p ->
  exists p', Uniform.seekBackLine p = Ok p' /\ steady env bytes k p'.
Proof.
  intros (Hc & Hrest & Hmw & Hmf & Hshift).
  pose proof (restPosition_range _ _ Hrest) as Hrange.
  destruct (seekBack_lands bytes (offset (Uniform.file p)))
    as (r & Hr & Hland); [lia|].
  exists (Uniform.withOffset p r). split.
  - unfold Uniform.seekBackLine. rewrite Hc, Hr. reflexivity.
  - split; [|reflexivity].
    split; [exact Hc|]. split; [|now repeat split].
    cbn [Uniform.withOffset Uniform.file offset].
    left. destruct Hland as [-> | [_ Ht]]; [now left | now right].
Qed.

Lemma un_seekForwardLine_steady (env : Env) (bytes : list byte) (k : Z)
      (p : Uniform.Pager) :
  steady env bytes k p ->
  exists p', Uniform.seekForwardLine p = Ok p' /\ steady env bytes k p'.
Proof.
  intros [(Hc & Hrest & Hmw & Hmf & Hshift) Hcur].
  pose proof (restPosition_range _ _ Hrest) as Hrange.
  destruct (seekForward_lands bytes (offset (Uniform.file p)) Hrange)
    as (r & Hr & Hland).
  exists (Uniform.withOffset p r). split.
  - unfold Uniform.seekForwardLine. rewrite Hcur.
    destruct (offset (Uniform.file p) <? 0) eqn:Hneg; [lia|].
    rewrite Hc, Hr. reflexivity.
  - split; [|reflexivity].
    split; [exact Hc|]. split; [|now repeat split].
    cbn [Uniform.withOffset Uniform.file offset].
    destruct Hland as [-> | [_ Ht]]; [now right | left; now right].
Qed.

Lemma un_moveToLeft_steady (env : Env) (bytes : list byte) (k : Z)
      (p : Uniform.Pager) :
  steady env bytes k p -> steady env bytes k (Uniform.moveToLeft p).
Proof.
  intros [(Hc & Hrest & Hmw & Hmf & Hshift) Hcur].
  unfold Uniform.countMaxJoinedLength in Hshift.
  repeat split; try assumption;
    unfold Uniform.moveToLeft, Uniform.withShift,
      Uniform.countMaxJoinedLength;
    cbn [Uniform.horizontalShift Uniform.maxWidth Uniform.maxFields];
    lia.
Qed.

Lemma un_moveToRight_steady (env : Env) (bytes : list byte) (k : Z)
      (p : Uniform.Pager) :
  steady env bytes k p -> steady env bytes k (Uniform.moveToRight env p).
Proof.
  intros Hp. unfold Uniform.moveToRight.
  destruct (Uniform.countMaxJoinedLength p - Uniform.horizontalShift p
            <=? width env) eqn:Hfit; [exact Hp|].
  apply Z.leb_gt in Hfit.
  destruct Hp as [(Hc & Hrest & Hmw & Hmf & Hshift) Hcur].
  unfold Uniform.countMaxJoinedLength in *.
  repeat split; try assumption;
    unfold Uniform.withShift, Uniform.countMaxJoinedLength;
    cbn [Uniform.horizontalShift Uniform.maxWidth Uniform.maxFields];
    lia.
Qed.

Lemma un_seekStart_steady (env : Env) (bytes : list byte) (k : Z)
      (p : Uniform.Pager) :
  placed env bytes k p -> steady env bytes k (Uniform.withOffset p 0).
Proof.
  intros (Hc & Hrest & Hmw & Hmf & Hshift).
  split; [|reflexivity].
  split; [exact Hc|]. split; [|now repeat split].
  left. now left.
Qed.

Lemma un_seekEnd_placed (env : Env) (bytes : list byte) (k : Z)
      (p : Uniform.Pager) :
  placed env bytes k p ->
  exists p', Uniform.seekEnd env p = Ok p' /\ placed env bytes k p'.
Proof.
  intros (Hc & Hrest & Hmw & Hmf & Hshift).
  unfold Uniform.seekEnd.
  apply (forN_invariant (placed env bytes k)).
  - intros s Hs. destruct (un_seekBackLine_steady env bytes k s Hs)
      as (s' & Hs' & [Hplaced _]).
    now exists s'.
  - split; [exact Hc|]. split; [|now repeat split].
    cbn [Uniform.file offset]. right. now rewrite Hc.
Qed.

Lemma un_seekForwardN_steady (env : Env) (bytes : list byte) (k n : Z)
      (p : Uniform.Pager) :
  steady env bytes k p ->
  exists p', Uniform.seekForwardN n p = Ok p' /\ steady env bytes k p'.
Proof.
  apply (forN_invariant (steady env bytes k)).
  apply un_seekForwardLine_steady.
Qed.

Lemma un_seekBackwardN_steady (env : Env) (bytes : list byte) (k n : Z)
      (p : Uniform.Pager) :
  steady env bytes k p ->
  exists p', Uniform.seekBackwardN n p = Ok p' /\ steady env bytes k p'.
Proof.
  apply (forN_invariant (steady env bytes k)).
  intros s [Hs _]. now apply un_seekBackLine_steady.
Qed.

Lemma going_keeps {P : Type} (I : P -> Prop) (c : outcome P) :
  (exists p', c = Ok p' /\ I p') ->
  exists r, going c = Ok r /\
            match r with None => True | Some p' => I p' end.
Proof.
  intros (p' & -> & Hp'). exists (Some p'). now split.
Qed.

Lemma un_keySwitch_steady (env : Env) (bytes : list byte) (k : Z)
      (key : Key) (p : Uniform.Pager) :
  steady env bytes k p ->
  exists r, Uniform.keySwitch env key p = Ok r /\
            match r with None => True | Some p' => steady env bytes k p' end.
Proof.
  intros Hp. destruct key; cbn [Uniform.keySwitch].
  - apply going_keeps. apply un_seekBackLine_steady. apply Hp.
  - apply going_keeps. now apply un_seekForwardLine_steady.
  - eexists. split; [reflexivity|]. now apply un_moveToLeft_steady.
  - eexists. split; [reflexivity|]. now apply un_moveToRight_steady.
  - apply going_keeps. now apply un_seekForwardN_steady.
  - apply going_keeps. now apply un_seekBackwardN_steady.
  - apply going_keeps. now apply un_seekForwardN_steady.
  - now exists None.
  - now exists (Some p).
Qed.

Lemma un_charSwitch_placed (env : Env) (bytes : list byte) (k : Z)
      (ch : rune) (p : Uniform.Pager) :
  steady env bytes k p ->
  exists r, Uniform.charSwitch env ch p = Ok r /\
            match r with None => True | Some p' => placed env bytes k p' end.
Proof.
  intros Hp. unfold Uniform.charSwitch.
  destruct (ch =? chJ).
  { apply going_keeps.
    destruct (un_seekForwardLine_steady env bytes k p Hp) as (q & Hq & [H _]).
    now exists q. }
  destruct (ch =? chK).
  { apply going_keeps.
    destruct (un_seekBackLine_steady env bytes k p (proj1 Hp))
      as (q & Hq & [H _]).
    now exists q. }
  destruct (ch =? chL).
  { eexists. split; [reflexivity|]. now apply un_moveToRight_steady. }
  destruct (ch =? chH).
  { eexists. split; [reflexivity|]. now apply un_moveToLeft_steady. }
  destruct (ch =? chQ).
  { now exists None. }
  destruct (ch =? chG).
  { apply going_keeps. apply un_seekEnd_placed. apply Hp. }
  destruct (ch =? chg).
  { apply going_keeps. eexists. split; [reflexivity|].
    apply (un_seekStart_steady env bytes k p (proj1 Hp)). }
  exists (Some p). split; [reflexivity|apply Hp].
Qed.

Lemma un_handleKey_placed (env : Env) (bytes : list byte) (k : Z)
      (ch : rune) (key : Key) (p : Uniform.Pager) :
  steady env bytes k p ->
  exists r, Uniform.handleKey env ch key p = Ok r /\
            match r with None => True | Some p' => placed env bytes k p' end.
Proof.
  intros Hp. unfold Uniform.handleKey.
  destruct (un_keySwitch_steady env bytes k key p Hp) as (r & -> & Hr).
  cbn [bind]. destruct r as [p1|].
  - now apply un_charSwitch_placed.
  - now exists None.
Qed.

Lemma un_lineJump_steady (env : Env) (bytes : list byte) (k n : Z)
      (ch : rune) (key : Key) (p : Uniform.Pager) :
  steady env bytes k p ->
  exists p', Uniform.lineJump n ch key p = Ok p' /\ steady env bytes k p'.
Proof.
  intros Hp. unfold Uniform.lineJump.
  assert (H1 : exists p1,
             match key with
             | KeyArrowDown => Uniform.seekForwardN n p
             | KeyArrowUp => Uniform.seekBackwardN n p
             | _ => Ok p
             end = Ok p1 /\ steady env bytes k p1).
  { destruct key; try (now exists p).
    - now apply un_seekBackwardN_steady.
    - now apply un_seekForwardN_steady. }
  destruct H1 as (p1 & -> & Hp1). cbn [bind].
  destruct (ch =? chJ); [now apply un_seekForwardN_steady|].
  destruct (ch =? chK); [now apply un_seekBackwardN_steady|].
  now exists p1.
Qed.

Lemma un_widenLoop_below (w : Z) (r : record) :
  forall mw, Forall (fun f => RuneCountInString f < w) r -> mw < w ->
             mw <= Uniform.widenLoop mw r < w.
Proof.
  induction r as [|f r IH]; intros mw Hr Hmw; cbn [Uniform.widenLoop].
  - lia.
  - inversion Hr as [|? ? Hf Hr']; subst.
    specialize (IH (Z.max mw (RuneCountInString f)) Hr'). lia.
Qed.

Lemma un_fold_widen_below (w : Z) (recs : list record) :
  forall mw,
    Forall (Forall (fun f => RuneCountInString f < w)) recs -> mw < w ->
    mw <= fold_left Uniform.widenLoop recs mw < w.
Proof.
  induction recs as [|r recs IH]; intros mw Hrecs Hmw; cbn [fold_left].
  - lia.
  - inversion Hrecs as [|? ? Hr Hrecs']; subst.
    pose proof (un_widenLoop_below w r mw Hr Hmw).
    specialize (IH (Uniform.widenLoop mw r) Hrecs'). lia.
Qed.

Lemma un_fold_fields_regular (k : Z) (recs : list record) :
  forall mf,
    Forall (fun r => len r = k) recs -> 0 <= k -> mf = 0 \/ mf = k ->
    (recs = [] /\ fold_left (fun m r => Z.max m (len r)) recs mf = mf) \/
    (recs <> [] /\ fold_left (fun m r => Z.max m (len r)) recs mf = k).
Proof.
  induction recs as [|r recs IH]; intros mf Hrecs Hk Hmf; cbn [fold_left].
  - now left.
  - right. split; [discriminate|].
    inversion Hrecs as [|? ? Hr Hrecs']; subst.
    replace (Z.max mf (len r)) with (len r) by lia.
    destruct (IH (len r) Hrecs' Hk (or_intror eq_refl)) as [[_ H] | [_ H]];
      exact H.
Qed.

Lemma un_render_steady_from (env : Env) (bytes : list byte) (k : Z)
      (p : Uniform.Pager) (recs : list record) :
  0 <= height env -> 0 <= k ->
  placed env bytes k p ->
  Forall (fun r => len r = k /\
                   Forall (fun f => RuneCountInString f < width env) r)
         recs ->
  Uniform.readLines env p
  = Ok (Uniform.mkPager
          (offset (Uniform.file p)) (Uniform.horizontalShift p)
          (fold_left (fun m r => Z.max m (len r)) recs (Uniform.maxFields p))
          (fold_left Uniform.widenLoop recs (Uniform.maxWidth p))
          (mkFile (content (Uniform.file p)) (offset (Uniform.file p))),
        recs) ->
  exists p1 frame,
    Uniform.renderCSVWindow env p = Ok (p1, frame) /\
    steady env bytes k p1 /\ inTerminal env frame.
Proof.
  intros Hh Hk (Hc & Hrest & Hmw & Hmf & Hshift) Hall.
  set (off := offset (Uniform.file p)) in *.
  set (mf' := fold_left (fun m r => Z.max m (len r)) recs (Uniform.maxFields p)).
  set (mw' := fold_left Uniform.widenLoop recs (Uniform.maxWidth p)).
  set (p1 := Uniform.mkPager off (Uniform.horizontalShift p) mf' mw'
                             (mkFile (content (Uniform.file p)) off)).
  intros Hread.
  assert (Hlens : Forall (fun r => len r = k) recs).
  { eapply Forall_impl; [|exact Hall]. now intros r [H _]. }
  assert (Hwide : Forall (Forall (fun f => RuneCountInString f < width env))
                         recs).
  { eapply Forall_impl; [|exact Hall]. now intros r [_ H]. }
  assert (Hmw' : Uniform.maxWidth p <= mw' < width env).
  { apply un_fold_widen_below; [exact Hwide|lia]. }
  assert (Hmf' : (recs = [] /\ mf' = Uniform.maxFields p) \/
                 (recs <> [] /\ mf' = k)).
  { now apply un_fold_fields_regular. }
  assert (Hgrow : Uniform.maxFields p <= mf' /\ 0 <= Uniform.maxFields p).
  { destruct Hmf as [H0 | Hk']; destruct Hmf' as [[_ H] | [_ H]]; lia. }
  assert (Hlen' : Uniform.countMaxJoinedLength p
                  <= Uniform.countMaxJoinedLength p1).
  { unfold Uniform.countMaxJoinedLength, p1.
    cbn [Uniform.maxWidth Uniform.maxFields]. nia. }
  assert (Hsteady : steady env bytes k p1).
  { split; [|reflexivity].
    split; [exact Hc|]. split; [exact Hrest|].
    split; [cbn [p1 Uniform.maxWidth]; lia|].
    split.
    - cbn [p1 Uniform.maxFields].
      destruct Hmf' as [[_ ->] | [_ ->]]; [exact Hmf | now right].
    - cbn [p1 Uniform.horizontalShift] in *. lia. }
  destruct (un_getPrintableLines_inside env p1 recs) as (frame & Hframe & _).
  - cbn [p1 Uniform.horizontalShift]. lia.
  - lia.
  - exact Hh.
  - cbn [p1 Uniform.horizontalShift] in *. lia.
  - destruct (un_readLines_fits env p p1 recs Hread) as [Hfit _].
    apply Forall_forall. intros r Hr. split.
    + eapply Forall_forall in Hfit; [exact Hfit|exact Hr].
    + eapply Forall_forall in Hlens; [|exact Hr]. cbn beta in Hlens.
      rewrite Hlens.
      destruct Hmf' as [[He _] | [_ Hk']]; [rewrite He in Hr; destruct Hr|].
      unfold Uniform.countMaxJoinedLength in Hlen'.
      cbn [p1 Uniform.maxWidth Uniform.maxFields Uniform.horizontalShift]
        in *.
      rewrite Hk' in Hlen'.
      unfold Uniform.countMaxJoinedLength in Hshift. lia.
  - exists p1, frame. split; [|split].
    + unfold Uniform.renderCSVWindow. rewrite Hread. cbn [bind].
      rewrite Hframe. reflexivity.
    + exact Hsteady.
    + apply (un_getPrintableLines_within env p1 recs frame Hframe).
Qed.

(** One render on a regular table: it draws a frame and leaves the pager
    steady, or, with a delimiter the reader rejects and room for a
    record, it ends the program. *)
Lemma un_render_steady (env : Env) (bytes : list byte) (k : Z)
      (p : Uniform.Pager) :
  regularTable env bytes k -> comma env <> [] ->
  0 <= height env -> 0 <= k ->
  placed env bytes k p ->
  (exists p1 frame,
      Uniform.renderCSVWindow env p = Ok (p1, frame) /\
      steady env bytes k p1 /\ inTerminal env frame) \/
  (Uniform.renderCSVWindow env p = Exited /\
   rejectedComma env /\ 2 <= height env).
Proof.
  intros Hreg Hcomma Hh Hk Hp.
  destruct (comma env) as [|c rest] eqn:Ecomma; [contradiction|].
  destruct (validDelim c) eqn:Evalid.
  - left.
    set (reader := csvRecords env c
                     (skipn (Z.to_nat (offset (Uniform.file p)))
                            (content (Uniform.file p)))).
    apply (un_render_steady_from env bytes k p
             (firstn (Z.to_nat (countLinesFitting env)) reader));
      try assumption.
    + apply Forall_firstn. apply Forall_forall. intros r Hr.
      destruct Hp as (Hc & Hrest & _).
      unfold reader in Hr. rewrite Hc in Hr.
      apply (Hreg c (offset (Uniform.file p)) r);
        [now rewrite Ecomma | exact Hrest | exact Hr].
    + unfold Uniform.readLines, getNewCSVReader.
      rewrite Ecomma, Evalid. cbn [bind].
      rewrite un_readLoop_folds. reflexivity.
  - destruct (Z.to_nat (countLinesFitting env)) as [|n] eqn:En.
    + left.
      apply (un_render_steady_from env bytes k p []);
        try assumption; [constructor|].
      unfold Uniform.readLines, getNewCSVReader.
      rewrite Ecomma, Evalid, En. reflexivity.
    + right. split; [|split].
      * unfold Uniform.renderCSVWindow, Uniform.readLines, getNewCSVReader.
        rewrite Ecomma, Evalid, En. reflexivity.
      * exists c, rest. now split.
      * destruct (Z.le_gt_cases 2 (height env)) as [H2|H2]; [exact H2|].
        exfalso. unfold countLinesFitting in En.
        rewrite Z.quot_div_nonneg in En by lia.
        rewrite Z.div_small in En by lia. discriminate.
Qed.

Lemma un_keyboardLoop_steady (env : Env) (dg : Digits) (bytes : list byte)
      (k : Z) :
  regularTable env bytes k -> comma env <> [] ->
  0 <= height env -> 0 <= k ->
  forall (keys : list keyPress) (buffer : option gostring)
         (p : Uniform.Pager),
    steady env bytes k p ->
    exists frames e,
      Uniform.keyboardLoop env dg keys buffer p = (frames, e) /\
      Forall (inTerminal env) frames /\
      (e = Quit \/
       (exists p', e = Waiting p' /\ steady env bytes k p') \/
       (e = Failed /\ In GetKeyError keys) \/
       (e = FatalExit /\ rejectedComma env /\ 2 <= height env)).
Proof.
  intros Hreg Hcomma Hh Hk keys.
  induction keys as [|[ch key|] rest IH]; intros buffer p Hp.
  - exists [], (Waiting p). split; [reflexivity|]. split; [constructor|].
    right. left. now exists p.
  - assert (Hdraw : forall q,
               placed env bytes k q ->
               exists frames e,
                 drawn (Uniform.renderCSVWindow env q)
                       (Uniform.keyboardLoop env dg rest None) = (frames, e) /\
                 Forall (inTerminal env) frames /\
                 (e = Quit \/
                  (exists p', e = Waiting p' /\ steady env bytes k p') \/
                  (e = Failed /\ In GetKeyError (Pressed ch key :: rest)) \/
                  (e = FatalExit /\ rejectedComma env /\ 2 <= height env))).
    { intros q Hq.
      destruct (un_render_steady env bytes k q Hreg Hcomma Hh Hk Hq)
        as [(q1 & frame & Hrender & Hq1 & Hframe) | (Hrender & Hrej & H2)].
      - destruct (IH None q1 Hq1) as (frames & e & Hloop & Hframes & He).
        exists (frame :: frames), e. split; [|split].
        + unfold drawn. rewrite Hrender, Hloop. reflexivity.
        + now constructor.
        + destruct He as [He | [He | [[He Hin] | He]]];
            [now left | right; now left | | right; right; now right].
          right. right. left. split; [exact He | now right].
      - exists [], FatalExit. split; [|split].
        + unfold drawn. rewrite Hrender. reflexivity.
        + constructor.
        + right. right. right. auto. }
    cbn [Uniform.keyboardLoop].
    destruct buffer as [digits|]; destruct (IsDigit dg ch).
    + destruct (IH (Some (digits ++ [ch])) p Hp)
        as (frames & e & Hloop & Hframes & He).
      exists frames, e. split; [exact Hloop|]. split; [exact Hframes|].
      destruct He as [He | [He | [[He Hin] | He]]];
        [now left | right; now left | | right; right; now right].
      right. right. left. split; [exact He | now right].
    + destruct (un_lineJump_steady env bytes k (Atoi dg digits) ch key p Hp)
        as (p1 & -> & Hp1).
      apply Hdraw. apply Hp1.
    + destruct (IH (Some [ch]) p Hp) as (frames & e & Hloop & Hframes & He).
      exists frames, e. split; [exact Hloop|]. split; [exact Hframes|].
      destruct He as [He | [He | [[He Hin] | He]]];
        [now left | right; now left | | right; right; now right].
      right. right. left. split; [exact He | now right].
    + destruct (un_handleKey_placed env bytes k ch key p Hp)
        as (r & -> & Hr).
      destruct r as [p1|].
      * now apply Hdraw.
      * exists [], Quit. split; [reflexivity|]. split; [constructor|].
        now left.
  - exists [], Failed. split; [reflexivity|]. split; [constructor|].
    right. right. left. split; [reflexivity | now left].
Qed.

(** On a table whose records all have [k] fields, each shorter than the
    terminal is wide, the keyboard loop of the second listing never
    panics of its own: from a pager between two keys, whatever keys are
    pressed, it quits, or waits for the next key with the pager again in
    such a state (cursor on a rest position of the same file, shift
    inside the border lines, metrics below the width), or fails because
    [GetKey] returned an error, or ends the program through
    [log.Fatalln], which it does only with a delimiter the CSV reader
    rejects on a terminal with room for a record.  Every frame it draws
    on the way fits the terminal. *)
Theorem keyboardHandler_safe_on_regular_table
        (env : Env) (dg : Digits) (bytes : list byte) (k : Z)
        (keys : list keyPress) (p : Uniform.Pager) :
  regularTable env bytes k -> comma env <> [] ->
  0 <= height env -> 0 <= k ->
  steady env bytes k p ->
  exists frames e,
    Uniform.keyboardHandler env dg keys p = (frames, e) /\
    Forall (inTerminal env) frames /\
    (e = Quit \/
     (exists p', e = Waiting p' /\ steady env bytes k p') \/
     (e = Failed /\ In GetKeyError keys) \/
     (e = FatalExit /\ rejectedComma env /\ 2 <= height env)).
Proof.
  intros Hreg Hcomma Hh Hk Hp.
  now apply un_keyboardLoop_steady.
Qed.

Lemma pc_seekBackLine_inFile (bytes : list byte) (p : PerColumn.Pager) :
  inFile bytes p ->
  exists q, PerColumn.seekBackLine p = Ok q /\ inFile bytes q.
Proof.
  intros (Hc & Hoff & Hshift & Hmw).
  destruct (seekBack_lands bytes (offset (PerColumn.file p)))
    as (r & Hr & Hland); [lia|].
  exists (PerColumn.withOffset p r). split.
  - unfold PerColumn.seekBackLine. rewrite Hc, Hr. reflexivity.
  - split; [exact Hc|]. split; [|now split].
    cbn [PerColumn.withOffset PerColumn.file offset].
    destruct Hland as [-> | [? _]]; lia.
Qed.

Lemma pc_seekForwardLine_inFile (bytes : list byte) (p : PerColumn.Pager) :
  inFile bytes p ->
  exists q, PerColumn.seekForwardLine p = Ok q /\ inFile bytes q.
Proof.
  intros (Hc & Hoff & Hshift & Hmw).
  destruct (seekForward_lands bytes (offset (PerColumn.file p)) Hoff)
    as (r & Hr & Hland).
  exists (PerColumn.withOffset p r). split.
  - unfold PerColumn.seekForwardLine. rewrite Hc, Hr. reflexivity.
  - split; [exact Hc|]. split; [|now split].
    cbn [PerColumn.withOffset PerColumn.file offset].
    destruct Hland as [-> | [? _]]; lia.
Qed.

Lemma pc_seekBackwardN_inFile (bytes : list byte) (n : Z)
      (p : PerColumn.Pager) :
  inFile bytes p ->
  exists q, PerColumn.seekBackwardN n p = Ok q /\ inFile bytes q.
Proof.
  apply (forN_invariant (inFile bytes)). apply pc_seekBackLine_inFile.
Qed.

Lemma pc_seekForwardN_inFile (env : Env) (bytes : list byte) (n : Z)
      (p q : PerColumn.Pager) :
  inFile bytes p -> PerColumn.seekForwardN env n p = Ok q -> inFile bytes q.
Proof.
  intros Hp H. unfold PerColumn.seekForwardN in H.
  destruct (PerColumn.countLinesAvailable env p) as [lines| | |];
    try discriminate.
  cbn [bind] in H.
  destruct (forN_invariant (inFile bytes) PerColumn.seekForwardLine
              (pc_seekForwardLine_inFile bytes) (Z.to_nat n) p Hp)
    as (p1 & Hp1 & Hin1).
  rewrite Hp1 in H. cbn [bind] in H.
  apply seekBackWhileFewer_backs in H as (j & Hj).
  destruct (forN_invariant (inFile bytes) PerColumn.seekBackLine
              (pc_seekBackLine_inFile bytes) j p1 Hin1)
    as (q' & Hq' & Hin').
  rewrite Hj in Hq'. now injection Hq' as <-.
Qed.

Lemma pc_moveToLeft_inFile (bytes : list byte) (p q : PerColumn.Pager) :
  inFile bytes p -> PerColumn.moveToLeft p = Ok q -> inFile bytes q.
Proof.
  intros (Hc & Hoff & Hshift & Hmw) H. unfold PerColumn.moveToLeft in H.
  destruct (PerColumn.currentFieldIndex p =? 0).
  - injection H as <-.
    split; [exact Hc|]. split; [exact Hoff|]. split; [|exact Hmw].
    cbn [PerColumn.withShift PerColumn.horizontalShift]. lia.
  - destruct (indexAt (PerColumn.maxWidth p)
                      (PerColumn.currentFieldIndex p - 1)) as [w| | |];
      try discriminate.
    cbn [bind] in H. injection H as <-.
    split; [exact Hc|]. split; [exact Hoff|]. split; [|exact Hmw].
    cbn [PerColumn.withShift PerColumn.horizontalShift]. lia.
Qed.

Lemma indexAt_In {A : Type} (l : list A) (i : Z) (a : A) :
  indexAt l i = Ok a -> In a l.
Proof.
  unfold indexAt. destruct (i <? 0); [discriminate|].
  destruct (nth_error l (Z.to_nat i)) as [b|] eqn:E; [|discriminate].
  intros H. injection H as <-. now apply nth_error_In in E.
Qed.

Lemma pc_moveToRight_inFile (env : Env) (bytes : list byte)
      (p q : PerColumn.Pager) :
  inFile bytes p -> PerColumn.moveToRight env p = Ok q -> inFile bytes q.
Proof.
  intros (Hc & Hoff & Hshift & Hmw) H. unfold PerColumn.moveToRight in H.
  destruct (PerColumn.countMaxJoinedLength p - PerColumn.horizontalShift p
            <=? width env).
  - injection H as <-. split; [exact Hc|]. split; [exact Hoff|]. now split.
  - destruct (indexAt (PerColumn.maxWidth p) (PerColumn.currentFieldIndex p))
      as [w| | |] eqn:E; try discriminate.
    cbn [bind] in H. injection H as <-.
    apply indexAt_In in E.
    pose proof (proj1 (Forall_forall _ _) Hmw w E) as Hw. cbn beta in Hw.
    split; [exact Hc|]. split; [exact Hoff|]. split; [|exact Hmw].
    cbn [PerColumn.withShift PerColumn.horizontalShift]. lia.
Qed.

Lemma pc_seekEnd_inFile (env : Env) (bytes : list byte)
      (p : PerColumn.Pager) :
  inFile bytes p ->
  exists q, PerColumn.seekEnd env p = Ok q /\ inFile bytes q.
Proof.
  intros (Hc & Hoff & Hshift & Hmw). unfold PerColumn.seekEnd.
  apply (forN_invariant (inFile bytes)); [apply pc_seekBackLine_inFile|].
  split; [exact Hc|]. split; [|now split].
  cbn [PerColumn.withOffset PerColumn.file offset]. rewrite Hc. lia.
Qed.

Lemma joinWidths_nonneg (a : list Z) :
  forall b, Forall (fun w => 0 <= w) a -> Forall (fun w => 0 <= w) b ->
            Forall (fun w => 0 <= w) (joinWidths a b).
Proof.
  induction a as [|x a IH]; intros b Ha Hb.
  - destruct b; exact Hb.
  - destruct b as [|y b]; [exact Ha|].
    inversion Ha; inversion Hb; subst. cbn [joinWidths].
    constructor; [lia | now apply IH].
Qed.

Lemma fold_measure_nonneg (records : list record) :
  forall mw, Forall (fun w => 0 <= w) mw ->
             Forall (fun w => 0 <= w) (fold_left PerColumn.measure records mw).
Proof.
  induction records as [|r rs IH]; intros mw Hmw; [exact Hmw|].
  cbn [fold_left]. apply IH. rewrite measure_joins.
  apply joinWidths_nonneg; [exact Hmw|].
  apply Forall_forall. intros w Hw. apply in_map_iff in Hw as (f & <- & _).
  unfold RuneCountInString. lia.
Qed.

Lemma pc_render_inFile (env : Env) (bytes : list byte)
      (p p1 : PerColumn.Pager) (frame : list gostring) :
  inFile bytes p ->
  PerColumn.renderCSVWindow env p = Ok (p1, frame) ->
  inFile bytes p1 /\ inTerminal env frame.
Proof.
  intros (Hc & Hoff & Hshift & Hmw) H.
  unfold PerColumn.renderCSVWindow in H.
  destruct (PerColumn.readLines env p) as [[p0 recs]| | |] eqn:Hread;
    try discriminate.
  cbn [bind] in H.
  destruct (PerColumn.getPrintableLines env p0 recs) as [lines| | |] eqn:Hlines;
    try discriminate.
  cbn [bind] in H. injection H as <- <-.
  split; [|now apply (pc_getPrintableLines_within env p0 recs)].
  apply pc_readLines_inv in Hread as (rs & -> & _).
  cbn [PerColumn.horizontalShift PerColumn.maxWidth PerColumn.file].
  split; [exact Hc|]. split; [exact Hoff|]. split; [exact Hshift|].
  cbn [PerColumn.withMaxWidth PerColumn.maxWidth].
  now apply fold_measure_nonneg.
Qed.

Lemma going_keeps_ok {P : Type} (I : P -> Prop) (c : outcome P) :
  (forall q, c = Ok q -> I q) ->
  forall r, going c = Ok r ->
            match r with None => True | Some q => I q end.
Proof.
  intros Hc r H. unfold going in H.
  destruct c as [q| | |]; try discriminate.
  cbn [bind] in H. injection H as <-. now apply Hc.
Qed.

Lemma total_keeps {P : Type} (I : P -> Prop) (c : outcome P) :
  (exists q, c = Ok q /\ I q) -> forall q, c = Ok q -> I q.
Proof.
  intros (q' & -> & Hq') q H. now injection H as <-.
Qed.

Lemma pc_keySwitch_inFile (env : Env) (bytes : list byte) (key : Key)
      (p : PerColumn.Pager) (r : option PerColumn.Pager) :
  inFile bytes p -> PerColumn.keySwitch env key p = Ok r ->
  match r with None => True | Some q => inFile bytes q end.
Proof.
  intros Hp. destruct key; cbn [PerColumn.keySwitch].
  - apply going_keeps_ok, total_keeps. now apply pc_seekBackwardN_inFile.
  - apply going_keeps_ok. intros q. now apply pc_seekForwardN_inFile.
  - apply going_keeps_ok. intros q. now apply pc_moveToLeft_inFile.
  - apply going_keeps_ok. intros q. now apply pc_moveToRight_inFile.
  - apply going_keeps_ok. intros q. now apply pc_seekForwardN_inFile.
  - apply going_keeps_ok, total_keeps. now apply pc_seekBackwardN_inFile.
  - apply going_keeps_ok. intros q. now apply pc_seekForwardN_inFile.
  - intros H. now injection H as <-.
  - intros H. now injection H as <-.
Qed.

Lemma pc_charSwitch_inFile (env : Env) (bytes : list byte) (ch : rune)
      (p : PerColumn.Pager) (r : option PerColumn.Pager) :
  inFile bytes p -> PerColumn.charSwitch env ch p = Ok r ->
  match r with None => True | Some q => inFile bytes q end.
Proof.
  intros Hp. unfold PerColumn.charSwitch.
  destruct (ch =? chJ).
  { apply going_keeps_ok. intros q. now apply pc_seekForwardN_inFile. }
  destruct (ch =? chK).
  { apply going_keeps_ok, total_keeps. now apply pc_seekBackwardN_inFile. }
  destruct (ch =? chL).
  { apply going_keeps_ok. intros q. now apply pc_moveToRight_inFile. }
  destruct (ch =? chH).
  { apply going_keeps_ok. intros q. now apply pc_moveToLeft_inFile. }
  destruct (ch =? chQ).
  { intros H. now injection H as <-. }
  destruct (ch =? chG).
  { apply going_keeps_ok, total_keeps. now apply pc_seekEnd_inFile. }
  destruct (ch =? chg).
  { apply going_keeps_ok. intros q H. injection H as <-.
    destruct Hp as (Hc & Hoff & Hrest).
    split; [exact Hc|]. split; [|exact Hrest].
    cbn [PerColumn.withOffset PerColumn.file offset]. lia. }
  intros H. now injection H as <-.
Qed.

Lemma pc_handleKey_inFile (env : Env) (bytes : list byte) (ch : rune)
      (key : Key) (p : PerColumn.Pager) (r : option PerColumn.Pager) :
  inFile bytes p -> PerColumn.handleKey env ch key p = Ok r ->
  match r with None => True | Some q => inFile bytes q end.
Proof.
  intros Hp H. unfold PerColumn.handleKey in H.
  destruct (PerColumn.keySwitch env key p) as [r1| | |] eqn:E;
    try discriminate.
  cbn [bind] in H.
  pose proof (pc_keySwitch_inFile env bytes key p r1 Hp E) as Hr1.
  destruct r1 as [p1|].
  - now apply (pc_charSwitch_inFile env bytes ch p1).
  - now injection H as <-.
Qed.

Lemma pc_lineJump_inFile (env : Env) (bytes : list byte) (n : Z) (ch : rune)
      (key : Key) (p q : PerColumn.Pager) :
  inFile bytes p -> PerColumn.lineJump env n ch key p = Ok q ->
  inFile bytes q.
Proof.
  intros Hp H. unfold PerColumn.lineJump in H.
  destruct (match key with
            | KeyArrowDown => PerColumn.seekForwardN env n p
            | KeyArrowUp => PerColumn.seekBackwardN n p
            | _ => Ok p
            end) as [p1| | |] eqn:E; try discriminate.
  cbn [bind] in H.
  assert (Hp1 : inFile bytes p1).
  { destruct key; try (now injection E as <-).
    - revert E. apply total_keeps. now apply pc_seekBackwardN_inFile.
    - now apply (pc_seekForwardN_inFile env bytes n p). }
  destruct (ch =? chJ); [now apply (pc_seekForwardN_inFile env bytes n p1)|].
  destruct (ch =? chK).
  - revert H. apply total_keeps. now apply pc_seekBackwardN_inFile.
  - now injection H as <-.
Qed.

Lemma pc_keyboardLoop_inFile (env : Env) (dg : Digits) (bytes : list byte) :
  forall (keys : list keyPress) (buffer : option gostring)
         (p : PerColumn.Pager),
    inFile bytes p ->
    Forall (inTerminal env)
           (fst (PerColumn.keyboardLoop env dg keys buffer p)) /\
    (forall p', snd (PerColumn.keyboardLoop env dg keys buffer p)
                = Waiting p' -> inFile bytes p').
Proof.
  induction keys as [|[ch key|] rest IH]; intros buffer p Hp.
  - cbn. split; [constructor|]. intros p' H. now injection H as <-.
  - assert (Hdraw : forall q,
               inFile bytes q ->
               Forall (inTerminal env)
                      (fst (drawn (PerColumn.renderCSVWindow env q)
                                  (PerColumn.keyboardLoop env dg rest None)))
               /\
               (forall p',
                   snd (drawn (PerColumn.renderCSVWindow env q)
                              (PerColumn.keyboardLoop env dg rest None))
                   = Waiting p' -> inFile bytes p')).
    { intros q Hq. unfold drawn.
      destruct (PerColumn.renderCSVWindow env q) as [[q1 frame]| | |] eqn:E.
      - apply (pc_render_inFile env bytes q q1 frame Hq) in E as [Hq1 Hframe].
        destruct (IH None q1 Hq1) as [Hframes Hwait].
        destruct (PerColumn.keyboardLoop env dg rest None q1) as [frames e].
        cbn [fst snd] in *. split; [now constructor | exact Hwait].
      - cbn. split; [constructor | discriminate].
      - cbn. split; [constructor | discriminate].
      - cbn. split; [constructor | discriminate]. }
    cbn [PerColumn.keyboardLoop].
    destruct buffer as [digits|]; destruct (IsDigit dg ch).
    + now apply IH.
    + destruct (PerColumn.lineJump env (Atoi dg digits) ch key p)
        as [p1| | |] eqn:E.
      * apply Hdraw.
        apply (pc_lineJump_inFile env bytes (Atoi dg digits) ch key p p1
                                  Hp E).
      * cbn. split; [constructor | discriminate].
      * cbn. split; [constructor | discriminate].
      * cbn. split; [constructor | discriminate].
    + now apply IH.
    + destruct (PerColumn.handleKey env ch key p) as [[p1|]| | |] eqn:E.
      * apply Hdraw.
        apply (pc_handleKey_inFile env bytes ch key p (Some p1) Hp E).
      * cbn. split; [constructor | discriminate].
      * cbn. split; [constructor | discriminate].
      * cbn. split; [constructor | discriminate].
      * cbn. split; [constructor | discriminate].
  - cbn. split; [constructor | discriminate].
Qed.

(** Whatever keys are pressed, and however the loop ends, the keyboard
    loop of the first listing keeps the cursor inside the file and the
    shift and widths non-negative, and every frame it draws fits the
    terminal: this holds for the frames drawn before a panic or an
    endless loop as well, and for the pager whenever the loop waits for
    the next key. *)
Theorem keyboardHandler_keeps_cursor_in_file
        (env : Env) (dg : Digits) (bytes : list byte)
        (keys : list keyPress) (p : PerColumn.Pager) :
  inFile bytes p ->
  Forall (inTerminal env) (fst (PerColumn.keyboardHandler env dg keys p)) /\
  (forall p', snd (PerColumn.keyboardHandler env dg keys p) = Waiting p' ->
              inFile bytes p').
Proof.
  apply pc_keyboardLoop_inFile.
Qed.

(** The file "a\nbb\n" on a terminal of 80 by 24, after the first
    render; the keys are j, 2, k and q. *)
Lemma keyboardHandler_safe_on_regular_table_witness :
  let env := mkEnv 80 24 [x2c] plainRecords in
  let bytes := [x61; x0a; x62; x62; x0a] in
  let p := Uniform.mkPager 0 0 1 2 (mkFile bytes 0) in
  let keys := [Pressed chJ KeyOther; Pressed 50 KeyOther;
               Pressed chK KeyOther; Pressed chQ KeyOther] in
  (regularTable env bytes 1 /\ comma env <> [] /\ 0 <= height env /\
   0 <= 1 /\ steady env bytes 1 p) /\
  exists frames e,
    Uniform.keyboardHandler env asciiDigits keys p = (frames, e) /\
    Forall (inTerminal env) frames /\
    (e = Quit \/
     (exists p', e = Waiting p' /\ steady env bytes 1 p') \/
     (e = Failed /\ In GetKeyError keys) \/
     (e = FatalExit /\ rejectedComma env /\ 2 <= height env)).
Proof.
  cbv zeta.
  assert (Hreg : regularTable (mkEnv 80 24 [x2c] plainRecords)
                              [x61; x0a; x62; x62; x0a] 1).
  { intros c off r Hc _ Hin. cbn in Hc. injection Hc as <-.
    cbn [csvRecords] in Hin.
    assert (Hall : forall f, In f r -> RuneCountInString f < 80 /\ len r = 1).
    { destruct (Z.to_nat off) as [|[|[|[|[|n]]]]]; cbn [skipn] in Hin;
        try rewrite skipn_nil in Hin; vm_compute in Hin;
        repeat (destruct Hin as [<- | Hin]);
        try (destruct Hin);
        intros f Hf; repeat (destruct Hf as [<- | Hf]);
        try (destruct Hf); split; reflexivity. }
    split.
    - destruct r as [|f r']; [|apply (Hall f); now left].
      exfalso.
      destruct (Z.to_nat off) as [|[|[|[|[|n]]]]]; cbn [skipn] in Hin;
        try rewrite skipn_nil in Hin; vm_compute in Hin;
        repeat (destruct Hin as [Hin | Hin]; [discriminate|]);
        destruct Hin.
    - apply Forall_forall. intros f Hf. apply (Hall f Hf). }
  assert (Hcomma : comma (mkEnv 80 24 [x2c] plainRecords) <> [])
    by discriminate.
  assert (Hh : 0 <= height (mkEnv 80 24 [x2c] plainRecords)) by (cbn; lia).
  assert (Hk : 0 <= 1) by lia.
  assert (Hp : steady (mkEnv 80 24 [x2c] plainRecords)
                      [x61; x0a; x62; x62; x0a] 1
                      (Uniform.mkPager 0 0 1 2
                         (mkFile [x61; x0a; x62; x62; x0a] 0))).
  { split; [|reflexivity].
    split; [reflexivity|]. split; [left; now left|].
    split; [cbn; lia|]. split; [now right|]. cbn. lia. }
  split; [exact (conj Hreg (conj Hcomma (conj Hh (conj Hk Hp))))|].
  exact (keyboardHandler_safe_on_regular_table
           (mkEnv 80 24 [x2c] plainRecords) asciiDigits
           [x61; x0a; x62; x62; x0a] 1
           [Pressed chJ KeyOther; Pressed 50 KeyOther;
            Pressed chK KeyOther; Pressed chQ KeyOther]
           (Uniform.mkPager 0 0 1 2 (mkFile [x61; x0a; x62; x62; x0a] 0))
           Hreg Hcomma Hh Hk Hp).
Defined.

(** The file "a\nbb\n" on a terminal of 80 by 24, after the first
    render; the keys are j, 2, k and q. *)
Lemma keyboardHandler_keeps_cursor_in_file_witness :
  let env := mkEnv 80 24 [x2c] plainRecords in
  let bytes := [x61; x0a; x62; x62; x0a] in
  let p := PerColumn.mkPager 0 [2] (mkFile bytes 0) None in
  let keys := [Pressed chJ KeyOther; Pressed 50 KeyOther;
               Pressed chK KeyOther; Pressed chQ KeyOther] in
  inFile bytes p /\
  Forall (inTerminal env)
         (fst (PerColumn.keyboardHandler env asciiDigits keys p)) /\
  (forall p',
      snd (PerColumn.keyboardHandler env asciiDigits keys p) = Waiting p' ->
      inFile bytes p').
Proof.
  cbv zeta.
  assert (Hp : inFile [x61; x0a; x62; x62; x0a]
                      (PerColumn.mkPager 0 [2]
                         (mkFile [x61; x0a; x62; x62; x0a] 0) None)).
  { split; [reflexivity|]. split; [cbn; lia|]. split; [cbn; lia|].
    repeat constructor. cbn. lia. }
  split; [exact Hp|].
  exact (keyboardHandler_keeps_cursor_in_file
           (mkEnv 80 24 [x2c] plainRecords) asciiDigits
           [x61; x0a; x62; x62; x0a]
           [Pressed chJ KeyOther; Pressed 50 KeyOther;
            Pressed chK KeyOther; Pressed chQ KeyOther]
           (PerColumn.mkPager 0 [2] (mkFile [x61; x0a; x62; x62; x0a] 0) None)
           Hp).
Defined.

(** While [handleLineJump] reads a count the quit keys do not quit: the
    key [q], or Ctrl-C, pressed after a digit only ends the count; the
    pager is left as it is, the window is rendered and the loop goes on
    with the keys that follow.  Without the digit the same key ends the
    loop at once.  Both listings. *)
Theorem quit_keys_only_end_a_count
        (env : Env) (dg : Digits) (d ch : rune) (kd key : Key)
        (rest : list keyPress) :
  IsDigit dg d = true -> IsDigit dg ch = false ->
  (ch = chQ /\ key = KeyOther) \/ (ch = 0 /\ key = KeyCtrlC) ->
  (forall p : PerColumn.Pager,
      PerColumn.keyboardHandler env dg (Pressed ch key :: rest) p
      = ([], Quit) /\
      PerColumn.keyboardHandler env dg
        (Pressed d kd :: Pressed ch key :: rest) p
      = drawn (PerColumn.renderCSVWindow env p)
              (PerColumn.keyboardHandler env dg rest)) /\
  (forall p : Uniform.Pager,
      Uniform.keyboardHandler env dg (Pressed ch key :: rest) p
      = ([], Quit) /\
      Uniform.keyboardHandler env dg
        (Pressed d kd :: Pressed ch key :: rest) p
      = drawn (Uniform.renderCSVWindow env p)
              (Uniform.keyboardHandler env dg rest)).
Proof.
  intros Hd Hch Hkey. split; intros p; split.
  - unfold PerColumn.keyboardHandler. cbn [PerColumn.keyboardLoop].
    rewrite Hch. destruct Hkey as [[-> ->] | [-> ->]]; reflexivity.
  - unfold PerColumn.keyboardHandler. cbn [PerColumn.keyboardLoop].
    rewrite Hd, Hch. destruct Hkey as [[-> ->] | [-> ->]]; reflexivity.
  - unfold Uniform.keyboardHandler. cbn [Uniform.keyboardLoop].
    rewrite Hch. destruct Hkey as [[-> ->] | [-> ->]]; reflexivity.
  - unfold Uniform.keyboardHandler. cbn [Uniform.keyboardLoop].
    rewrite Hd, Hch. destruct Hkey as [[-> ->] | [-> ->]]; reflexivity.
Qed.

(** The keys 5 and q, with ASCII digits. *)
Lemma quit_keys_only_end_a_count_witness :
  let env := mkEnv 80 24 [x2c] plainRecords in
  (IsDigit asciiDigits 53 = true /\ IsDigit asciiDigits chQ = false /\
   ((chQ = chQ /\ KeyOther = KeyOther) \/ (chQ = 0 /\ KeyOther = KeyCtrlC)))
  /\
  (forall p : PerColumn.Pager,
      PerColumn.keyboardHandler env asciiDigits [Pressed chQ KeyOther] p
      = ([], Quit) /\
      PerColumn.keyboardHandler env asciiDigits
        [Pressed 53 KeyOther; Pressed chQ KeyOther] p
      = drawn (PerColumn.renderCSVWindow env p)
              (PerColumn.keyboardHandler env asciiDigits [])) /\
  (forall p : Uniform.Pager,
      Uniform.keyboardHandler env asciiDigits [Pressed chQ KeyOther] p
      = ([], Quit) /\
      Uniform.keyboardHandler env asciiDigits
        [Pressed 53 KeyOther; Pressed chQ KeyOther] p
      = drawn (Uniform.renderCSVWindow env p)
              (Uniform.keyboardHandler env asciiDigits [])).
Proof.
  cbv zeta.
  assert (H1 : IsDigit asciiDigits 53 = true) by reflexivity.
  assert (H2 : IsDigit asciiDigits chQ = false) by reflexivity.
  assert (H3 : (chQ = chQ /\ KeyOther = KeyOther) \/
               (chQ = 0 /\ KeyOther = KeyCtrlC))
    by (left; split; reflexivity).
  split; [exact (conj H1 (conj H2 H3))|].
  exact (quit_keys_only_end_a_count
           (mkEnv 80 24 [x2c] plainRecords) asciiDigits 53 chQ
           KeyOther KeyOther [] H1 H2 H3).
Defined.

(** ** From the start of the program to the keyboard loop *)

(** With a path, a file that opens, a delimiter the CSV reader accepts
    and a terminal of non-negative size, [main] hides the cursor and
    draws one frame that fits the terminal, in both listings, whatever
    the file holds; it then reaches the keyboard loop when
    [keyboard.Open] succeeds, and panics, with the deferred prints,
    when it fails.  The pager handed to the loop is at offset 0 with no
    shift, in the state the loop preserves: in the first listing
    [inFile], in the second [steady] when the table is regular and the
    terminal at least one column wide.  With a delimiter the reader
    rejects and a terminal of two lines or more, [main] hides the
    cursor and ends in [log.Fatalln]: no frame is drawn and the cursor
    stays hidden. *)
Theorem main_serves_first_window
        (w h : Z) (parser : byte -> list byte -> list record)
        (csvFile commaFlag bytes : list byte) :
  csvFile <> [] -> 0 <= w -> 0 <= h ->
  (acceptedComma (mkEnv w h commaFlag parser) ->
   (exists p1 frame,
       PerColumn.main w h parser csvFile commaFlag (Some bytes) true
       = ([EvHideCursor; EvFrame frame], Serving p1) /\
       PerColumn.main w h parser csvFile commaFlag (Some bytes) false
       = ([EvHideCursor; EvFrame frame; EvNewline; EvShowCursor], Crashed) /\
       inTerminal (mkEnv w h commaFlag parser) frame /\
       PerColumn.file p1 = mkFile bytes 0 /\
       PerColumn.horizontalShift p1 = 0 /\
       inFile bytes p1) /\
   (exists p1 frame,
       Uniform.main w h parser csvFile commaFlag (Some bytes) true
       = ([EvHideCursor; EvFrame frame], Serving p1) /\
       Uniform.main w h parser csvFile commaFlag (Some bytes) false
       = ([EvHideCursor; EvFrame frame; EvNewline; EvShowCursor], Crashed) /\
       inTerminal (mkEnv w h commaFlag parser) frame /\
       Uniform.file p1 = mkFile bytes 0 /\
       Uniform.horizontalShift p1 = 0 /\
       (forall k, regularTable (mkEnv w h commaFlag parser) bytes k ->
                  0 <= k -> 0 < w ->
                  steady (mkEnv w h commaFlag parser) bytes k p1))) /\
  (rejectedComma (mkEnv w h commaFlag parser) -> 2 <= h ->
   forall keyboardOpens : bool,
     PerColumn.main w h parser csvFile commaFlag (Some bytes) keyboardOpens
     = ([EvHideCursor; EvFatal], ExitFatal) /\
     Uniform.main w h parser csvFile commaFlag (Some bytes) keyboardOpens
     = ([EvHideCursor; EvFatal], ExitFatal)).
Proof.
  intros Hfile Hw Hh.
  set (env := mkEnv w h commaFlag parser).
  split; [intros Hcomma; split|].
  - set (p0 := PerColumn.mkPager 0 [] (mkFile bytes 0) None).
    destruct (pc_render_unshifted env p0 Hcomma eq_refl Hw Hh)
      as (p1 & records & frame & Hread & Hrender & _).
    assert (Hp0 : inFile bytes p0).
    { split; [reflexivity|]. split; [|split; [cbn; lia | constructor]].
      cbn [p0 PerColumn.file offset]. pose proof (len_nonneg bytes). lia. }
    destruct (pc_render_inFile env bytes p0 _ frame Hp0 Hrender)
      as [Hin Hterm].
    eexists _, frame.
    split; [|split; [|split; [exact Hterm|split; [|split]]]].
    + unfold PerColumn.main. destruct csvFile; [contradiction|].
      fold env. fold p0. rewrite Hrender. reflexivity.
    + unfold PerColumn.main. destruct csvFile; [contradiction|].
      fold env. fold p0. rewrite Hrender. reflexivity.
    + reflexivity.
    + reflexivity.
    + exact Hin.
  - set (p0 := Uniform.mkPager 0 0 0 0 (mkFile bytes 0)).
    destruct (un_render_unshifted env p0 Hcomma eq_refl Hw Hh)
      as (p1 & records & frame & Hread & Hrender & _).
    destruct (un_readLines_total env p0 Hcomma)
      as (p1' & records' & Hread' & Hshift & Hf & _).
    rewrite Hread in Hread'. injection Hread' as <- <-.
    exists p1, frame. split; [|split; [|split; [|split; [|split]]]].
    + unfold Uniform.main. destruct csvFile; [contradiction|].
      fold env. fold p0. rewrite Hrender. reflexivity.
    + unfold Uniform.main. destruct csvFile; [contradiction|].
      fold env. fold p0. rewrite Hrender. reflexivity.
    + unfold Uniform.renderCSVWindow in Hrender. rewrite Hread in Hrender.
      cbn [bind] in Hrender.
      destruct (Uniform.getPrintableLines env p1 records)
        as [lines| | |] eqn:E; try discriminate.
      cbn [bind] in Hrender. injection Hrender as <-.
      apply (un_getPrintableLines_within env p1 records lines E).
    + exact Hf.
    + exact Hshift.
    + intros k Hreg Hk Hpos.
      assert (Hne : comma env <> []).
      { destruct Hcomma as (c & rest & Hc & _). rewrite Hc. discriminate. }
      destruct (un_render_steady env bytes k p0 Hreg Hne Hh Hk)
        as [(q & frame' & Hrender' & Hsteady & _) | (Hrender' & _)].
      { split; [reflexivity|]. split; [left; now left|].
        split; [cbn; lia|]. split; [now left|]. cbn. lia. }
      * rewrite Hrender in Hrender'. now injection Hrender' as <- _.
      * rewrite Hrender in Hrender'. discriminate.
  - intros Hrej Hh2 keyboardOpens. split.
    + unfold PerColumn.main. destruct csvFile; [contradiction|].
      fold env. unfold PerColumn.renderCSVWindow.
      now rewrite (pc_readLines_rejected env _ Hrej Hh2).
    + unfold Uniform.main. destruct csvFile; [contradiction|].
      fold env. unfold Uniform.renderCSVWindow.
      now rewrite (un_readLines_rejected env _ Hrej Hh2).
Qed.

(** The file "a\nbb\n" opened as data.csv on a terminal of 80 by 24,
    with the comma as delimiter. *)
Lemma main_serves_first_window_witness :
  let bytes := [x61; x0a; x62; x62; x0a] in
  let csvFile := [x64; x61; x74; x61; x2e; x63; x73; x76] in
  (csvFile <> [] /\ 0 <= 80 /\ 0 <= 24 /\
   acceptedComma (mkEnv 80 24 [x2c] plainRecords)) /\
  (exists p1 frame,
      PerColumn.main 80 24 plainRecords csvFile [x2c] (Some bytes) true
      = ([EvHideCursor; EvFrame frame], Serving p1) /\
      PerColumn.main 80 24 plainRecords csvFile [x2c] (Some bytes) false
      = ([EvHideCursor; EvFrame frame; EvNewline; EvShowCursor], Crashed) /\
      inTerminal (mkEnv 80 24 [x2c] plainRecords) frame /\
      PerColumn.file p1 = mkFile bytes 0 /\
      PerColumn.horizontalShift p1 = 0 /\
      inFile bytes p1) /\
  (exists p1 frame,
      Uniform.main 80 24 plainRecords csvFile [x2c] (Some bytes) true
      = ([EvHideCursor; EvFrame frame], Serving p1) /\
      Uniform.main 80 24 plainRecords csvFile [x2c] (Some bytes) false
      = ([EvHideCursor; EvFrame frame; EvNewline; EvShowCursor], Crashed) /\
      inTerminal (mkEnv 80 24 [x2c] plainRecords) frame /\
      Uniform.file p1 = mkFile bytes 0 /\
      Uniform.horizontalShift p1 = 0 /\
      (forall k, regularTable (mkEnv 80 24 [x2c] plainRecords) bytes k ->
                 0 <= k -> 0 < 80 ->
                 steady (mkEnv 80 24 [x2c] plainRecords) bytes k p1)).
Proof.
  cbv zeta.
  assert (H1 : [x64; x61; x74; x61; x2e; x63; x73; x76] <> [])
    by discriminate.
  assert (H2 : acceptedComma (mkEnv 80 24 [x2c] plainRecords))
    by (exists x2c, []; split; reflexivity).
  assert (H3 : 0 <= 80) by lia.
  assert (H4 : 0 <= 24) by lia.
  split; [exact (conj H1 (conj H3 (conj H4 H2)))|].
  exact (proj1 (main_serves_first_window 80 24 plainRecords
                  [x64; x61; x74; x61; x2e; x63; x73; x76] [x2c]
                  [x61; x0a; x62; x62; x0a] H1 H3 H4) H2).
Defined.

(** ** A pan to the right past the table *)

Lemma un_dataFieldsLoop_ends (mw : Z) (line : record) :
  Uniform.dataFieldsLoop mw line = Panicked \/
  exists tail, Uniform.dataFieldsLoop mw line = Ok tail.
Proof.
  induction line as [|field rest IH]; cbn [Uniform.dataFieldsLoop];
    [right; now eexists|].
  unfold padString.
  destruct (RuneCountInString field =? mw);
    [|destruct (mw - RuneCountInString field <? 0)];
    cbn [bind]; try (now left);
    destruct IH as [-> | (tail & ->)]; cbn [bind];
    try (now left); right; now eexists.
Qed.

Lemma un_windowLoop_extends (env : Env) (p : Uniform.Pager)
      (dataFooter : gostring) (lines : list record) :
  forall window,
    Uniform.windowLoop env p dataFooter lines window = Panicked \/
    exists rest,
      Uniform.windowLoop env p dataFooter lines window = Ok (window ++ rest).
Proof.
  induction lines as [|r lines IH]; intros window;
    cbn [Uniform.windowLoop].
  - right. exists []. now rewrite app_nil_r.
  - destruct (len window >=? height env).
    + right. exists []. now rewrite app_nil_r.
    + unfold Uniform.getDataFields.
      destruct (un_dataFieldsLoop_ends (Uniform.maxWidth p) r)
        as [-> | (tail & ->)]; cbn [bind]; [now left|].
      destruct (IH (window ++ [gBar :: tail; dataFooter]))
        as [H | (rest & H)]; [now left|].
      right. exists ([gBar :: tail; dataFooter] ++ rest).
      rewrite app_assoc. exact H.
Qed.

Lemma clipLines_past_first (shift w : Z) (first : gostring)
      (rest : list gostring) :
  len first < shift -> clipLines shift w (first :: rest) = Panicked.
Proof.
  intros H. cbn [clipLines]. unfold clipLine, sliceRange.
  replace (shift <=? Z.min (len first) (shift + w)) with false by lia.
  now rewrite andb_false_r.
Qed.

(** In the second listing a [moveToRight] that moves by more than is
    left of the table puts the shift past the end of the border lines,
    and no frame can be drawn from there: [getPrintableLines] panics on
    a terminal of one line or more, whatever records it is given.  This
    needs a shift that is no multiple of [maxWidth + 1], as after
    [maxWidth] has grown, and a terminal narrower than what is left. *)
Theorem moveToRight_past_table_panics
        (env : Env) (p : Uniform.Pager) (lines : list record) :
  1 <= height env ->
  0 <= Uniform.maxWidth p -> 0 <= Uniform.maxFields p ->
  width env < remainingUniform p ->
  remainingUniform p < Uniform.maxWidth p + 1 ->
  Uniform.countMaxJoinedLength p
  < Uniform.horizontalShift (Uniform.moveToRight env p) /\
  Uniform.getPrintableLines env (Uniform.moveToRight env p) lines = Panicked.
Proof.
  intros Hh Hmw Hmf Hwide Hleft. unfold remainingUniform in *.
  unfold Uniform.moveToRight.
  replace (Uniform.countMaxJoinedLength p - Uniform.horizontalShift p
           <=? width env) with false by lia.
  set (q := Uniform.withShift p (Uniform.horizontalShift p
                                 + Uniform.maxWidth p + 1)).
  assert (Hq : Uniform.countMaxJoinedLength p < Uniform.horizontalShift q).
  { cbn [q Uniform.withShift Uniform.horizontalShift]. lia. }
  split; [exact Hq|].
  assert (Hlen : 0 < Uniform.countMaxJoinedLength p).
  { unfold Uniform.countMaxJoinedLength. nia. }
  unfold Uniform.getPrintableLines.
  unfold Uniform.getTableHeaderLine, Uniform.getDataLine,
    Uniform.getTableFooterLine.
  destruct (un_getTableLine_total q (Uniform.maxFields q)
              gHeaderStart gHeaderMiddle gHeaderEnd)
    as (header & -> & Hlh).
  destruct (un_getTableLine_total q (Uniform.maxFields q)
              gDataStart gDataMiddle gDataEnd)
    as (sep & -> & Hls).
  destruct (un_getTableLine_total q (Uniform.maxFields q)
              gFooterStart gFooterMiddle gFooterEnd)
    as (footer & -> & Hlf).
  cbn [bind].
  change (Uniform.countMaxJoinedLength q)
    with (Uniform.countMaxJoinedLength p) in *.
  destruct (un_windowLoop_extends env q sep lines [header])
    as [-> | (rest & ->)]; [reflexivity|].
  cbn [bind app setLast].
  set (closed := removelast (header :: rest) ++ [footer]).
  assert (Hclosed : exists first tail,
             closed = first :: tail /\
             len first = Uniform.countMaxJoinedLength p).
  { unfold closed. destruct rest as [|r rest].
    - exists footer, []. split; [reflexivity | lia].
    - exists header, (removelast (r :: rest) ++ [footer]).
      split; [reflexivity | lia]. }
  destruct Hclosed as (first & tail & -> & Hfirst).
  pose proof (len_nonneg tail) as Htail.
  rewrite sliceRange_prefix by (rewrite len_cons; lia).
  cbn [bind].
  destruct (Z.to_nat (Z.min (height env) (len (first :: tail))))
    as [|n] eqn:En; [rewrite len_cons in En; lia|].
  cbn [firstn]. apply clipLines_past_first. lia.
Qed.

(** The file "a,b\nccccc,d\n" on a terminal 3 wide and 2 high, in the
    state the keys l, j and l lead to: the second line in the window,
    the shift at 8, two columns of width 5. *)
Lemma moveToRight_past_table_panics_witness :
  let env := mkEnv 3 2 [x2c] plainRecords in
  let bytes := [x61; x2c; x62; x0a;
                x63; x63; x63; x63; x63; x2c; x64; x0a] in
  let p := Uniform.mkPager 4 8 2 5 (mkFile bytes 4) in
  (1 <= height env /\ 0 <= Uniform.maxWidth p /\ 0 <= Uniform.maxFields p /\
   width env < remainingUniform p /\
   remainingUniform p < Uniform.maxWidth p + 1) /\
  Uniform.countMaxJoinedLength p
  < Uniform.horizontalShift (Uniform.moveToRight env p) /\
  Uniform.getPrintableLines env (Uniform.moveToRight env p)
    [[[99; 99; 99; 99; 99]; [100]]] = Panicked.
Proof.
  cbv zeta.
  assert (H1 : 1 <= height (mkEnv 3 2 [x2c] plainRecords)) by (cbn; lia).
  assert (H2 : 0 <= Uniform.maxWidth (Uniform.mkPager 4 8 2 5
                      (mkFile [x61; x2c; x62; x0a;
                               x63; x63; x63; x63; x63; x2c; x64; x0a] 4)))
    by (cbn; lia).
  assert (H3 : 0 <= Uniform.maxFields (Uniform.mkPager 4 8 2 5
                      (mkFile [x61; x2c; x62; x0a;
                               x63; x63; x63; x63; x63; x2c; x64; x0a] 4)))
    by (cbn; lia).
  assert (H4 : width (mkEnv 3 2 [x2c] plainRecords)
               < remainingUniform (Uniform.mkPager 4 8 2 5
                      (mkFile [x61; x2c; x62; x0a;
                               x63; x63; x63; x63; x63; x2c; x64; x0a] 4)))
    by reflexivity.
  assert (H5 : remainingUniform (Uniform.mkPager 4 8 2 5
                      (mkFile [x61; x2c; x62; x0a;
                               x63; x63; x63; x63; x63; x2c; x64; x0a] 4))
               < Uniform.maxWidth (Uniform.mkPager 4 8 2 5
                      (mkFile [x61; x2c; x62; x0a;
                               x63; x63; x63; x63; x63; x2c; x64; x0a] 4)) + 1)
    by reflexivity.
  split; [exact (conj H1 (conj H2 (conj H3 (conj H4 H5))))|].
  exact (moveToRight_past_table_panics
           (mkEnv 3 2 [x2c] plainRecords)
           (Uniform.mkPager 4 8 2 5
                      (mkFile [x61; x2c; x62; x0a;
                               x63; x63; x63; x63; x63; x2c; x64; x0a] 4))
           [[[99; 99; 99; 99; 99]; [100]]] H1 H2 H3 H4 H5).
Defined.
